(** * LongWeave pipeline engine: record store, stage logs, state loaders,
      merge, stage executor and hierarchical metrics aggregator.

    Shallow embedding of [src/core/pipeline.py] (class [Pipeline]).

    Conventions of the embedding
    - a JSON value is a [json]; a Python dict obtained from JSON is an
      insertion-ordered association list [obj];
    - Python numbers are exact rationals ([Q]); binary64 rounding of sums is
      not represented;
    - a line of a JSON-Lines file is represented by what [json.loads] makes of
      it ([Row v]), or by [Garbage] when [json.loads] raises, or by [Blank]
      when [line.strip()] is empty;
    - the file system is a finite map from paths to contents; I/O failures
      that the source catches are decided by an [io_faults] record. *)

From Stdlib Require Import String Ascii List ZArith QArith Bool Lia Permutation.
From stdpp Require Import base gmap strings list pretty.
Import ListNotations.
Open Scope string_scope.

(** ** JSON values and Python dictionaries *)

#[local] Set Warnings "-register-all".

Inductive json : Type :=
| JNull
| JBool (b : bool)
| JNum (q : Q)
| JStr (s : string)
| JArr (l : list json)
| JObj (o : list (string * json)).

Definition obj : Type := list (string * json).

(** [d.get(k)]: the value, or [None] (JSON null) when the key is absent. *)
Fixpoint dget (k : string) (d : obj) : json :=
  match d with
  | [] => JNull
  | (k', v) :: d' => if String.eqb k k' then v else dget k d'
  end.

(** [k in d] *)
Fixpoint dmem (k : string) (d : obj) : bool :=
  match d with
  | [] => false
  | (k', _) :: d' => if String.eqb k k' then true else dmem k d'
  end.

(** [d[k] = v]: in place when the key exists, appended otherwise. *)
Fixpoint dset (k : string) (v : json) (d : obj) : obj :=
  match d with
  | [] => [(k, v)]
  | (k', v') :: d' =>
      if String.eqb k k' then (k', v) :: d' else (k', v') :: dset k v d'
  end.

(** Python truthiness of a JSON value ([if not x], [not x]). *)
Definition truthy (v : json) : bool :=
  match v with
  | JNull => false
  | JBool b => b
  | JNum q => negb (Qeq_bool q 0)
  | JStr s => negb (String.eqb s "")
  | JArr l => match l with [] => false | _ => true end
  | JObj o => match o with [] => false | _ => true end
  end.

(** [isinstance(v, (int, float))]; a Python [bool] is an [int]. *)
Definition is_number (v : json) : bool :=
  match v with JNum _ | JBool _ => true | _ => false end.

(** The numeric value used by [+=] for a value passing [is_number]. *)
Definition num_value (v : json) : Q :=
  match v with
  | JNum q => q
  | JBool true => 1
  | _ => 0
  end.

(** [v == s] / [v != s] for a string literal [s]. *)
Definition eq_str (v : json) (s : string) : bool :=
  match v with JStr t => String.eqb t s | _ => false end.

(** [isinstance(answer, str) and answer.startswith("ERROR:")] *)
Definition is_error_answer (answer : json) : bool :=
  match answer with JStr s => String.prefix "ERROR:" s | _ => false end.

(** [answer is not None and answer != "" and not is_error] *)
Definition is_valid_answer (answer : json) : bool :=
  match answer with
  | JNull => false
  | _ => negb (eq_str answer "") && negb (is_error_answer answer)
  end.

(** [isinstance(eval_results, dict) and eval_results.get("error")] *)
Definition is_eval_error (eval_results : json) : bool :=
  match eval_results with
  | JObj r => truthy (dget "error" r)
  | _ => false
  end.

(** [isinstance(eval_results, dict) and not eval_results.get("error")] *)
Definition is_valid_eval (eval_results : json) : bool :=
  match eval_results with
  | JObj r => negb (truthy (dget "error" r))
  | _ => false
  end.

(** ** Dictionary keys

    A [sample_id] is used as a key of [items_map] and as an element of the
    [processed_ids] set.  Strings and numbers are hashable; [True == 1 == 1.0]
    are one key; lists and dicts are unhashable (using them raises
    [TypeError], which both parsers catch). *)

Inductive key : Type :=
| KStr (s : string)
| KNum (q : Q).

#[global] Instance Q_eq_dec : EqDecision Q.
Proof. solve_decision. Defined.

#[global] Instance key_eq_dec : EqDecision key.
Proof. solve_decision. Defined.

(** The key for a truthy, hashable value; [None] when the statement
    [if not item_id: return] returns or when hashing raises. *)
Definition key_of (v : json) : option key :=
  match v with
  | JStr s => if truthy v then Some (KStr s) else None
  | JNum q => if truthy v then Some (KNum (Qred q)) else None
  | JBool true => Some (KNum 1)
  | _ => None
  end.

(** [items_map]: a Python dict keyed by sample id, in insertion order. *)
Definition items_map : Type := list (key * obj).

Fixpoint map_get (k : key) (m : items_map) : option obj :=
  match m with
  | [] => None
  | (k', v) :: m' => if decide (k = k') then Some v else map_get k m'
  end.

(** [m[k] = v] *)
Fixpoint map_set (k : key) (v : obj) (m : items_map) : items_map :=
  match m with
  | [] => [(k, v)]
  | (k', v') :: m' =>
      if decide (k = k') then (k', v) :: m' else (k', v') :: map_set k v m'
  end.

(** [list(m.values())] *)
Definition map_values (m : items_map) : list obj := List.map snd m.

(** A Python [set] of keys: only membership is observed. *)
Definition id_set : Type := list key.

Definition set_mem (k : key) (s : id_set) : bool :=
  existsb (fun k' => bool_decide (k = k')) s.

Definition set_add (k : key) (s : id_set) : id_set :=
  if set_mem k s then s else k :: s.

Definition set_discard (k : key) (s : id_set) : id_set :=
  List.filter (fun k' => negb (bool_decide (k = k'))) s.

(** ** Lines and files *)

Inductive line : Type :=
| Blank
| Garbage
| Row (v : json).

(** A file holds JSON Lines, or one pretty-printed JSON document (the
    analysis report). *)
Inductive content : Type :=
| Lines (ls : list line)
| Document (v : json).

(** Iterating over a file line by line.  The physical lines of an indented
    document are not records; they are all skipped by every reader, as one
    [Garbage] line is. *)
Definition file_lines (c : content) : list line :=
  match c with
  | Lines ls => ls
  | Document _ => [Garbage]
  end.

(** ** Replay of one file by the inference loader *)

(** State threaded by the closure [_parse_infer]: [items_map] and
    [processed_ids]. *)
Definition load_state : Type := (items_map * id_set)%type.

Definition _parse_infer (st : load_state) (ln : line) : load_state :=
  match ln with
  | Row (JObj item) =>
      match key_of (dget "sample_id" item) with
      | None => st
      | Some item_id =>
          let m := map_set item_id item (fst st) in
          let answer := dget "answer" item in
          if is_valid_answer answer then (m, set_add item_id (snd st))
          else if set_mem item_id (snd st) then (m, set_discard item_id (snd st))
          else (m, snd st)
      end
  | _ => st
  end.

(** [for i, line in enumerate(f): if line.strip(): parse(line, ...)] *)
Definition replay (parse : load_state -> line -> load_state)
    (ls : list line) (st : load_state) : load_state :=
  fold_left
    (fun st ln => match ln with Blank => st | _ => parse st ln end) ls st.

(** Body of the loop "3. Identify tasks" of the inference loader, for a
    value of the local flag [retry_errors]. *)
Definition needs_inference (retry_errors : bool) (processed_ids : id_set)
    (kv : key * obj) : bool :=
  let '(item_id, item) := kv in
  if negb (set_mem item_id processed_ids) then
    let is_error := is_error_answer (dget "answer" item) in
    if negb is_error || (is_error && retry_errors) then
      negb (eq_str (dget "prompt" item) "ERROR: Prompt generation failed")
    else false
  else false.

(** [retry_errors = True  # Or make configurable] *)
Definition infer_tasks (st : load_state) : list obj :=
  let retry_errors := true in
  List.map snd (List.filter (needs_inference retry_errors (snd st)) (fst st)).

(** ** Replay of one file by the evaluation loader *)

Definition _parse_eval (st : load_state) (ln : line) : load_state :=
  match ln with
  | Row (JObj item) =>
      match key_of (dget "sample_id" item) with
      | None => st
      | Some item_id =>
          let m :=
            match map_get item_id (fst st) with
            | Some old =>
                if dmem "evaluation_results" item
                then map_set item_id
                       (dset "evaluation_results"
                          (dget "evaluation_results" item) old) (fst st)
                else fst st
            | None => map_set item_id item (fst st)
            end in
          let eval_results :=
            match map_get item_id m with
            | Some it => dget "evaluation_results" it
            | None => JNull
            end in
          if is_valid_eval eval_results then (m, set_add item_id (snd st))
          else if set_mem item_id (snd st) then (m, set_discard item_id (snd st))
          else (m, snd st)
      end
  | _ => st
  end.

Definition needs_evaluation (retry_eval_errors : bool) (evaluated_ids : id_set)
    (kv : key * obj) : bool :=
  let '(item_id, item) := kv in
  let answer := dget "answer" item in
  let has_valid_answer := is_valid_answer answer in
  if has_valid_answer then
    if negb (set_mem item_id evaluated_ids) then
      let eval_results := dget "evaluation_results" item in
      let is_eval_error := is_eval_error eval_results in
      negb is_eval_error || (is_eval_error && retry_eval_errors)
    else false
  else false.

(** [retry_eval_errors = False] *)
Definition eval_tasks (st : load_state) : list obj :=
  let retry_eval_errors := false in
  List.map snd
    (List.filter (needs_evaluation retry_eval_errors (snd st)) (fst st)).

(** ** The host: file system, I/O failures, clock, thread pool *)

(** Which I/O operations raise.  Each field is asked with the path the
    operation works on. *)
Record io_faults : Type := {
  read_fails : string -> bool;    (* open(p, 'r') or iterating the file *)
  open_fails : string -> bool;    (* open(p, 'w') *)
  write_fails : string -> bool;   (* f.write / json.dump into p *)
  move_fails : string -> bool;    (* shutil.move(_, p) *)
  remove_fails : string -> bool;  (* os.remove(p) *)
  append_fails : string -> bool   (* open(p, 'a') or the write into it *)
}.

(** What the Python runtime supplies and the embedding does not compute:
    [str(v)], [type(v).__name__], the elapsed wall-clock time of a worker on
    an item, and the order in which [as_completed] yields the futures. *)
Record host : Type := {
  faults : io_faults;
  py_str : json -> string;
  py_type : json -> string;
  infer_elapsed : obj -> Q;
  eval_elapsed : obj -> Q;
  as_completed : list obj -> list obj
}.

Abbreviation fsys := (gmap string content).

(** [os.path.exists(p)] *)
Definition exists_file (fs : fsys) (p : string) : bool :=
  bool_decide (is_Some (fs !! p)).

(** Outcome of a call that may raise. *)
Inductive result (A : Type) : Type :=
| Ok (a : A)
| Raise (ty msg : string).
Arguments Ok {A} a.
Arguments Raise {A} ty msg.

(** The collaborator [TaskRunner] (core/runner.py), as the pipeline calls it.
    [generate_prompt] returns the pair [(prompt, metadata)]. *)
Record TaskRunner : Type := {
  generate_prompt : obj -> result (json * json);
  call_api : json -> json -> result json;
  evaluate_response : json -> obj -> result json
}.

(** One entry of [task_configs]: the dict, with [task_config['task_path']]
    and [task_config.get('sample_num', 1)] read off. *)
Record task_config : Type := {
  config_dict : obj;
  task_path : string;
  sample_num : nat
}.

(** The [Pipeline] object after [__init__].  [report_filepath] is
    [os.path.join(os.path.dirname(output_file), model + "_metric_report.json")];
    [TaskFactory_tasks] gives, for a registered task name, the
    [registered_metrics] of its class. *)
Record Pipeline : Type := {
  task_configs : list task_config;
  model_config : obj;
  output_file : string;
  task_runners : gmap string TaskRunner;
  TaskFactory_tasks : gmap string (list string);
  report_filepath : string
}.

Definition log_file (P : Pipeline) : string := output_file P ++ ".infer.log".
Definition eval_log_file (P : Pipeline) : string := output_file P ++ ".eval.log".

(** [d.get(k, dflt)] *)
Definition dget_default (k : string) (dflt : json) (d : obj) : json :=
  if dmem k d then dget k d else dflt.

Inductive outcome : Type := Done | Raised.

(** JSON Lines written for a list: non-dict items are skipped. *)
Definition jsonl_of (items : list json) : list line :=
  flat_map (fun it => match it with JObj _ => [Row it] | _ => [] end) items.

(** ** Sorting and rounding used by the report *)

Definition str_leb (a b : string) : bool :=
  match String.compare a b with Gt => false | _ => true end.

Fixpoint insert_sorted {A : Type} (x : string * A) (l : list (string * A))
    : list (string * A) :=
  match l with
  | [] => [x]
  | y :: l' => if str_leb (fst x) (fst y) then x :: l else y :: insert_sorted x l'
  end.

(** [sorted(d.items())] for a dict with string keys. *)
Definition sorted_items {A : Type} (l : list (string * A)) : list (string * A) :=
  fold_right insert_sorted [] l.

(** Nearest integer, ties to even. *)
Definition round_half_even (q : Q) : Z :=
  let n := Qnum q in
  let d := Zpos (Qden q) in
  let fl := (n / d)%Z in
  let r := (n mod d)%Z in
  if (2 * r <? d)%Z then fl
  else if (d <? 2 * r)%Z then (fl + 1)%Z
  else if Z.even fl then fl else (fl + 1)%Z.

(** [round(x, 4)] *)
Definition py_round4 (x : Q) : Q :=
  Qred (Qmake (round_half_even (x * 10000)) 10000).

(** ** Task paths *)

(** [s.split('/')] *)
Fixpoint split_slash (s : string) : list string :=
  match s with
  | EmptyString => [EmptyString]
  | String c s' =>
      if Ascii.eqb c "/"%char then EmptyString :: split_slash s'
      else match split_slash s' with
           | [] => [String c EmptyString]
           | w :: ws => String c w :: ws
           end
  end.

(** ['/'.join(parts)] *)
Fixpoint join_slash (parts : list string) : string :=
  match parts with
  | [] => EmptyString
  | [p] => p
  | p :: ps => p ++ "/" ++ join_slash ps
  end.

(** The hierarchies visited by
    [for depth in range(1, len(parts) + 1): '/'.join(parts[:depth])]. *)
Definition hierarchies (parts : list string) : list string :=
  List.map (fun depth => join_slash (firstn depth parts))
    (seq 1 (length parts)).

(** ** Statistics table of the aggregator

    [stats = defaultdict(lambda: defaultdict(lambda: [0.0, 0]))] *)

Definition cell : Type := (Q * Z)%type.
Definition metric_table : Type := list (string * cell).
Definition stats_table : Type := list (string * metric_table).

Fixpoint assoc_get {A : Type} (dflt : A) (k : string) (l : list (string * A)) : A :=
  match l with
  | [] => dflt
  | (k', v) :: l' => if String.eqb k k' then v else assoc_get dflt k l'
  end.

(** [l[k] = f(l[k])] on a defaultdict with default [dflt]. *)
Fixpoint assoc_update {A : Type} (dflt : A) (f : A -> A) (k : string)
    (l : list (string * A)) : list (string * A) :=
  match l with
  | [] => [(k, f dflt)]
  | (k', v) :: l' =>
      if String.eqb k k' then (k', f v) :: l'
      else (k', v) :: assoc_update dflt f k l'
  end.

Definition stat_get (hierarchy metric : string) (stats : stats_table) : cell :=
  assoc_get (0%Q, 0%Z) metric (assoc_get [] hierarchy stats).

(** [stats[h][m][0] += value; stats[h][m][1] += 1] *)
Definition bump (hierarchy metric : string) (value : Q) (stats : stats_table)
    : stats_table :=
  assoc_update []
    (assoc_update (0%Q, 0%Z) (fun c => ((fst c + value)%Q, (snd c + 1)%Z)) metric)
    hierarchy stats.

(** [if isinstance(value, (int, float)): ...bump...] *)
Definition bump_if_number (hierarchy metric : string) (value : json)
    (stats : stats_table) : stats_table :=
  if is_number value then bump hierarchy metric (num_value value) stats
  else stats.

(** ** The pipeline's methods *)

Section PipelineMethods.

Variable H : host.
Variable P : Pipeline.

(** *** Utility: [_safe_rewrite_file] *)

(** The [except] clause of [_safe_rewrite_file]:
    [if os.path.exists(temp_file): try: os.remove(temp_file) except OSError: pass] *)
Definition remove_temp (temp_file : string) (fs : fsys) : fsys :=
  if exists_file fs temp_file then
    if remove_fails (faults H) temp_file then fs else delete temp_file fs
  else fs.

(** What is written into the temporary file; [None] is the [TypeError] raised
    when JSON Lines output is asked for data that is not a list. *)
Definition serialized (data : json) (is_json_report : bool) : option content :=
  if is_json_report then Some (Document data)
  else match data with
       | JArr items => Some (Lines (jsonl_of items))
       | _ => None
       end.

(** A write that fails part-way leaves a truncated temporary file, shown
    here as the empty file that [open(temp_file, 'w')] created. *)
Definition _safe_rewrite_file (data : json) (target_file : string)
    (is_json_report : bool) (fs : fsys) : fsys * outcome :=
  let temp_file := target_file ++ ".tmp_rewrite" in
  if open_fails (faults H) temp_file then (remove_temp temp_file fs, Raised)
  else
    let fs1 := <[temp_file := Lines []]> fs in
    match serialized data is_json_report with
    | None => (remove_temp temp_file fs1, Raised)
    | Some c =>
        if write_fails (faults H) temp_file then (remove_temp temp_file fs1, Raised)
        else
          let fs2 := <[temp_file := c]> fs1 in
          if move_fails (faults H) target_file
          then (remove_temp temp_file fs2, Raised)
          else (<[target_file := c]> (delete temp_file fs2), Done)
    end.

(** *** Inference: loader, log append, merge *)

(** Reading one file into the loader state; [None] is the critical read
    error, and a missing file contributes nothing. *)
Definition read_into (parse : load_state -> line -> load_state)
    (path : string) (fs : fsys) (st : load_state) : option load_state :=
  match fs !! path with
  | None => Some st
  | Some c =>
      if read_fails (faults H) path then None
      else Some (replay parse (file_lines c) st)
  end.

Definition _load_and_prepare_inference_tasks (fs : fsys)
    : option (items_map * list obj) :=
  st1 ← read_into _parse_infer (output_file P) fs ([], []);
  st2 ← read_into _parse_infer (log_file P) fs st1;
  match fst st2 with
  | [] => if exists_file fs (output_file P) then Some (fst st2, infer_tasks st2)
          else None
  | _ => Some (fst st2, infer_tasks st2)
  end.

(** [with open(path, 'a') as f: f.write(json_string + "\n")], the exception
    being swallowed by the caller. *)
Definition append_line (path : string) (item : obj) (fs : fsys) : fsys :=
  if append_fails (faults H) path then fs
  else
    let old := match fs !! path with Some c => file_lines c | None => [] end in
    <[path := Lines (old ++ [Row (JObj item)])]> fs.

Definition _append_to_infer_log (item : obj) (fs : fsys) : fsys :=
  let item_id := dget "sample_id" item in
  if negb (truthy item_id) then fs
  else append_line (log_file P) item fs.

(** Shared body of the two merge methods, for the stage's log path. *)
Definition merge_log_to_main (log : string) (final_items_map : items_map)
    (fs : fsys) : fsys :=
  match final_items_map with
  | [] => fs
  | _ =>
      match _safe_rewrite_file
              (JArr (List.map JObj (map_values final_items_map)))
              (output_file P) false fs with
      | (fs', Done) =>
          if exists_file fs' log then
            if remove_fails (faults H) log then fs' else delete log fs'
          else fs'
      | (fs', Raised) => fs'
      end
  end.

Definition _merge_infer_log_to_main (final_items_map : items_map) (fs : fsys)
    : fsys :=
  merge_log_to_main (log_file P) final_items_map fs.

(** *** Inference: worker and executor *)

(** [self.task_runners.get(task_path)] for a truthy [task_path]. *)
Definition get_runner (task_path : json) : result (option TaskRunner) :=
  match task_path with
  | JStr p => Ok (task_runners P !! p)
  | JArr _ | JObj _ =>
      Raise "TypeError" ("unhashable type: '" ++ py_type H task_path ++ "'")
  | _ => Ok None
  end.

(** The statements of both workers up to the runner lookup. *)
Definition find_runner (item_copy : obj) : result TaskRunner :=
  match dget_default "task_config" (JObj []) item_copy with
  | JObj tc =>
      let task_path := dget "task_path" tc in
      if negb (truthy task_path)
      then Raise "ValueError" "Missing 'task_config.task_path'"
      else match get_runner task_path with
           | Raise ty msg => Raise ty msg
           | Ok None =>
               Raise "ValueError"
                 ("TaskRunner not found for path '" ++ py_str H task_path ++ "'")
           | Ok (Some task_runner) => Ok task_runner
           end
  | v => Raise "AttributeError"
           ("'" ++ py_type H v ++ "' object has no attribute 'get'")
  end.

(** The [try] block of [_infer_worker]. *)
Definition infer_try (item_copy : obj) : result obj :=
  match find_runner item_copy with
  | Raise ty msg => Raise ty msg
  | Ok task_runner =>
      let prompt := dget "prompt" item_copy in
      match prompt with
      | JNull => Raise "ValueError" "Missing 'prompt'"
      | _ =>
          if eq_str prompt "ERROR: Prompt generation failed"
          then Ok (dset "answer"
                     (JStr "ERROR: Skipped due to prompt generation failure")
                     item_copy)
          else
            let eval_args := dget_default "eval_args" (JObj []) item_copy in
            match call_api task_runner prompt eval_args with
            | Ok response => Ok (dset "answer" response item_copy)
            | Raise ty msg => Raise ty msg
            end
      end
  end.

Definition _infer_worker (item_data : obj) : obj :=
  let item_copy := item_data in
  let item_id := dget_default "sample_id" (JStr "UNKNOWN_ID") item_copy in
  let after_try :=
    match infer_try item_copy with
    | Ok it => it
    | Raise ty msg =>
        let error_msg :=
          "ERROR: API call failed for item " ++ py_str H item_id ++ " - "
            ++ ty ++ ": " ++ msg in
        dset "answer" (JStr error_msg) item_copy
    end in
  dset "inference_duration_sec" (JNum (infer_elapsed H item_data)) after_try.

(** The loop over [as_completed(futures)] of an uninterrupted run, on the
    tasks in completion order.  The boolean is [run_successful]: updating the
    map under an unhashable id raises, and raises again in the handler, which
    ends the loop. *)
Fixpoint infer_drain (completed : list obj) (m : items_map) (fs : fsys)
    : items_map * fsys * bool :=
  match completed with
  | [] => (m, fs, true)
  | task :: rest =>
      let item_id := dget "sample_id" task in
      let processed_item := _infer_worker task in
      let fs1 := _append_to_infer_log processed_item fs in
      if truthy item_id then
        match key_of item_id with
        | Some k => infer_drain rest (map_set k processed_item m) fs1
        | None => (m, fs1, false)
        end
      else infer_drain rest m fs1
  end.

Definition run_inference_multithread (fs : fsys) : fsys :=
  match _load_and_prepare_inference_tasks fs with
  | None => fs
  | Some (m, tasks_to_process) =>
      match tasks_to_process with
      | [] =>
          if exists_file fs (log_file P) then _merge_infer_log_to_main m fs
          else fs
      | _ =>
          let '(m', fs', run_successful) :=
            infer_drain (as_completed H tasks_to_process) m fs in
          if run_successful then _merge_infer_log_to_main m' fs' else fs'
      end
  end.

(** *** Evaluation: loader, log append, merge *)

Definition _load_for_evaluation (fs : fsys) : option (items_map * list obj) :=
  if negb (exists_file fs (output_file P)) then None
  else
    st1 ← read_into _parse_eval (output_file P) fs ([], []);
    st2 ← read_into _parse_eval (eval_log_file P) fs st1;
    Some (fst st2, eval_tasks st2).

Definition _append_to_eval_log (item : obj) (fs : fsys) : fsys :=
  let item_id := dget "sample_id" item in
  if negb (truthy item_id) then fs
  else append_line (eval_log_file P) item fs.

Definition _merge_eval_log_to_main (final_items_map : items_map) (fs : fsys)
    : fsys :=
  merge_log_to_main (eval_log_file P) final_items_map fs.

(** *** Evaluation: worker and executor *)

(** The [try] block of [_eval_worker]. *)
Definition eval_try (item_copy : obj) : result obj :=
  match find_runner item_copy with
  | Raise ty msg => Raise ty msg
  | Ok task_runner =>
      let answer := dget "answer" item_copy in
      match evaluate_response task_runner answer item_copy with
      | Ok eval_result => Ok (dset "evaluation_results" eval_result item_copy)
      | Raise ty msg => Raise ty msg
      end
  end.

Definition _eval_worker (item_data : obj) : obj :=
  let item_copy := item_data in
  let item_id := dget_default "sample_id" (JStr "UNKNOWN_ID") item_copy in
  let after_try :=
    match eval_try item_copy with
    | Ok it => it
    | Raise ty msg =>
        let error_msg :=
          "ERROR: Evaluation failed for item " ++ py_str H item_id ++ " - "
            ++ ty ++ ": " ++ msg in
        dset "evaluation_results" (JObj [("error", JStr error_msg)]) item_copy
    end in
  dset "evaluation_duration_sec" (JNum (eval_elapsed H item_data)) after_try.

Fixpoint eval_drain (completed : list obj) (m : items_map) (fs : fsys)
    : items_map * fsys * bool :=
  match completed with
  | [] => (m, fs, true)
  | task :: rest =>
      let item_id := dget "sample_id" task in
      let processed_item := _eval_worker task in
      let fs1 := _append_to_eval_log processed_item fs in
      if truthy item_id then
        match key_of item_id with
        | Some k => eval_drain rest (map_set k processed_item m) fs1
        | None => (m, fs1, false)
        end
      else eval_drain rest m fs1
  end.

(** The pre-check of [evaluate_and_save]: the file system as the check left
    it, and [false] when evaluation is aborted. *)
Definition pre_evaluation_merge (fs : fsys) : fsys * bool :=
  if exists_file fs (log_file P) then
    match _load_and_prepare_inference_tasks fs with
    | None => (fs, false)
    | Some (infer_map, _) =>
        let fs1 := _merge_infer_log_to_main infer_map fs in
        if exists_file fs1 (log_file P) then (fs1, false) else (fs1, true)
    end
  else (fs, true).

(** Steps "1. Load state" to "4. Final Merge" of [evaluate_and_save]. *)
Definition evaluate_loaded (fs : fsys) : fsys :=
  match _load_for_evaluation fs with
  | None => fs
  | Some (m, tasks_to_evaluate) =>
      match tasks_to_evaluate with
      | [] =>
          if exists_file fs (eval_log_file P) then _merge_eval_log_to_main m fs
          else fs
      | _ =>
          let '(m', fs', run_successful) :=
            eval_drain (as_completed H tasks_to_evaluate) m fs in
          if run_successful then _merge_eval_log_to_main m' fs' else fs'
      end
  end.

Definition evaluate_and_save (fs : fsys) : fsys :=
  match pre_evaluation_merge fs with
  | (fs1, false) => fs1
  | (fs1, true) => evaluate_loaded fs1
  end.

End PipelineMethods.

(** ** Analysis and the whole run *)

Section AnalysisAndRun.

Variable H : host.
Variable P : Pipeline.

(** The two inner loops of the aggregator for one [hierarchy]. *)
Definition accumulate (metrics_to_collect : list string) (eval_results : obj)
    (inference_duration evaluation_duration : json)
    (stats : stats_table) (hierarchy : string) : stats_table :=
  let s1 :=
    fold_left
      (fun s metric => bump_if_number hierarchy metric (dget metric eval_results) s)
      metrics_to_collect stats in
  let s2 := bump_if_number hierarchy "inference_duration_sec" inference_duration s1 in
  bump_if_number hierarchy "evaluation_duration_sec" evaluation_duration s2.

(** The guards of the loop body: the evaluation results, the task path parts
    and the metrics of a line that contributes to the statistics, [None] for
    a line that is skipped ([continue], or an exception caught per line). *)
Definition contributing (ln : line) : option (obj * list string * list string) :=
  match ln with
  | Row (JObj item) =>
      match dget "evaluation_results" item with
      | JObj eval_results =>
          if truthy (dget "error" eval_results) then None
          else
            match dget_default "task" (JStr "") item with
            | JStr task_full_path =>
                if negb (String.prefix "longeval/" task_full_path) then None
                else
                  match tl (split_slash task_full_path) with
                  | [] => None
                  | task_name :: rest =>
                      match TaskFactory_tasks P !! task_name with
                      | None => None
                      | Some [] => None
                      | Some metrics_to_collect =>
                          Some (eval_results, task_name :: rest, metrics_to_collect)
                      end
                  end
            | _ => None
            end
      | _ => None
      end
  | _ => None
  end.

(** One iteration of [for line in f] on [(stats, items_processed,
    items_analyzed)]. *)
Definition analyze_line (st : stats_table * nat * nat) (ln : line)
    : stats_table * nat * nat :=
  let '(stats, items_processed, items_analyzed) := st in
  match ln with
  | Blank => st
  | _ =>
      match contributing ln, ln with
      | Some (eval_results, task_path_parts, metrics_to_collect), Row (JObj item) =>
          let inference_duration := dget "inference_duration_sec" item in
          let evaluation_duration := dget "evaluation_duration_sec" item in
          (fold_left
             (accumulate metrics_to_collect eval_results
                inference_duration evaluation_duration)
             (hierarchies task_path_parts) stats,
           S items_processed, S items_analyzed)
      | _, _ => (stats, S items_processed, items_analyzed)
      end
  end.

Definition collect_stats (ls : list line) : stats_table * nat * nat :=
  fold_left analyze_line ls ([], 0, 0).

(** [{'average': round(total / count, 4), 'samples': count}] *)
Definition report_cell (c : cell) : json :=
  JObj [("average", JNum (py_round4 (fst c / inject_Z (snd c))));
        ("samples", JNum (inject_Z (snd c)))].

(** The report built from the sorted statistics. *)
Definition make_report (stats : stats_table) : json :=
  JObj
    (List.map
       (fun hm : string * metric_table =>
          (fst hm,
           JObj (List.map (fun mc : string * cell => (fst mc, report_cell (snd mc)))
                   (List.filter (fun mc : string * cell => (0 <? snd (snd mc))%Z)
                      (sorted_items (snd hm))))))
       (sorted_items stats)).

Definition analyze_hierarchical_metrics (fs : fsys) : fsys :=
  if exists_file fs (log_file P) || exists_file fs (eval_log_file P) then fs
  else
    match fs !! output_file P with
    | None => fs
    | Some c =>
        if read_fails (faults H) (output_file P) then fs
        else
          let '(stats, items_processed, items_analyzed) :=
            collect_stats (file_lines c) in
          match items_processed, items_analyzed with
          | O, _ => fs
          | _, O => fs
          | _, _ =>
              fst (_safe_rewrite_file H (make_report stats)
                     (report_filepath P) true fs)
          end
    end.

(** *** Prompt generation *)

(** [generate_unique_id(task_path, i)] is [f"{task_path}_{i}"]. *)
Definition generate_unique_id (task_path : string) (sample_index : nat) : string :=
  task_path ++ "_" ++ pretty sample_index.

Definition initial_item (cfg : task_config) (i : nat) : obj :=
  [("sample_id", JStr (generate_unique_id (task_path cfg) i));
   ("prompt", JNull);
   ("metadata", JNull);
   ("answer", JNull);
   ("evaluation_results", JNull);
   ("task", JStr ("longeval/" ++ task_path cfg));
   ("source", JStr "longeval");
   ("eval_args", dget_default "params" (JObj []) (model_config P));
   ("task_config", JObj (config_dict cfg))].

Definition prompted_item (task_runner : TaskRunner) (cfg : task_config) (i : nat)
    : obj :=
  let data_item := initial_item cfg i in
  match generate_prompt task_runner data_item with
  | Ok (prompt, metadata) =>
      dset "metadata" metadata (dset "prompt" prompt data_item)
  | Raise _ msg =>
      dset "metadata" (JObj [("error", JStr msg)])
        (dset "prompt" (JStr "ERROR: Prompt generation failed") data_item)
  end.

Definition generated_data : list obj :=
  flat_map
    (fun cfg =>
       match task_runners P !! task_path cfg with
       | None => []
       | Some task_runner =>
           List.map (prompted_item task_runner cfg) (seq 0 (sample_num cfg))
       end)
    (task_configs P).

(** The returned list and the file system after the call. *)
Definition generate_prompts (fs : fsys) : list obj * fsys :=
  if exists_file fs (output_file P) then ([], fs)
  else if exists_file fs (log_file P) || exists_file fs (eval_log_file P)
  then ([], fs)
  else
    let data := generated_data in
    match _safe_rewrite_file H (JArr (List.map JObj data)) (output_file P) false fs with
    | (fs', Done) => (data, fs')
    | (fs', Raised) => ([], fs')
    end.

Definition run_all (fs : fsys) : fsys :=
  let fs1 := snd (generate_prompts fs) in
  if negb (exists_file fs1 (output_file P)) && negb (exists_file fs1 (log_file P))
  then fs1
  else
    let fs2 := run_inference_multithread H P fs1 in
    let fs3 := evaluate_and_save H P fs2 in
    analyze_hierarchical_metrics fs3.

End AnalysisAndRun.

(** ** Vocabulary of the statements

    Readings of file contents that the theorems compare the loaders with. *)

(** The record a line contributes to a loader, under the key of its
    [sample_id]; [None] for a line every loader skips. *)
Definition line_record (ln : line) : option (key * obj) :=
  match ln with
  | Row (JObj item) =>
      match key_of (dget "sample_id" item) with
      | Some k => Some (k, item)
      | None => None
      end
  | _ => None
  end.

(** The record of the last line of [ls] filed under [k]. *)
Fixpoint last_record (k : key) (ls : list line) : option obj :=
  match ls with
  | [] => None
  | ln :: ls' =>
      match last_record k ls' with
      | Some r => Some r
      | None =>
          match line_record ln with
          | Some (k', r) => if decide (k = k') then Some r else None
          | None => None
          end
      end
  end.

(** The lines of the file at [path]; none when the file is missing. *)
Definition lines_at (fs : fsys) (path : string) : list line :=
  match fs !! path with Some c => file_lines c | None => [] end.

(** What [_parse_eval] keeps of a line for an id already in the map: only
    its [evaluation_results], when the line has that key. *)
Definition absorb_eval (old item : obj) : obj :=
  if dmem "evaluation_results" item
  then dset "evaluation_results" (dget "evaluation_results" item) old
  else old.

(** All records of [ls] filed under [k], in file order. *)
Definition records_for (k : key) (ls : list line) : list obj :=
  flat_map
    (fun ln =>
       match line_record ln with
       | Some (k', r) => if decide (k = k') then [r] else []
       | None => []
       end) ls.

(** The last record of [rs] that has an [evaluation_results] key. *)
Fixpoint last_with_eval (rs : list obj) : option obj :=
  match rs with
  | [] => None
  | r :: rs' =>
      match last_with_eval rs' with
      | Some x => Some x
      | None => if dmem "evaluation_results" r then Some r else None
      end
  end.

(** The first record, with the [evaluation_results] of the last later
    record that has one. *)
Definition eval_view (rs : list obj) : option obj :=
  match rs with
  | [] => None
  | first :: later =>
      Some (match last_with_eval later with
            | Some r =>
                dset "evaluation_results" (dget "evaluation_results" r) first
            | None => first
            end)
  end.

Definition eval_entry (st : load_state) (k : key) (item : obj) : obj :=
  match map_get k (fst st) with
  | Some old => absorb_eval old item
  | None => item
  end.

(** Invariant of the inference replay: keys are unique and [processed_ids]
    holds exactly the ids whose current record is validly answered. *)
Definition infer_inv (st : load_state) : Prop :=
  List.NoDup (List.map fst (fst st)) /\
  forall k, set_mem k (snd st) =
            match map_get k (fst st) with
            | Some item => is_valid_answer (dget "answer" item)
            | None => false
            end.

(** Invariant of the evaluation replay, with [evaluated_ids]. *)
Definition eval_inv (st : load_state) : Prop :=
  List.NoDup (List.map fst (fst st)) /\
  forall k, set_mem k (snd st) =
            match map_get k (fst st) with
            | Some item => is_valid_eval (dget "evaluation_results" item)
            | None => false
            end.

(** Every record of the map carries the identifier it is filed under. *)
Definition keyed (st : load_state) : Prop :=
  forall k item, map_get k (fst st) = Some item ->
                 key_of (dget "sample_id" item) = Some k.

(** The loader states after the store and the stage log were replayed. *)
Definition infer_replayed (P : Pipeline) (fs : fsys) : load_state :=
  replay _parse_infer (lines_at fs (log_file P))
    (replay _parse_infer (lines_at fs (output_file P)) ([], [])).

Definition eval_replayed (P : Pipeline) (fs : fsys) : load_state :=
  replay _parse_eval (lines_at fs (eval_log_file P))
    (replay _parse_eval (lines_at fs (output_file P)) ([], [])).

(** [isinstance(v, dict)] with a truthy [v.get("sample_id")]. *)
Definition has_sample_id (v : json) : bool :=
  match v with
  | JObj item => truthy (dget "sample_id" item)
  | _ => false
  end.

(** The rewrite of the store that both merge methods perform. *)
Definition store_rewrite (H : host) (P : Pipeline) (m : items_map) (fs : fsys)
    : fsys * outcome :=
  _safe_rewrite_file H (JArr (List.map JObj (map_values m))) (output_file P)
    false fs.

(** A line of a store left by a run in which every record was answered and
    evaluated: the record it contributes, if any, is validly answered and
    validly evaluated. *)
Definition settled_line (ln : line) : Prop :=
  forall k item,
    line_record ln = Some (k, item) ->
    is_valid_answer (dget "answer" item) = true /\
    is_valid_eval (dget "evaluation_results" item) = true.

(** [c[0] += v; c[1] += 1] when [v] is a number, on one [(sum, count)]. *)
Definition add_value (v : json) (c : cell) : cell :=
  if is_number v then ((fst c + num_value v)%Q, (snd c + 1)%Z) else c.

(** What one visit of a hierarchy does to its cell for the name [metric]:
    the registered metrics in order, then the two timing fields. *)
Definition cell_step (metrics_to_collect : list string) (eval_results : obj)
    (inference_duration evaluation_duration : json) (metric : string)
    (c : cell) : cell :=
  let c1 :=
    fold_left
      (fun c name =>
         if String.eqb name metric then add_value (dget name eval_results) c
         else c)
      metrics_to_collect c in
  let c2 :=
    if String.eqb "inference_duration_sec" metric
    then add_value inference_duration c1 else c1 in
  if String.eqb "evaluation_duration_sec" metric
  then add_value evaluation_duration c2 else c2.

(** ** A run in which nothing fails *)

(** No I/O operation raises. *)
Definition fault_free (f : io_faults) : Prop :=
  forall p,
    read_fails f p = false /\ open_fails f p = false /\
    write_fails f p = false /\ move_fails f p = false /\
    remove_fails f p = false /\ append_fails f p = false.

(** A runner whose three calls return, with a usable prompt, a valid answer
    and a valid evaluation. *)
Definition reliable (r : TaskRunner) : Prop :=
  (forall d, exists p metadata,
     generate_prompt r d = Ok (JStr p, metadata) /\
     String.eqb p "ERROR: Prompt generation failed" = false) /\
  (forall prompt eval_args, exists answer,
     call_api r prompt eval_args = Ok answer /\ is_valid_answer answer = true) /\
  (forall answer item, exists eval_result,
     evaluate_response r answer item = Ok eval_result /\
     is_valid_eval eval_result = true).

(** Every configured task that has a runner has a reliable one, and its
    dict names its own non-empty path. *)
Definition well_configured (P : Pipeline) : Prop :=
  forall cfg r,
    In cfg (task_configs P) ->
    task_runners P !! task_path cfg = Some r ->
    reliable r /\
    dget "task_path" (config_dict cfg) = JStr (task_path cfg) /\
    task_path cfg <> "".

(** The report and its temporary file are not the store or a stage log. *)
Definition report_apart (P : Pipeline) : Prop :=
  forall p,
    In p [output_file P; log_file P; eval_log_file P] ->
    report_filepath P <> p /\ report_filepath P ++ ".tmp_rewrite" <> p.

(** The workers find a reliable runner for the record. *)
Definition runnable (H : host) (P : Pipeline) (item : obj) : Prop :=
  exists r, find_runner H P item = Ok r /\ reliable r.

(** A record as prompt generation leaves it. *)
Definition fresh (H : host) (P : Pipeline) (item : obj) : Prop :=
  (exists k, key_of (dget "sample_id" item) = Some k) /\
  dget "answer" item = JNull /\
  (exists p, dget "prompt" item = JStr p /\
             String.eqb p "ERROR: Prompt generation failed" = false) /\
  dget "evaluation_results" item = JNull /\
  runnable H P item.

(** A record as a successful inference leaves it. *)
Definition answered (H : host) (P : Pipeline) (item : obj) : Prop :=
  (exists k, key_of (dget "sample_id" item) = Some k) /\
  is_valid_answer (dget "answer" item) = true /\
  dget "evaluation_results" item = JNull /\
  runnable H P item.

(** A record as a successful evaluation leaves it. *)
Definition evaluated (item : obj) : Prop :=
  (exists k, key_of (dget "sample_id" item) = Some k) /\
  is_valid_answer (dget "answer" item) = true /\
  is_valid_eval (dget "evaluation_results" item) = true.

(** The store holds exactly the records [vs], all satisfying [Q], and no
    stage log exists. *)
Definition store_of (P : Pipeline) (Q : obj -> Prop) (fs : fsys) : Prop :=
  exists vs,
    fs !! output_file P = Some (Lines (List.map (fun o => Row (JObj o)) vs)) /\
    List.Forall Q vs /\
    fs !! log_file P = None /\
    fs !! eval_log_file P = None.

(** ** Task classes, the task factory and the construction of the pipeline

    [core/tasks/base_task.py], [core/runner.py], [Pipeline.__init__] and the
    preparation of the task configurations in [main.py]. *)

(** A task object, as the runner calls its two abstract methods. *)
Record BaseTask : Type := {
  task_generate_prompt : obj -> result (json * json);
  task_evaluate : json -> obj -> result json
}.

(** A task class: [__name__], the class attribute [registered_metrics] and
    what calling the class on a config does. *)
Record task_class : Type := {
  class_name : string;
  registered_metrics : list string;
  class_call : obj -> result BaseTask
}.

(** [BaseTask.__init__]: raises when the class left [registered_metrics]
    empty. *)
Definition BaseTask_init (name : string) (metrics : list string) : result unit :=
  match metrics with
  | [] =>
      Raise "NotImplementedError"
        ("Task class " ++ name ++ " must define registered_metrics")
  | _ => Ok tt
  end.

(** A subclass whose [__init__] starts with [super().__init__(config)] and
    goes on with [rest]. *)
Definition subclass (name : string) (metrics : list string)
    (rest : obj -> result BaseTask) : task_class :=
  {| class_name := name;
     registered_metrics := metrics;
     class_call := fun config =>
       match BaseTask_init name metrics with
       | Raise ty msg => Raise ty msg
       | Ok _ => rest config
       end |}.

(** [TaskFactory._tasks], a dict from task names to classes. *)
Definition task_registry : Type := list (string * task_class).

(** [cls._tasks.get(task_name)] for a string. *)
Fixpoint registry_get (task_name : string) (tasks : task_registry)
    : option task_class :=
  match tasks with
  | [] => None
  | (n, c) :: tasks' =>
      if String.eqb task_name n then Some c else registry_get task_name tasks'
  end.

(** [TaskFactory.register_task]: [cls._tasks[task_name] = task_class] *)
Fixpoint register_task (task_name : string) (cls : task_class)
    (tasks : task_registry) : task_registry :=
  match tasks with
  | [] => [(task_name, cls)]
  | (n, c) :: tasks' =>
      if String.eqb task_name n then (n, cls) :: tasks'
      else (n, c) :: register_task task_name cls tasks'
  end.

(** [d.update(other)] *)
Definition dupdate (d other : obj) : obj :=
  fold_left (fun acc kv => dset (fst kv) (snd kv) acc) other d.

(** [task_path.split("/")[0]] *)
Definition main_task_name (task_path : string) : string :=
  hd "" (split_slash task_path).

Section Construction.

Variable H : host.

(** [core.serve.unified_api.unified_call(backend, model, prompt, **eval_args)] *)
Variable unified_call : json -> json -> json -> json -> result json.

(** [TaskFactory.create_task].  The registered names are strings, so a name
    of another hashable type is found in no registry. *)
Definition create_task (tasks : task_registry) (task_name : json) (config : obj)
    : result BaseTask :=
  match task_name with
  | JArr _ | JObj _ =>
      Raise "TypeError" ("unhashable type: '" ++ py_type H task_name ++ "'")
  | _ =>
      match match task_name with
            | JStr n => registry_get n tasks
            | _ => None
            end with
      | Some cls => class_call cls config
      | None =>
          Raise "ValueError"
            ("Unknown task type: " ++ py_str H task_name
               ++ ". Supported task types include: "
               ++ py_str H (JArr (List.map (fun nc => JStr (fst nc)) tasks)))
      end
  end.

(** [TaskRunner.__init__], giving the runner as the pipeline uses it:
    [call_api] hands the response of [unified_call] over. *)
Definition TaskRunner_init (tasks : task_registry) (task_config model_config : obj)
    : result TaskRunner :=
  if negb (dmem "task_name" task_config) then Raise "KeyError" "'task_name'"
  else
    match create_task tasks (dget "task_name" task_config)
            (dset "model_config" (JObj model_config) task_config) with
    | Raise ty msg => Raise ty msg
    | Ok task =>
        Ok {| generate_prompt := task_generate_prompt task;
              call_api := fun prompt eval_args =>
                unified_call (dget "backend" model_config)
                  (dget "model" model_config) prompt eval_args;
              evaluate_response := task_evaluate task |}
    end.

(** One iteration of the loop of [Pipeline.__init__] that fills
    [self.task_runners]; a constructor that raises is reported and skipped. *)
Definition init_step (tasks : task_registry) (model_config : obj)
    (runners : gmap string TaskRunner) (cfg : task_config)
    : gmap string TaskRunner :=
  match TaskRunner_init tasks (config_dict cfg) model_config with
  | Ok task_runner => <[task_path cfg := task_runner]> runners
  | Raise _ _ => runners
  end.

Definition init_task_runners (tasks : task_registry) (cfgs : list task_config)
    (model_config : obj) : gmap string TaskRunner :=
  fold_left (init_step tasks model_config) cfgs ∅.

(** The object built by [Pipeline(task_configs, model_config, output_file)]
    while [TaskFactory._tasks] is [tasks]; the report path is the one the
    analysis computes from [output_file] and the model name. *)
Definition Pipeline_init (tasks : task_registry) (cfgs : list task_config)
    (model_cfg : obj) (out report : string) : Pipeline :=
  {| task_configs := cfgs;
     model_config := model_cfg;
     output_file := out;
     task_runners := init_task_runners tasks cfgs model_cfg;
     TaskFactory_tasks :=
       list_to_map (List.map (fun nc => (fst nc, registered_metrics (snd nc))) tasks);
     report_filepath := report |}.

(** The body of the loop "Prepare task configurations" of [main.py], for a
    [task_info] whose [task_path] is a string and whose [args] is a
    mapping. *)
Definition prepare_task_config (tasks_config : obj) (selected_path : string)
    (args : obj) : result obj :=
  let task_name := main_task_name selected_path in
  match dget_default task_name (JObj []) tasks_config with
  | JObj common =>
      let task_args := dupdate common args in
      Ok (dset "task_name" (JStr task_name)
            (dset "task_path" (JStr selected_path) task_args))
  | JArr _ =>
      Raise "AttributeError" "'list' object has no attribute 'update'"
  | v =>
      Raise "AttributeError"
        ("'" ++ py_type H v ++ "' object has no attribute 'copy'")
  end.

End Construction.

(** ** Further vocabulary *)

(** The JSON Lines of a list of records. *)
Definition rows (vs : list obj) : list line :=
  List.map (fun o => Row (JObj o)) vs.

(** The key a record is filed under by the loaders. *)
Definition record_key (item : obj) : option key :=
  key_of (dget "sample_id" item).

(** The task of [completed] filed under [k] that completes last. *)
Fixpoint last_task (k : key) (completed : list obj) : option obj :=
  match completed with
  | [] => None
  | t :: rest =>
      match last_task k rest with
      | Some t' => Some t'
      | None => if decide (record_key t = Some k) then Some t else None
      end
  end.

(** The stage of a run touches only these files. *)
Definition inference_files (P : Pipeline) : list string :=
  [output_file P; output_file P ++ ".tmp_rewrite"; log_file P].

Definition evaluation_files (P : Pipeline) : list string :=
  inference_files P ++ [eval_log_file P].

Definition report_files (P : Pipeline) : list string :=
  [report_filepath P; report_filepath P ++ ".tmp_rewrite"].

(** The timing names the aggregator adds to the registered metrics. *)
Definition timing_metric (metric : string) : bool :=
  String.eqb metric "inference_duration_sec"
  || String.eqb metric "evaluation_duration_sec".

(** No table of the statistics has an entry for [metric]. *)
Definition metric_absent (metric : string) (stats : stats_table) : Prop :=
  forall h mt, In (h, mt) stats -> ~ In metric (List.map fst mt).

(** The character [c] does not occur in [s]. *)
Fixpoint free_of (c : ascii) (s : string) : bool :=
  match s with
  | EmptyString => true
  | String a s' => negb (Ascii.eqb a c) && free_of c s'
  end.

(** ** Hosts, pipelines and files of the examples *)

Definition no_faults : io_faults :=
  {| read_fails := fun _ => false;
     open_fails := fun _ => false;
     write_fails := fun _ => false;
     move_fails := fun _ => false;
     remove_fails := fun _ => false;
     append_fails := fun _ => false |}.

(** A host on which every [os.remove] raises [OSError]. *)
Definition sticky_faults : io_faults :=
  {| read_fails := fun _ => false;
     open_fails := fun _ => false;
     write_fails := fun _ => false;
     move_fails := fun _ => false;
     remove_fails := fun _ => true;
     append_fails := fun _ => false |}.

(** A host on which writing fails and the clean-up cannot remove. *)
Definition full_disk_faults : io_faults :=
  {| read_fails := fun _ => false;
     open_fails := fun _ => false;
     write_fails := fun _ => true;
     move_fails := fun _ => false;
     remove_fails := fun _ => true;
     append_fails := fun _ => false |}.

Definition host_with (f : io_faults) : host :=
  {| faults := f;
     py_str := fun v => match v with JStr s => s | _ => "?" end;
     py_type := fun _ => "object";
     infer_elapsed := fun _ => 3 # 2;
     eval_elapsed := fun _ => 1 # 4;
     as_completed := fun l => List.rev l |}.

Definition demo_host : host := host_with no_faults.

(** A runner whose API call raises on the prompt ["boom"]. *)
Definition demo_runner : TaskRunner :=
  {| generate_prompt := fun _ => Ok (JStr "say hi", JObj []);
     call_api := fun prompt _ =>
       if eq_str prompt "boom" then Raise "RuntimeError" "api down"
       else Ok (JStr "hi");
     evaluate_response := fun answer _ =>
       if eq_str answer "hi" then Ok (JObj [("score", JNum (4 # 5))])
       else Raise "ValueError" "cannot score" |}.

Definition demo_pipeline : Pipeline :=
  {| task_configs :=
       [ {| config_dict := [("task_path", JStr "a/b"); ("task_name", JStr "a")];
            task_path := "a/b";
            sample_num := 2 |} ];
     model_config := [("model", JStr "m")];
     output_file := "out.jsonl";
     task_runners := {[ "a/b" := demo_runner ]};
     TaskFactory_tasks := {[ "a" := ["score"] ]};
     report_filepath := "m_metric_report.json" |}.

(** A store line and a later evaluation-log line for the same record. *)
Definition resume_store_record : obj :=
  [("sample_id", JStr "s1"); ("prompt", JStr "p"); ("answer", JStr "A")].

Definition resume_log_record : obj :=
  [("sample_id", JStr "s1"); ("prompt", JStr "p"); ("answer", JStr "A");
   ("evaluation_results", JObj [("score", JNum 1)]);
   ("evaluation_duration_sec", JNum 2)].

Definition resume_merged_record : obj :=
  [("sample_id", JStr "s1"); ("prompt", JStr "p"); ("answer", JStr "A");
   ("evaluation_results", JObj [("score", JNum 1)])].

Definition resume_fs : fsys :=
  {[ "out.jsonl" := Lines [Row (JObj resume_store_record)];
     "out.jsonl.eval.log" := Lines [Row (JObj resume_log_record)] ]}.

(** A store with an unanswered record and the inference log of its answer. *)
Definition pending_store_record : obj :=
  [("sample_id", JStr "s1"); ("prompt", JStr "p"); ("answer", JNull)].

Definition pending_log_record : obj :=
  [("sample_id", JStr "s1"); ("prompt", JStr "p"); ("answer", JStr "A");
   ("inference_duration_sec", JNum (3 # 2))].

Definition pending_fs : fsys :=
  {[ "out.jsonl" := Lines [Row (JObj pending_store_record)];
     "out.jsonl.infer.log" := Lines [Row (JObj pending_log_record)] ]}.

(** Two evaluated records of the tasks [a/b] and [a/c]. *)
Definition scored_record (sample_id task : string) (score : Q) : obj :=
  [("sample_id", JStr sample_id);
   ("task", JStr task);
   ("evaluation_results", JObj [("score", JNum score)])].

Definition ns_fs : fsys :=
  {[ "out.jsonl" :=
       Lines [Row (JObj (scored_record "s1" "ns/a/b" (8 # 10)));
              Row (JObj (scored_record "s2" "ns/a/c" (4 # 10)))] ]}.

Definition longeval_fs : fsys :=
  {[ "out.jsonl" :=
       Lines [Row (JObj (scored_record "s1" "longeval/a/b" (8 # 10)));
              Row (JObj (scored_record "s2" "longeval/a/c" (4 # 10)))] ]}.

(** A validly evaluated record and a record whose evaluation failed, both
    of the task [a/b], both with an inference duration. *)
Definition timed_ok_record : obj :=
  [("sample_id", JStr "s1");
   ("task", JStr "longeval/a/b");
   ("evaluation_results", JObj [("score", JNum (8 # 10))]);
   ("inference_duration_sec", JNum 2)].

Definition timed_failed_record : obj :=
  [("sample_id", JStr "s2");
   ("task", JStr "longeval/a/b");
   ("evaluation_results", JObj [("error", JStr "ERROR: Evaluation failed")]);
   ("inference_duration_sec", JNum 4);
   ("evaluation_duration_sec", JNum 1)].

Definition timed_fs : fsys :=
  {[ "out.jsonl" :=
       Lines [Row (JObj timed_ok_record); Row (JObj timed_failed_record)] ]}.

(** A store with one record that no stage has processed. *)
Definition unanswered_fs : fsys :=
  {[ "out.jsonl" := Lines [Row (JObj pending_store_record)] ]}.

(** Two pending records of the task [a/b]; the API call of the first
    raises. *)
Definition boom_record : obj :=
  [("sample_id", JStr "s1"); ("prompt", JStr "boom");
   ("task_config", JObj [("task_path", JStr "a/b")])].

Definition hello_record : obj :=
  [("sample_id", JStr "s2"); ("prompt", JStr "hello");
   ("task_config", JObj [("task_path", JStr "a/b")])].

Definition mixed_fs : fsys :=
  {[ "out.jsonl" := Lines [Row (JObj boom_record); Row (JObj hello_record)] ]}.

(** The files a first complete run leaves when it starts from nothing. *)
Definition first_run_fs : fsys := run_all demo_host demo_pipeline ∅.

(** A runner that never raises, and a pipeline on it. *)
Definition steady_runner : TaskRunner :=
  {| generate_prompt := fun _ => Ok (JStr "say hi", JObj []);
     call_api := fun _ _ => Ok (JStr "hi");
     evaluate_response := fun _ _ => Ok (JObj [("score", JNum (4 # 5))]) |}.

Definition steady_pipeline : Pipeline :=
  {| task_configs :=
       [ {| config_dict := [("task_path", JStr "a/b"); ("task_name", JStr "a")];
            task_path := "a/b";
            sample_num := 2 |} ];
     model_config := [("model", JStr "m")];
     output_file := "out.jsonl";
     task_runners := {[ "a/b" := steady_runner ]};
     TaskFactory_tasks := {[ "a" := ["score"] ]};
     report_filepath := "m_metric_report.json" |}.

(** ** Further hosts, runners and registries of the examples *)

(** A host on which the rename of the temporary file fails. *)
Definition stuck_move_faults : io_faults :=
  {| read_fails := fun _ => false;
     open_fails := fun _ => false;
     write_fails := fun _ => false;
     move_fails := fun _ => true;
     remove_fails := fun _ => false;
     append_fails := fun _ => false |}.

(** A runner whose prompt generation raises, and a pipeline on it. *)
Definition promptless_runner : TaskRunner :=
  {| generate_prompt := fun _ => Raise "KeyError" "'topic'";
     call_api := fun _ _ => Ok (JStr "hi");
     evaluate_response := fun _ _ => Ok (JObj [("score", JNum (4 # 5))]) |}.

Definition promptless_config : task_config :=
  {| config_dict := [("task_path", JStr "a/b"); ("task_name", JStr "a")];
     task_path := "a/b";
     sample_num := 1 |}.

Definition promptless_pipeline : Pipeline :=
  {| task_configs := [promptless_config];
     model_config := [("model", JStr "m")];
     output_file := "out.jsonl";
     task_runners := {[ "a/b" := promptless_runner ]};
     TaskFactory_tasks := {[ "a" := ["score"] ]};
     report_filepath := "m_metric_report.json" |}.

(** A pipeline none of whose tasks has a runner. *)
Definition idle_pipeline : Pipeline :=
  {| task_configs := [promptless_config];
     model_config := [("model", JStr "m")];
     output_file := "out.jsonl";
     task_runners := ∅;
     TaskFactory_tasks := {[ "a" := ["score"] ]};
     report_filepath := "m_metric_report.json" |}.

(** An inference log of one line that is not JSON, beside an empty store. *)
Definition garbage_log_fs : fsys :=
  {[ "out.jsonl" := Lines [];
     "out.jsonl.infer.log" := Lines [Garbage] ]}.

(** A task class with one metric, registered under the name [a]. *)
Definition demo_task : BaseTask :=
  {| task_generate_prompt := fun _ => Ok (JStr "say hi", JObj []);
     task_evaluate := fun _ _ => Ok (JObj [("score", JNum (4 # 5))]) |}.

Definition demo_class : task_class :=
  subclass "DemoTask" ["score"] (fun _ => Ok demo_task).

Definition demo_registry : task_registry := register_task "a" demo_class [].

Definition demo_unified_call (backend model prompt eval_args : json)
    : result json :=
  Ok (JStr "hi").

(** A configuration whose task name is not registered. *)
Definition stray_config : task_config :=
  {| config_dict := [("task_path", JStr "z/b"); ("task_name", JStr "z")];
     task_path := "z/b";
     sample_num := 1 |}.

(** The common arguments of the task [a] and the arguments of a selected
    task. *)
Definition demo_tasks_config : obj :=
  [("a", JObj [("sample_num", JNum 2); ("topic", JStr "x")])].

Definition demo_args : obj := [("topic", JStr "y")].

(** A store with one answered record that has not been evaluated. *)
Definition answered_fs : fsys :=
  {[ "out.jsonl" := Lines [Row (JObj resume_store_record)] ]}.

(** The configuration that [main.py] prepares for the path [a/b] from the
    examples' common and task-specific arguments. *)
Definition demo_prepared_config : obj :=
  [("sample_num", JNum 2); ("topic", JStr "y");
   ("task_path", JStr "a/b"); ("task_name", JStr "a")].

(** * The definitions on small inputs *)

Example split_slash_task :
  split_slash "longeval/a/b" = ["longeval"; "a"; "b"].
Proof. reflexivity. Qed.

Example split_slash_trailing : split_slash "longeval/" = ["longeval"; ""].
Proof. reflexivity. Qed.

Example hierarchies_two : hierarchies ["a"; "b"] = ["a"; "a/b"].
Proof. reflexivity. Qed.

Example round4_down : py_round4 (12344 # 100000) = 617 # 5000.
Proof. reflexivity. Qed.

Example round4_tie_to_even : py_round4 (12345 # 100000) = 617 # 5000.
Proof. reflexivity. Qed.

Example round4_tie_to_even_up : py_round4 (12355 # 100000) = 309 # 2500.
Proof. reflexivity. Qed.

Example key_of_true_is_one : key_of (JBool true) = key_of (JNum (2 # 2)).
Proof. reflexivity. Qed.

Example key_of_empty_string : key_of (JStr "") = None.
Proof. reflexivity. Qed.

Example key_of_list : key_of (JArr [JNum 1]) = None /\ truthy (JArr [JNum 1]) = true.
Proof. split; reflexivity. Qed.

Example valid_answers :
  is_valid_answer (JStr "hi") = true /\
  is_valid_answer (JStr "") = false /\
  is_valid_answer JNull = false /\
  is_valid_answer (JStr "ERROR: API call failed") = false /\
  is_valid_answer (JNum 0) = true.
Proof. repeat split; reflexivity. Qed.

Example valid_evaluations :
  is_valid_eval (JObj [("score", JNum 1)]) = true /\
  is_valid_eval (JObj [("error", JStr "boom")]) = false /\
  is_valid_eval (JObj [("error", JNull)]) = true /\
  is_valid_eval JNull = false.
Proof. repeat split; reflexivity. Qed.

Example dset_in_place :
  dset "b" (JNum 2) [("a", JNull); ("b", JNull); ("c", JNull)] =
    [("a", JNull); ("b", JNum 2); ("c", JNull)] /\
  dset "d" (JNum 2) [("a", JNull)] = [("a", JNull); ("d", JNum 2)].
Proof. split; reflexivity. Qed.

Example sorted_items_by_key :
  sorted_items [("b", 1%nat); ("a/b", 2%nat); ("a", 3%nat)] =
    [("a", 3%nat); ("a/b", 2%nat); ("b", 1%nat)].
Proof. reflexivity. Qed.

Example infer_worker_on_raise :
  _infer_worker demo_host demo_pipeline boom_record =
    [("sample_id", JStr "s1"); ("prompt", JStr "boom");
     ("task_config", JObj [("task_path", JStr "a/b")]);
     ("answer",
      JStr "ERROR: API call failed for item s1 - RuntimeError: api down");
     ("inference_duration_sec", JNum (3 # 2))].
Proof. vm_compute. reflexivity. Qed.

Example eval_worker_on_raise :
  _eval_worker demo_host demo_pipeline boom_record =
    [("sample_id", JStr "s1"); ("prompt", JStr "boom");
     ("task_config", JObj [("task_path", JStr "a/b")]);
     ("evaluation_results",
      JObj [("error",
             JStr "ERROR: Evaluation failed for item s1 - ValueError: cannot score")]);
     ("evaluation_duration_sec", JNum (1 # 4))].
Proof. vm_compute. reflexivity. Qed.

Example first_run_files :
  List.map fst (map_to_list first_run_fs) = ["out.jsonl"; "m_metric_report.json"] /\
  List.length (lines_at first_run_fs "out.jsonl") = 2%nat.
Proof. split; vm_compute; reflexivity. Qed.

(** * Facts about maps, replays and loaders *)

Section MapFacts.
Implicit Types (k : key) (v : obj) (m : items_map) (s : id_set).

Lemma map_get_set_eq k v m : map_get k (map_set k v m) = Some v.
Proof.
  induction m as [|[k' v'] m IH]; simpl.
  - destruct (decide (k = k)); congruence.
  - destruct (decide (k = k')) as [->|Hne]; simpl.
    + destruct (decide (k' = k')); congruence.
    + destruct (decide (k = k')); [congruence|exact IH].
Qed.

Lemma map_get_set_ne k k' v m :
  k <> k' -> map_get k' (map_set k v m) = map_get k' m.
Proof.
  intros Hne. induction m as [|[k0 v0] m IH]; simpl.
  - destruct (decide (k' = k)); congruence.
  - destruct (decide (k = k0)) as [->|Hk]; simpl.
    + destruct (decide (k' = k0)); congruence.
    + destruct (decide (k' = k0)); [reflexivity|exact IH].
Qed.

Lemma map_get_set k k' v m :
  map_get k' (map_set k v m) = if decide (k = k') then Some v else map_get k' m.
Proof.
  destruct (decide (k = k')) as [->|Hne].
  - apply map_get_set_eq.
  - by apply map_get_set_ne.
Qed.

Lemma map_set_keys k k' v m :
  In k' (List.map fst (map_set k v m)) <-> k' = k \/ In k' (List.map fst m).
Proof.
  induction m as [|[k0 v0] m IH]; simpl.
  - split; intros [Heq|[]]; left; congruence.
  - destruct (decide (k = k0)) as [->|Hk]; simpl.
    + split.
      * intros [Heq|Hin]; [right; left; exact Heq|right; right; exact Hin].
      * intros [Heq|[Heq|Hin]]; [left; congruence|left; exact Heq|right; exact Hin].
    + rewrite IH. split.
      * intros [Heq|[Heq|Hin]]; [right; left; exact Heq|left; exact Heq|right; right; exact Hin].
      * intros [Heq|[Heq|Hin]]; [right; left; exact Heq|left; exact Heq|right; right; exact Hin].
Qed.

Lemma map_set_nodup k v m :
  List.NoDup (List.map fst m) -> List.NoDup (List.map fst (map_set k v m)).
Proof.
  induction m as [|[k0 v0] m IH]; simpl; intros Hnd.
  - constructor; [intros []|constructor].
  - inversion Hnd as [|? ? Hnotin Hnd']; subst.
    destruct (decide (k = k0)) as [->|Hk]; simpl.
    + constructor; assumption.
    + constructor; [|auto].
      rewrite map_set_keys. intros [->|Hin]; [congruence|contradiction].
Qed.

Lemma map_get_In k v m :
  List.NoDup (List.map fst m) -> (In (k, v) m <-> map_get k m = Some v).
Proof.
  induction m as [|[k0 v0] m IH]; simpl; intros Hnd.
  - split; [intros []|discriminate].
  - inversion Hnd as [|? ? Hnotin Hnd']; subst.
    destruct (decide (k = k0)) as [->|Hk].
    + split.
      * intros [Heq|Hin]; [congruence|].
        exfalso. apply Hnotin. apply (in_map fst) in Hin. exact Hin.
      * intros [= ->]. by left.
    + rewrite <- (IH Hnd'). split; [intros [Heq|Hin]; [congruence|done]|by right].
Qed.

Lemma set_mem_add k k' s :
  set_mem k' (set_add k s) = bool_decide (k' = k) || set_mem k' s.
Proof.
  unfold set_add. destruct (set_mem k s) eqn:Hm; simpl; [|reflexivity].
  destruct (bool_decide (k' = k)) eqn:Hd; simpl; [|reflexivity].
  apply bool_decide_eq_true in Hd. by subst.
Qed.

Lemma set_mem_discard k k' s :
  set_mem k' (set_discard k s) = negb (bool_decide (k' = k)) && set_mem k' s.
Proof.
  unfold set_mem, set_discard. induction s as [|k0 s IH]; simpl.
  - by rewrite andb_false_r.
  - destruct (bool_decide (k = k0)) eqn:Hk0; simpl.
    + rewrite IH. apply bool_decide_eq_true in Hk0. subst k0.
      destruct (bool_decide (k' = k)) eqn:Hd; simpl; reflexivity.
    + rewrite IH. apply bool_decide_eq_false in Hk0.
      destruct (bool_decide (k' = k0)) eqn:Hd0; simpl.
      * apply bool_decide_eq_true in Hd0. subst k0.
        rewrite bool_decide_eq_false_2; [reflexivity|congruence].
      * reflexivity.
Qed.
End MapFacts.

Section InferReplay.
Implicit Types (k : key) (st : load_state) (ln : line) (ls : list line).

Lemma _parse_infer_record st ln :
  _parse_infer st ln =
    match line_record ln with
    | None => st
    | Some (k, item) =>
        (map_set k item (fst st),
         if is_valid_answer (dget "answer" item) then set_add k (snd st)
         else if set_mem k (snd st) then set_discard k (snd st) else snd st)
    end.
Proof.
  destruct ln as [| |v]; try reflexivity.
  destruct v; try reflexivity. simpl.
  destruct (key_of (dget "sample_id" o)); [|reflexivity].
  destruct (is_valid_answer _); [reflexivity|].
  destruct (set_mem _ _); reflexivity.
Qed.

Lemma replay_cons parse ln ls st :
  parse st Blank = st ->
  replay parse (ln :: ls) st = replay parse ls (parse st ln).
Proof. intros HB. unfold replay. simpl. destruct ln; congruence. Qed.

Lemma replay_app parse ls1 ls2 st :
  replay parse (ls1 ++ ls2) st = replay parse ls2 (replay parse ls1 st).
Proof. unfold replay. apply fold_left_app. Qed.

Lemma replay_infer_get k ls st :
  map_get k (fst (replay _parse_infer ls st)) =
    match last_record k ls with
    | Some r => Some r
    | None => map_get k (fst st)
    end.
Proof.
  revert st. induction ls as [|ln ls IH]; intros st; [reflexivity|].
  rewrite replay_cons by reflexivity. rewrite IH. simpl.
  destruct (last_record k ls); [reflexivity|].
  rewrite _parse_infer_record.
  destruct (line_record ln) as [[k' r]|]; [|reflexivity].
  simpl. rewrite map_get_set.
  destruct (decide (k' = k)) as [->|Hne].
  - destruct (decide (k = k)); congruence.
  - destruct (decide (k = k')); congruence.
Qed.

Lemma infer_inv_init : infer_inv ([], []).
Proof. split; [constructor|reflexivity]. Qed.

Lemma _parse_infer_inv st ln : infer_inv st -> infer_inv (_parse_infer st ln).
Proof.
  intros [Hnd Hset]. rewrite _parse_infer_record.
  destruct (line_record ln) as [[k r]|]; [|by split].
  split; simpl.
  - by apply map_set_nodup.
  - intros k'. rewrite map_get_set.
    destruct (decide (k = k')) as [<-|Hne].
    + destruct (is_valid_answer (dget "answer" r)) eqn:Hv.
      * rewrite set_mem_add. by rewrite bool_decide_eq_true_2.
      * destruct (set_mem k (snd st)) eqn:Hm; [|exact Hm].
        rewrite set_mem_discard. by rewrite bool_decide_eq_true_2.
    + rewrite <- Hset.
      assert (Hd : bool_decide (k' = k) = false)
        by (apply bool_decide_eq_false_2; congruence).
      destruct (is_valid_answer (dget "answer" r)).
      * rewrite set_mem_add, Hd. reflexivity.
      * destruct (set_mem k (snd st)); [|reflexivity].
        rewrite set_mem_discard, Hd. reflexivity.
Qed.

Lemma replay_preserves (I : load_state -> Prop) parse ls st :
  (forall st ln, I st -> I (parse st ln)) ->
  I st -> I (replay parse ls st).
Proof.
  intros Hstep. revert st. unfold replay.
  induction ls as [|ln ls IH]; intros st Hst; simpl; [exact Hst|].
  apply IH. destruct ln; auto.
Qed.

Lemma infer_tasks_spec st item :
  infer_inv st ->
  In item (infer_tasks st) <->
  exists k, map_get k (fst st) = Some item /\
            is_valid_answer (dget "answer" item) = false /\
            eq_str (dget "prompt" item) "ERROR: Prompt generation failed" = false.
Proof.
  intros [Hnd Hset]. unfold infer_tasks. rewrite in_map_iff. split.
  - intros [[k it] [Heq Hin]]. simpl in Heq. subst it.
    apply filter_In in Hin as [Hin Hf]. exists k.
    apply (map_get_In _ _ _ Hnd) in Hin. split; [exact Hin|].
    unfold needs_inference in Hf. rewrite Hset, Hin in Hf.
    destruct (is_valid_answer (dget "answer" item)); [discriminate|].
    simpl in Hf. split; [reflexivity|].
    destruct (is_error_answer (dget "answer" item)); simpl in Hf;
      by apply negb_true_iff in Hf.
  - intros (k & Hget & Hv & Hp). exists (k, item). split; [reflexivity|].
    apply filter_In. split; [by apply (map_get_In _ _ _ Hnd)|].
    unfold needs_inference. rewrite Hset, Hget, Hv, Hp. simpl.
    by destruct (is_error_answer (dget "answer" item)).
Qed.
End InferReplay.

Section DictFacts.
Implicit Types (k : string) (v : json) (d : obj).

Lemma dget_dset_eq k v d : dget k (dset k v d) = v.
Proof.
  induction d as [|[k0 v0] d IH]; simpl.
  - by rewrite String.eqb_refl.
  - destruct (String.eqb k k0) eqn:Hk; simpl; rewrite Hk; [reflexivity|exact IH].
Qed.

Lemma dget_dset_ne k k' v d : k <> k' -> dget k' (dset k v d) = dget k' d.
Proof.
  intros Hne. induction d as [|[k0 v0] d IH]; simpl.
  - destruct (String.eqb k' k) eqn:Hk; [|reflexivity].
    apply String.eqb_eq in Hk. congruence.
  - destruct (String.eqb k k0) eqn:Hk; simpl.
    + apply String.eqb_eq in Hk. subst k0.
      destruct (String.eqb k' k) eqn:Hk'; [|reflexivity].
      apply String.eqb_eq in Hk'. congruence.
    + destruct (String.eqb k' k0); [reflexivity|exact IH].
Qed.

Lemma dset_dset k v1 v2 d : dset k v2 (dset k v1 d) = dset k v2 d.
Proof.
  induction d as [|[k0 v0] d IH]; simpl.
  - by rewrite String.eqb_refl.
  - destruct (String.eqb k k0) eqn:Hk; simpl; rewrite Hk; [reflexivity|].
    by rewrite IH.
Qed.

End DictFacts.

Section EvalReplay.
Implicit Types (k : key) (st : load_state) (ln : line) (ls : list line).

Lemma _parse_eval_get st ln k' :
  map_get k' (fst (_parse_eval st ln)) =
    match line_record ln with
    | Some (k, item) =>
        if decide (k = k') then Some (eval_entry st k item)
        else map_get k' (fst st)
    | None => map_get k' (fst st)
    end.
Proof.
  destruct ln as [| |v]; try reflexivity.
  destruct v; try reflexivity. simpl.
  destruct (key_of (dget "sample_id" o)) as [k|]; [|reflexivity].
  unfold eval_entry, absorb_eval.
  set (m := match map_get k (fst st) with
            | Some old => _ | None => _ end).
  assert (Hm : map_get k' m =
               if decide (k = k')
               then Some match map_get k (fst st) with
                         | Some old =>
                             if dmem "evaluation_results" o
                             then dset "evaluation_results"
                                    (dget "evaluation_results" o) old
                             else old
                         | None => o
                         end
               else map_get k' (fst st)).
  { subst m. destruct (map_get k (fst st)) as [old|] eqn:Hold.
    - destruct (dmem "evaluation_results" o).
      + apply map_get_set.
      + destruct (decide (k = k')); congruence.
    - apply map_get_set. }
  destruct (is_valid_eval _); [exact Hm|].
  destruct (set_mem _ _); exact Hm.
Qed.

Lemma fold_absorb rs o :
  fold_left absorb_eval rs o =
    match last_with_eval rs with
    | Some r => dset "evaluation_results" (dget "evaluation_results" r) o
    | None => o
    end.
Proof.
  revert o. induction rs as [|r rs IH]; intros o; [reflexivity|].
  simpl. rewrite IH. destruct (last_with_eval rs).
  - unfold absorb_eval. destruct (dmem _ r); [apply dset_dset|reflexivity].
  - unfold absorb_eval. by destruct (dmem _ r).
Qed.

Lemma replay_eval_get k ls st :
  map_get k (fst (replay _parse_eval ls st)) =
    match map_get k (fst st) with
    | Some old => Some (fold_left absorb_eval (records_for k ls) old)
    | None =>
        match records_for k ls with
        | [] => None
        | first :: later => Some (fold_left absorb_eval later first)
        end
    end.
Proof.
  revert st. induction ls as [|ln ls IH]; intros st.
  - unfold replay, records_for. simpl. by destruct (map_get k (fst st)).
  - rewrite replay_cons by reflexivity. rewrite IH, _parse_eval_get.
    unfold records_for. simpl.
    destruct (line_record ln) as [[k' r]|]; [|reflexivity].
    destruct (decide (k' = k)) as [->|Hne].
    + destruct (decide (k = k)); [|congruence]. simpl.
      unfold eval_entry. by destruct (map_get k (fst st)).
    + destruct (decide (k = k')); [congruence|reflexivity].
Qed.

Lemma replay_eval_view k ls :
  map_get k (fst (replay _parse_eval ls ([], []))) = eval_view (records_for k ls).
Proof.
  rewrite replay_eval_get. simpl.
  destruct (records_for k ls); [reflexivity|].
  simpl. by rewrite fold_absorb.
Qed.
End EvalReplay.

Section EvalInvariant.
Implicit Types (k : key) (st : load_state) (ln : line) (ls : list line).

Lemma _parse_eval_record st ln :
  _parse_eval st ln =
    match line_record ln with
    | None => st
    | Some (k, item) =>
        let it := eval_entry st k item in
        (match map_get k (fst st) with
         | Some _ =>
             if dmem "evaluation_results" item then map_set k it (fst st)
             else fst st
         | None => map_set k it (fst st)
         end,
         if is_valid_eval (dget "evaluation_results" it)
         then set_add k (snd st)
         else if set_mem k (snd st) then set_discard k (snd st) else snd st)
    end.
Proof.
  destruct ln as [| |v]; try reflexivity.
  destruct v; try reflexivity. simpl.
  destruct (key_of (dget "sample_id" o)) as [k|]; [|reflexivity].
  unfold eval_entry, absorb_eval.
  destruct (map_get k (fst st)) as [old|] eqn:Hold.
  - destruct (dmem "evaluation_results" o).
    + rewrite map_get_set_eq.
      destruct (is_valid_eval _); [reflexivity|].
      by destruct (set_mem _ _).
    + rewrite Hold.
      destruct (is_valid_eval _); [reflexivity|].
      by destruct (set_mem _ _).
  - rewrite map_get_set_eq.
    destruct (is_valid_eval _); [reflexivity|].
    by destruct (set_mem _ _).
Qed.

Lemma eval_inv_init : eval_inv ([], []).
Proof. split; [constructor|reflexivity]. Qed.

Lemma _parse_eval_inv st ln : eval_inv st -> eval_inv (_parse_eval st ln).
Proof.
  intros [Hnd Hset].
  split.
  - rewrite _parse_eval_record.
    destruct (line_record ln) as [[k r]|]; [|exact Hnd]. simpl.
    destruct (map_get k (fst st)); [destruct (dmem _ r)|];
      auto using map_set_nodup.
  - intros k'. rewrite _parse_eval_get. rewrite _parse_eval_record.
    destruct (line_record ln) as [[k r]|]; [|apply Hset]. simpl.
    set (it := eval_entry st k r).
    destruct (decide (k = k')) as [<-|Hne].
    + destruct (is_valid_eval (dget "evaluation_results" it)) eqn:Hv.
      * rewrite set_mem_add. by rewrite bool_decide_eq_true_2.
      * destruct (set_mem k (snd st)) eqn:Hm; [|exact Hm].
        rewrite set_mem_discard. by rewrite bool_decide_eq_true_2.
    + rewrite <- Hset.
      assert (Hd : bool_decide (k' = k) = false)
        by (apply bool_decide_eq_false_2; congruence).
      destruct (is_valid_eval (dget "evaluation_results" it)).
      * rewrite set_mem_add, Hd. reflexivity.
      * destruct (set_mem k (snd st)); [|reflexivity].
        rewrite set_mem_discard, Hd. reflexivity.
Qed.

Lemma eval_tasks_spec st item :
  eval_inv st ->
  In item (eval_tasks st) <->
  exists k, map_get k (fst st) = Some item /\
            is_valid_answer (dget "answer" item) = true /\
            is_valid_eval (dget "evaluation_results" item) = false /\
            is_eval_error (dget "evaluation_results" item) = false.
Proof.
  intros [Hnd Hset]. unfold eval_tasks. rewrite in_map_iff. split.
  - intros [[k it] [Heq Hin]]. simpl in Heq. subst it.
    apply filter_In in Hin as [Hin Hf]. exists k.
    apply (map_get_In _ _ _ Hnd) in Hin. split; [exact Hin|].
    unfold needs_evaluation in Hf. rewrite Hset, Hin in Hf.
    destruct (is_valid_answer (dget "answer" item)); [|discriminate].
    destruct (is_valid_eval (dget "evaluation_results" item)); [discriminate|].
    simpl in Hf.
    destruct (is_eval_error (dget "evaluation_results" item)); [discriminate|].
    by repeat split.
  - intros (k & Hget & Ha & Hv & He). exists (k, item). split; [reflexivity|].
    apply filter_In. split; [by apply (map_get_In _ _ _ Hnd)|].
    unfold needs_evaluation. by rewrite Hset, Hget, Ha, Hv, He.
Qed.

Lemma line_record_key ln k item :
  line_record ln = Some (k, item) -> key_of (dget "sample_id" item) = Some k.
Proof.
  destruct ln as [| |v]; try discriminate.
  destruct v; try discriminate. simpl.
  destruct (key_of (dget "sample_id" o)) eqn:Hk; [|discriminate].
  by intros [= <- <-].
Qed.

Lemma _parse_infer_keyed st ln : keyed st -> keyed (_parse_infer st ln).
Proof.
  intros Hk k item. rewrite _parse_infer_record.
  destruct (line_record ln) as [[k' r]|] eqn:Hr; [|apply Hk].
  simpl. rewrite map_get_set.
  destruct (decide (k' = k)) as [->|Hne]; [|apply Hk].
  intros [= <-]. by apply (line_record_key ln).
Qed.

Lemma _parse_eval_keyed st ln : keyed st -> keyed (_parse_eval st ln).
Proof.
  intros Hk k item. rewrite _parse_eval_get.
  destruct (line_record ln) as [[k' r]|] eqn:Hr; [|apply Hk].
  destruct (decide (k' = k)) as [->|Hne]; [|apply Hk].
  intros [= <-]. unfold eval_entry.
  destruct (map_get k (fst st)) as [old|] eqn:Hold.
  - unfold absorb_eval. destruct (dmem _ r); [|by apply Hk].
    rewrite dget_dset_ne by discriminate. by apply Hk.
  - by apply (line_record_key ln).
Qed.

Lemma keyed_init : keyed ([], []).
Proof. intros k item. discriminate. Qed.
End EvalInvariant.

Section Paths.
Lemma append_inv_head (s t1 t2 : string) : s ++ t1 = s ++ t2 -> t1 = t2.
Proof. apply (inj (String.append s)). Qed.

Lemma append_ne_self (s t : string) : t <> "" -> s ++ t <> s.
Proof.
  intros Ht Heq. apply Ht. apply (append_inv_head s).
  rewrite Heq. clear. induction s as [|c s IH]; [reflexivity|].
  change (String c s = String c (s ++ "")). congruence.
Qed.

Variable P : Pipeline.

Lemma log_ne_output : log_file P <> output_file P.
Proof. apply append_ne_self. discriminate. Qed.

Lemma eval_log_ne_output : eval_log_file P <> output_file P.
Proof. apply append_ne_self. discriminate. Qed.

Lemma temp_ne_output : output_file P ++ ".tmp_rewrite" <> output_file P.
Proof. apply append_ne_self. discriminate. Qed.

Lemma log_ne_eval_log : log_file P <> eval_log_file P.
Proof. intros Heq. apply append_inv_head in Heq. discriminate. Qed.

Lemma log_ne_temp : log_file P <> output_file P ++ ".tmp_rewrite".
Proof. intros Heq. apply append_inv_head in Heq. discriminate. Qed.

Lemma eval_log_ne_temp : eval_log_file P <> output_file P ++ ".tmp_rewrite".
Proof. intros Heq. apply append_inv_head in Heq. discriminate. Qed.
End Paths.

Section LoaderFacts.
Variable H : host.
Variable P : Pipeline.

Lemma read_into_Some parse path fs st st' :
  read_into H parse path fs st = Some st' ->
  st' = replay parse (lines_at fs path) st.
Proof.
  unfold read_into, lines_at. destruct (fs !! path) as [c|].
  - destruct (read_fails _ _); [discriminate|]. by intros [= <-].
  - by intros [= <-].
Qed.

Lemma read_into_ok parse path fs st :
  read_fails (faults H) path = false ->
  read_into H parse path fs st = Some (replay parse (lines_at fs path) st).
Proof.
  intros Hr. unfold read_into, lines_at. destruct (fs !! path) as [c|].
  - by rewrite Hr.
  - reflexivity.
Qed.

Lemma load_infer_Some fs m tasks :
  _load_and_prepare_inference_tasks H P fs = Some (m, tasks) ->
  m = fst (infer_replayed P fs) /\ tasks = infer_tasks (infer_replayed P fs).
Proof.
  unfold _load_and_prepare_inference_tasks, infer_replayed.
  destruct (read_into H _parse_infer (output_file P) fs ([], [])) as [st1|] eqn:H1;
    [|discriminate].
  simpl. apply read_into_Some in H1. subst st1.
  destruct (read_into H _parse_infer (log_file P) fs _) as [st2|] eqn:H2;
    [|discriminate].
  simpl. apply read_into_Some in H2. subst st2.
  destruct (fst _) eqn:Hm.
  - destruct (exists_file fs (output_file P)); [|discriminate].
    by intros [= <- <-].
  - by intros [= <- <-].
Qed.

Lemma load_eval_Some fs m tasks :
  _load_for_evaluation H P fs = Some (m, tasks) ->
  m = fst (eval_replayed P fs) /\ tasks = eval_tasks (eval_replayed P fs).
Proof.
  unfold _load_for_evaluation, eval_replayed.
  destruct (negb _); [discriminate|].
  destruct (read_into H _parse_eval (output_file P) fs ([], [])) as [st1|] eqn:H1;
    [|discriminate].
  simpl. apply read_into_Some in H1. subst st1.
  destruct (read_into H _parse_eval (eval_log_file P) fs _) as [st2|] eqn:H2;
    [|discriminate].
  simpl. apply read_into_Some in H2. subst st2.
  by intros [= <- <-].
Qed.

Lemma load_eval_ok fs :
  exists_file fs (output_file P) = true ->
  read_fails (faults H) (output_file P) = false ->
  read_fails (faults H) (eval_log_file P) = false ->
  _load_for_evaluation H P fs =
    Some (fst (eval_replayed P fs), eval_tasks (eval_replayed P fs)).
Proof.
  intros He Hr1 Hr2. unfold _load_for_evaluation. rewrite He. simpl.
  rewrite read_into_ok by exact Hr1. simpl.
  rewrite read_into_ok by exact Hr2. reflexivity.
Qed.

Lemma load_infer_ok fs :
  exists_file fs (output_file P) = true ->
  read_fails (faults H) (output_file P) = false ->
  read_fails (faults H) (log_file P) = false ->
  _load_and_prepare_inference_tasks H P fs =
    Some (fst (infer_replayed P fs), infer_tasks (infer_replayed P fs)).
Proof.
  intros He Hr1 Hr2. unfold _load_and_prepare_inference_tasks.
  rewrite read_into_ok by exact Hr1. simpl.
  rewrite read_into_ok by exact Hr2. simpl. rewrite He.
  fold (infer_replayed P fs).
  destruct (infer_replayed P fs) as [m0 s0]. simpl. destruct m0; reflexivity.
Qed.

Lemma infer_replayed_inv fs : infer_inv (infer_replayed P fs).
Proof.
  unfold infer_replayed.
  apply replay_preserves; [apply _parse_infer_inv|].
  apply replay_preserves; [apply _parse_infer_inv|apply infer_inv_init].
Qed.

Lemma eval_replayed_inv fs : eval_inv (eval_replayed P fs).
Proof.
  unfold eval_replayed.
  apply replay_preserves; [apply _parse_eval_inv|].
  apply replay_preserves; [apply _parse_eval_inv|apply eval_inv_init].
Qed.

Lemma infer_replayed_get fs k :
  map_get k (fst (infer_replayed P fs)) =
    match last_record k (lines_at fs (log_file P)) with
    | Some r => Some r
    | None => last_record k (lines_at fs (output_file P))
    end.
Proof.
  unfold infer_replayed. rewrite !replay_infer_get. simpl.
  by destruct (last_record k (lines_at fs (output_file P))).
Qed.

Lemma eval_replayed_get fs k :
  map_get k (fst (eval_replayed P fs)) =
    eval_view
      (records_for k (lines_at fs (output_file P) ++ lines_at fs (eval_log_file P))).
Proof.
  unfold eval_replayed. rewrite <- replay_app. apply replay_eval_view.
Qed.
End LoaderFacts.

Section IgnoredLines.
Variable H : host.
Variable P : Pipeline.

Lemma key_of_truthy v k : key_of v = Some k -> truthy v = true.
Proof.
  destruct v as [|b|q|s|l|o]; simpl; try discriminate.
  - by destruct b.
  - by destruct (negb (Qeq_bool q 0)).
  - by destruct (negb (String.eqb s "")).
Qed.

Lemma line_record_no_id v : has_sample_id v = false -> line_record (Row v) = None.
Proof.
  destruct v as [| | | | |item]; try reflexivity. simpl. intros Ht.
  destruct (key_of (dget "sample_id" item)) as [k|] eqn:Hk; [|reflexivity].
  apply key_of_truthy in Hk. congruence.
Qed.

Lemma replay_skip parse ls1 ls2 ln st :
  (forall st', parse st' ln = st') ->
  replay parse (ls1 ++ ln :: ls2) st = replay parse (ls1 ++ ls2) st.
Proof.
  intros Hskip. rewrite !replay_app.
  generalize (replay parse ls1 st). intros s0.
  unfold replay. simpl. destruct ln; by rewrite ?Hskip.
Qed.

Lemma _parse_infer_skip st ln : line_record ln = None -> _parse_infer st ln = st.
Proof. intros Hn. by rewrite _parse_infer_record, Hn. Qed.

Lemma _parse_eval_skip st ln : line_record ln = None -> _parse_eval st ln = st.
Proof. intros Hn. by rewrite _parse_eval_record, Hn. Qed.

Lemma read_into_skip parse path p fs ls1 ls2 ln st :
  (forall st', parse st' ln = st') ->
  read_into H parse p (<[path := Lines (ls1 ++ ln :: ls2)]> fs) st =
  read_into H parse p (<[path := Lines (ls1 ++ ls2)]> fs) st.
Proof.
  intros Hskip. unfold read_into.
  destruct (decide (path = p)) as [->|Hne].
  - rewrite !lookup_insert_eq. destruct (read_fails _ _); [reflexivity|].
    simpl. by rewrite replay_skip.
  - by rewrite !lookup_insert_ne.
Qed.

Lemma exists_file_insert (fs : fsys) path p c1 c2 :
  exists_file (<[path := c1]> fs) p = exists_file (<[path := c2]> fs) p.
Proof.
  unfold exists_file. destruct (decide (path = p)) as [->|Hne].
  - rewrite !lookup_insert_eq. reflexivity.
  - by rewrite !lookup_insert_ne.
Qed.

Lemma load_infer_skip path fs ls1 ls2 ln :
  line_record ln = None ->
  _load_and_prepare_inference_tasks H P (<[path := Lines (ls1 ++ ln :: ls2)]> fs) =
  _load_and_prepare_inference_tasks H P (<[path := Lines (ls1 ++ ls2)]> fs).
Proof.
  intros Hn. unfold _load_and_prepare_inference_tasks.
  rewrite (read_into_skip _ path (output_file P))
    by (intros; by apply _parse_infer_skip).
  destruct (read_into H _parse_infer (output_file P) _ _) as [st1|]; [|reflexivity].
  simpl.
  rewrite (read_into_skip _ path (log_file P))
    by (intros; by apply _parse_infer_skip).
  destruct (read_into H _parse_infer (log_file P) _ _) as [st2|]; [|reflexivity].
  simpl.
  by rewrite (exists_file_insert fs path (output_file P) _ (Lines (ls1 ++ ls2))).
Qed.

Lemma load_eval_skip path fs ls1 ls2 ln :
  line_record ln = None ->
  _load_for_evaluation H P (<[path := Lines (ls1 ++ ln :: ls2)]> fs) =
  _load_for_evaluation H P (<[path := Lines (ls1 ++ ls2)]> fs).
Proof.
  intros Hn. unfold _load_for_evaluation.
  rewrite (exists_file_insert fs path (output_file P) _ (Lines (ls1 ++ ls2))).
  destruct (negb _); [reflexivity|].
  rewrite (read_into_skip _ path (output_file P))
    by (intros; by apply _parse_eval_skip).
  destruct (read_into H _parse_eval (output_file P) _ _) as [st1|]; [|reflexivity].
  simpl.
  by rewrite (read_into_skip _ path (eval_log_file P))
    by (intros; by apply _parse_eval_skip).
Qed.

Lemma infer_replayed_keyed fs : keyed (infer_replayed P fs).
Proof.
  unfold infer_replayed.
  apply replay_preserves; [apply _parse_infer_keyed|].
  apply replay_preserves; [apply _parse_infer_keyed|apply keyed_init].
Qed.

Lemma eval_replayed_keyed fs : keyed (eval_replayed P fs).
Proof.
  unfold eval_replayed.
  apply replay_preserves; [apply _parse_eval_keyed|].
  apply replay_preserves; [apply _parse_eval_keyed|apply keyed_init].
Qed.

Lemma append_line_lines path item (fs : fsys) :
  append_line H path item fs = fs \/
  lines_at (append_line H path item fs) path =
    (lines_at fs path ++ [Row (JObj item)])%list.
Proof.
  unfold append_line. destruct (append_fails _ _); [by left|right].
  unfold lines_at. by rewrite lookup_insert_eq.
Qed.
End IgnoredLines.

Section RewriteFacts.
Variable H : host.

Lemma exists_file_true (fs : fsys) p : exists_file fs p = true <-> is_Some (fs !! p).
Proof. unfold exists_file. apply bool_decide_eq_true. Qed.

Lemma exists_file_false (fs : fsys) p : exists_file fs p = false <-> fs !! p = None.
Proof.
  unfold exists_file. rewrite bool_decide_eq_false.
  rewrite <- eq_None_not_Some. reflexivity.
Qed.

Lemma remove_temp_other tmp (fs : fsys) p :
  p <> tmp -> remove_temp H tmp fs !! p = fs !! p.
Proof.
  intros Hne. unfold remove_temp.
  destruct (exists_file fs tmp); [|reflexivity].
  destruct (remove_fails _ _); [reflexivity|].
  by rewrite lookup_delete_ne.
Qed.

Lemma remove_temp_gone tmp (fs : fsys) :
  remove_fails (faults H) tmp = false -> remove_temp H tmp fs !! tmp = None.
Proof.
  intros Hr. unfold remove_temp.
  destruct (exists_file fs tmp) eqn:He.
  - rewrite Hr. apply lookup_delete_eq.
  - by apply exists_file_false.
Qed.

Lemma safe_rewrite_other data target rep (fs : fsys) p :
  p <> target -> p <> target ++ ".tmp_rewrite" ->
  fst (_safe_rewrite_file H data target rep fs) !! p = fs !! p.
Proof.
  intros Ht Htmp. unfold _safe_rewrite_file.
  destruct (open_fails _ _); simpl; [by apply remove_temp_other|].
  destruct (serialized data rep) as [c|]; simpl.
  - destruct (write_fails _ _); simpl.
    { rewrite remove_temp_other by done. by rewrite lookup_insert_ne. }
    destruct (move_fails _ _); simpl.
    { rewrite remove_temp_other by done. by rewrite !lookup_insert_ne. }
    rewrite lookup_insert_ne by done. rewrite lookup_delete_ne by done.
    by rewrite !lookup_insert_ne.
  - rewrite remove_temp_other by done. by rewrite lookup_insert_ne.
Qed.

Lemma safe_rewrite_raised data target rep (fs : fsys) :
  snd (_safe_rewrite_file H data target rep fs) = Raised ->
  (forall p, p <> target ++ ".tmp_rewrite" ->
             fst (_safe_rewrite_file H data target rep fs) !! p = fs !! p) /\
  (remove_fails (faults H) (target ++ ".tmp_rewrite") = false ->
   fst (_safe_rewrite_file H data target rep fs) !! (target ++ ".tmp_rewrite") = None).
Proof.
  unfold _safe_rewrite_file.
  destruct (open_fails _ _); simpl.
  { intros _. split; [intros p Hp; by apply remove_temp_other|apply remove_temp_gone]. }
  destruct (serialized data rep) as [c|]; simpl.
  - destruct (write_fails _ _); simpl.
    { intros _. split; [|apply remove_temp_gone].
      intros p Hp. rewrite remove_temp_other by done. by rewrite lookup_insert_ne. }
    destruct (move_fails _ _); simpl; [|discriminate].
    intros _. split; [|apply remove_temp_gone].
    intros p Hp. rewrite remove_temp_other by done. by rewrite !lookup_insert_ne.
  - intros _. split; [|apply remove_temp_gone].
    intros p Hp. rewrite remove_temp_other by done. by rewrite lookup_insert_ne.
Qed.

Lemma safe_rewrite_done data target rep (fs : fsys) :
  snd (_safe_rewrite_file H data target rep fs) = Done ->
  exists c, serialized data rep = Some c /\
            fst (_safe_rewrite_file H data target rep fs) =
              <[target := c]> (delete (target ++ ".tmp_rewrite") fs).
Proof.
  unfold _safe_rewrite_file.
  destruct (open_fails _ _); simpl; [discriminate|].
  destruct (serialized data rep) as [c|]; simpl; [|discriminate].
  destruct (write_fails _ _); simpl; [discriminate|].
  destruct (move_fails _ _); simpl; [discriminate|].
  intros _. exists c. split; [reflexivity|].
  by rewrite !delete_insert_eq.
Qed.

Lemma safe_rewrite_done_iff data target rep (fs : fsys) :
  snd (_safe_rewrite_file H data target rep fs) = Done <->
  open_fails (faults H) (target ++ ".tmp_rewrite") = false /\
  is_Some (serialized data rep) /\
  write_fails (faults H) (target ++ ".tmp_rewrite") = false /\
  move_fails (faults H) target = false.
Proof.
  unfold _safe_rewrite_file.
  destruct (open_fails _ _); simpl; [split; [discriminate|by intros [? _]]|].
  destruct (serialized data rep) as [c|]; simpl;
    [|split; [discriminate|by intros (_ & [? ?] & _)]].
  destruct (write_fails _ _); simpl; [split; [discriminate|by intros (_ & _ & ? & _)]|].
  destruct (move_fails _ _); simpl; [split; [discriminate|by intros (_ & _ & _ & ?)]|].
  split; [|reflexivity]. intros _. repeat split. by eexists.
Qed.
End RewriteFacts.

Section MergeFacts.
Variable H : host.
Variable P : Pipeline.

Lemma jsonl_of_objects (l : list obj) :
  jsonl_of (List.map JObj l) = List.map (fun o => Row (JObj o)) l.
Proof. induction l as [|o l IH]; simpl; [reflexivity|]. by rewrite IH. Qed.

Lemma merge_raised lg m (fs : fsys) :
  m <> [] ->
  snd (store_rewrite H P m fs) = Raised ->
  merge_log_to_main H P lg m fs = fst (store_rewrite H P m fs).
Proof.
  unfold merge_log_to_main, store_rewrite. destruct m as [|kv m]; [done|].
  intros _.
  destruct (_safe_rewrite_file _ _ _ _ _) as [fs' []]; simpl; [discriminate|done].
Qed.

Lemma merge_done lg m (fs : fsys) :
  m <> [] ->
  snd (store_rewrite H P m fs) = Done ->
  merge_log_to_main H P lg m fs =
    let fs' := fst (store_rewrite H P m fs) in
    if exists_file fs' lg then
      if remove_fails (faults H) lg then fs' else delete lg fs'
    else fs'.
Proof.
  unfold merge_log_to_main, store_rewrite. destruct m as [|kv m]; [done|].
  intros _.
  destruct (_safe_rewrite_file _ _ _ _ _) as [fs' []]; simpl; [done|discriminate].
Qed.

Lemma merge_log_kept_on_failure lg m (fs : fsys) :
  lg <> output_file P ++ ".tmp_rewrite" ->
  snd (store_rewrite H P m fs) = Raised ->
  merge_log_to_main H P lg m fs !! lg = fs !! lg /\
  merge_log_to_main H P lg m fs !! output_file P = fs !! output_file P.
Proof.
  intros Hlg Hr. destruct (decide (m = [])) as [->|Hm]; [done|].
  rewrite merge_raised by done.
  destruct (safe_rewrite_raised H _ _ _ fs Hr) as [Hother _].
  split; apply Hother; [exact Hlg|]. apply not_eq_sym, temp_ne_output.
Qed.

Lemma merge_log_removed lg m (fs : fsys) :
  m <> [] ->
  snd (store_rewrite H P m fs) = Done ->
  remove_fails (faults H) lg = false ->
  merge_log_to_main H P lg m fs !! lg = None.
Proof.
  intros Hm Hd Hr. rewrite merge_done by done. simpl.
  destruct (exists_file _ lg) eqn:He.
  - rewrite Hr. apply lookup_delete_eq.
  - by apply exists_file_false.
Qed.

Lemma merge_log_stuck lg m (fs : fsys) :
  m <> [] ->
  lg <> output_file P -> lg <> output_file P ++ ".tmp_rewrite" ->
  snd (store_rewrite H P m fs) = Done ->
  remove_fails (faults H) lg = true ->
  merge_log_to_main H P lg m fs !! lg = fs !! lg.
Proof.
  intros Hm Hlo Hlt Hd Hr. rewrite merge_done by done. simpl. rewrite Hr.
  assert (Hsame : fst (store_rewrite H P m fs) !! lg = fs !! lg)
    by (by apply safe_rewrite_other).
  by destruct (exists_file _ lg).
Qed.

Lemma merge_store_written lg m (fs : fsys) :
  m <> [] ->
  lg <> output_file P ->
  snd (store_rewrite H P m fs) = Done ->
  merge_log_to_main H P lg m fs !! output_file P =
    Some (Lines (List.map (fun o => Row (JObj o)) (map_values m))).
Proof.
  intros Hm Hlo Hd. rewrite merge_done by done. simpl.
  destruct (safe_rewrite_done H _ _ _ fs Hd) as (c & Hc & Hfs).
  simpl in Hc. injection Hc as <-. rewrite jsonl_of_objects in Hfs.
  assert (Hout : fst (store_rewrite H P m fs) !! output_file P =
                 Some (Lines (List.map (fun o => Row (JObj o)) (map_values m)))).
  { unfold store_rewrite. rewrite Hfs. apply lookup_insert_eq. }
  destruct (exists_file _ lg); [|exact Hout].
  destruct (remove_fails _ lg); [exact Hout|].
  rewrite lookup_delete_ne by done. exact Hout.
Qed.

Lemma merge_other lg m (fs : fsys) p :
  p <> lg -> p <> output_file P -> p <> output_file P ++ ".tmp_rewrite" ->
  merge_log_to_main H P lg m fs !! p = fs !! p.
Proof.
  intros Hpl Hpo Hpt. unfold merge_log_to_main.
  destruct m as [|kv m]; [reflexivity|].
  pose proof (safe_rewrite_other H
                (JArr (List.map JObj (map_values (kv :: m))))
                (output_file P) false fs p Hpo Hpt) as Hsame.
  destruct (_safe_rewrite_file _ _ _ _ _) as [fs' []]; simpl in *; [|exact Hsame].
  destruct (exists_file fs' lg); [|exact Hsame].
  destruct (remove_fails _ lg); [exact Hsame|].
  by rewrite lookup_delete_ne.
Qed.
End MergeFacts.

Section SettledStore.
Variable H : host.
Variable P : Pipeline.

Lemma last_record_In k ls r :
  last_record k ls = Some r -> exists ln, In ln ls /\ line_record ln = Some (k, r).
Proof.
  induction ls as [|ln ls IH]; simpl; [discriminate|].
  destruct (last_record k ls) as [r'|].
  - intros [= <-]. destruct IH as (ln' & Hin & Hrec); [reflexivity|].
    exists ln'. split; [by right|exact Hrec].
  - destruct (line_record ln) as [[k' r']|] eqn:Hrec; [|discriminate].
    destruct (decide (k = k')) as [<-|]; [|discriminate].
    intros [= <-]. exists ln. split; [by left|exact Hrec].
Qed.

Lemma records_for_In k ls r :
  In r (records_for k ls) -> exists ln, In ln ls /\ line_record ln = Some (k, r).
Proof.
  unfold records_for. rewrite in_flat_map. intros (ln & Hin & Hr).
  exists ln. split; [exact Hin|].
  destruct (line_record ln) as [[k' r']|]; [|destruct Hr].
  destruct (decide (k = k')) as [<-|]; [|destruct Hr].
  destruct Hr as [<-|[]]. reflexivity.
Qed.

Lemma last_with_eval_In rs r : last_with_eval rs = Some r -> In r rs.
Proof.
  induction rs as [|r0 rs IH]; simpl; [discriminate|].
  destruct (last_with_eval rs) as [x|].
  - intros [= <-]. right. by apply IH.
  - destruct (dmem _ r0); [|discriminate]. intros [= <-]. by left.
Qed.

Lemma settled_infer_tasks ls :
  Forall settled_line ls ->
  infer_tasks (replay _parse_infer ls ([], [])) = [].
Proof.
  intros Hs.
  destruct (infer_tasks _) as [|item tasks] eqn:Ht; [reflexivity|].
  assert (Hin : In item (infer_tasks (replay _parse_infer ls ([], []))))
    by (rewrite Ht; by left).
  apply infer_tasks_spec in Hin;
    [|apply replay_preserves; [apply _parse_infer_inv|apply infer_inv_init]].
  destruct Hin as (k & Hget & Hv & _).
  rewrite replay_infer_get in Hget. simpl in Hget.
  destruct (last_record k ls) as [r|] eqn:Hl; [|discriminate].
  injection Hget as ->.
  apply last_record_In in Hl as (ln & Hin & Hrec).
  rewrite Forall_forall in Hs. apply list_elem_of_In in Hin.
  destruct (Hs ln Hin k item Hrec) as [Ha _]. congruence.
Qed.

Lemma settled_eval_tasks ls :
  Forall settled_line ls ->
  eval_tasks (replay _parse_eval ls ([], [])) = [].
Proof.
  intros Hs.
  destruct (eval_tasks _) as [|item tasks] eqn:Ht; [reflexivity|].
  assert (Hin : In item (eval_tasks (replay _parse_eval ls ([], []))))
    by (rewrite Ht; by left).
  apply eval_tasks_spec in Hin;
    [|apply replay_preserves; [apply _parse_eval_inv|apply eval_inv_init]].
  destruct Hin as (k & Hget & _ & Hv & _).
  rewrite replay_eval_view in Hget.
  assert (Hset : forall r, In r (records_for k ls) ->
                   is_valid_eval (dget "evaluation_results" r) = true).
  { intros r Hr. apply records_for_In in Hr as (ln & Hin & Hrec).
    rewrite Forall_forall in Hs. apply list_elem_of_In in Hin.
    by destruct (Hs ln Hin k r Hrec). }
  destruct (records_for k ls) as [|first later]; [discriminate|].
  simpl in Hget. injection Hget as <-.
  destruct (last_with_eval later) as [r|] eqn:Hl.
  - rewrite dget_dset_eq in Hv. apply last_with_eval_In in Hl.
    rewrite Hset in Hv; [discriminate|by right].
  - rewrite Hset in Hv; [discriminate|by left].
Qed.

Lemma analyze_keeps_store (fs : fsys) :
  report_filepath P <> output_file P ->
  report_filepath P ++ ".tmp_rewrite" <> output_file P ->
  analyze_hierarchical_metrics H P fs !! output_file P = fs !! output_file P.
Proof.
  intros Hr Ht. unfold analyze_hierarchical_metrics.
  destruct (_ || _); [reflexivity|].
  destruct (fs !! output_file P) as [c|] eqn:Hc; [|by rewrite Hc].
  destruct (read_fails _ _); [exact Hc|].
  destruct (collect_stats P (file_lines c)) as [[stats n] a].
  destruct n; [exact Hc|]. destruct a; [exact Hc|].
  rewrite safe_rewrite_other by (by apply not_eq_sym). exact Hc.
Qed.
End SettledStore.

Section SettledRun.
Variable H : host.
Variable P : Pipeline.

(** On a store whose records are all settled, with no stage log, every
    stage of a run is the identity on the store. *)
Lemma settled_store_is_fixed (fs : fsys) (c : content) :
  fs !! output_file P = Some c ->
  fs !! log_file P = None ->
  fs !! eval_log_file P = None ->
  Forall settled_line (file_lines c) ->
  report_filepath P <> output_file P ->
  report_filepath P ++ ".tmp_rewrite" <> output_file P ->
  generate_prompts H P fs = ([], fs) /\
  (forall m tasks,
     _load_and_prepare_inference_tasks H P fs = Some (m, tasks) -> tasks = []) /\
  (forall m tasks, _load_for_evaluation H P fs = Some (m, tasks) -> tasks = []) /\
  (read_fails (faults H) (output_file P) = false ->
   (exists m, _load_and_prepare_inference_tasks H P fs = Some (m, [])) /\
   (exists m, _load_for_evaluation H P fs = Some (m, []))) /\
  run_inference_multithread H P fs = fs /\
  evaluate_and_save H P fs = fs /\
  run_all H P fs !! output_file P = fs !! output_file P.
Proof.
  intros Hc Hl He Hs Hr Ht.
  assert (Hex : exists_file fs (output_file P) = true)
    by (apply exists_file_true; by rewrite Hc).
  assert (Hnl : exists_file fs (log_file P) = false)
    by (by apply exists_file_false).
  assert (Hne : exists_file fs (eval_log_file P) = false)
    by (by apply exists_file_false).
  assert (Hlines : lines_at fs (output_file P) = file_lines c)
    by (unfold lines_at; by rewrite Hc).
  assert (Hli : lines_at fs (log_file P) = []) by (unfold lines_at; by rewrite Hl).
  assert (Hle : lines_at fs (eval_log_file P) = [])
    by (unfold lines_at; by rewrite He).
  assert (Hit : infer_tasks (infer_replayed P fs) = []).
  { unfold infer_replayed. rewrite Hli, Hlines. by apply settled_infer_tasks. }
  assert (Het : eval_tasks (eval_replayed P fs) = []).
  { unfold eval_replayed. rewrite Hle, Hlines. by apply settled_eval_tasks. }
  assert (Hg : generate_prompts H P fs = ([], fs))
    by (unfold generate_prompts; by rewrite Hex).
  assert (Hinf : forall m tasks,
            _load_and_prepare_inference_tasks H P fs = Some (m, tasks) ->
            tasks = []).
  { intros m tasks Hload. apply load_infer_Some in Hload as [_ ->]. exact Hit. }
  assert (Hev : forall m tasks,
            _load_for_evaluation H P fs = Some (m, tasks) -> tasks = []).
  { intros m tasks Hload. apply load_eval_Some in Hload as [_ ->]. exact Het. }
  assert (Hrun : run_inference_multithread H P fs = fs).
  { unfold run_inference_multithread.
    destruct (_load_and_prepare_inference_tasks H P fs) as [[m tasks]|] eqn:Hload;
      [|reflexivity].
    rewrite (Hinf _ _ eq_refl). by rewrite Hnl. }
  assert (Heval : evaluate_and_save H P fs = fs).
  { unfold evaluate_and_save, pre_evaluation_merge. rewrite Hnl.
    unfold evaluate_loaded.
    destruct (_load_for_evaluation H P fs) as [[m tasks]|] eqn:Hload;
      [|reflexivity].
    rewrite (Hev _ _ eq_refl). by rewrite Hne. }
  split; [exact Hg|]. split; [exact Hinf|]. split; [exact Hev|].
  split; [|split; [exact Hrun|split; [exact Heval|]]].
  - intros Hread. split.
    + exists (fst (infer_replayed P fs)).
      unfold _load_and_prepare_inference_tasks.
      rewrite read_into_ok by exact Hread. simpl.
      unfold read_into. rewrite Hl. simpl. rewrite Hex.
      fold (lines_at fs (output_file P)).
      assert (Hst : replay _parse_infer (lines_at fs (output_file P)) ([], [])
                    = infer_replayed P fs)
        by (unfold infer_replayed; by rewrite Hli).
      rewrite Hst, Hit.
      destruct (infer_replayed P fs) as [m0 ids]. simpl. by destruct m0.
    + exists (fst (eval_replayed P fs)).
      unfold _load_for_evaluation. rewrite Hex. simpl.
      rewrite read_into_ok by exact Hread. simpl.
      unfold read_into. rewrite He. simpl.
      assert (Hst : replay _parse_eval (lines_at fs (output_file P)) ([], [])
                    = eval_replayed P fs)
        by (unfold eval_replayed; by rewrite Hle).
      by rewrite Hst, Het.
  - unfold run_all. rewrite Hg. simpl. rewrite Hex. simpl.
    rewrite Hrun, Heval. by apply analyze_keeps_store.
Qed.
End SettledRun.

Section WorkerFacts.
Variable H : host.
Variable P : Pipeline.

Lemma infer_try_Ok item it :
  infer_try H P item = Ok it -> exists a, it = dset "answer" a item.
Proof.
  unfold infer_try. destruct (find_runner H P item) as [r|]; [|discriminate].
  destruct (dget "prompt" item) eqn:Hp; try discriminate;
    try (destruct (call_api r _ _); [|discriminate]; intros [= <-]; by eexists).
  destruct (eq_str _ _); [intros [= <-]; by eexists|].
  destruct (call_api r _ _); [|discriminate]. intros [= <-]. by eexists.
Qed.

Lemma eval_try_Ok item it :
  eval_try H P item = Ok it -> exists e, it = dset "evaluation_results" e item.
Proof.
  unfold eval_try. destruct (find_runner H P item) as [r|]; [|discriminate].
  destruct (evaluate_response r _ _); [|discriminate]. intros [= <-]. by eexists.
Qed.

Lemma _infer_worker_id item :
  dget "sample_id" (_infer_worker H P item) = dget "sample_id" item.
Proof.
  unfold _infer_worker. rewrite dget_dset_ne by discriminate.
  destruct (infer_try H P item) as [it|ty msg] eqn:Ht.
  - apply infer_try_Ok in Ht as [a ->]. by rewrite dget_dset_ne.
  - by rewrite dget_dset_ne.
Qed.

Lemma _eval_worker_id item :
  dget "sample_id" (_eval_worker H P item) = dget "sample_id" item.
Proof.
  unfold _eval_worker. rewrite dget_dset_ne by discriminate.
  destruct (eval_try H P item) as [it|ty msg] eqn:Ht.
  - apply eval_try_Ok in Ht as [a ->]. by rewrite dget_dset_ne.
  - by rewrite dget_dset_ne.
Qed.

Lemma _infer_worker_duration item :
  dget "inference_duration_sec" (_infer_worker H P item) =
    JNum (infer_elapsed H item).
Proof. unfold _infer_worker. apply dget_dset_eq. Qed.

Lemma _eval_worker_duration item :
  dget "evaluation_duration_sec" (_eval_worker H P item) =
    JNum (eval_elapsed H item).
Proof. unfold _eval_worker. apply dget_dset_eq. Qed.

Lemma _infer_worker_raise item ty msg :
  infer_try H P item = Raise ty msg ->
  dget "answer" (_infer_worker H P item) =
    JStr ("ERROR: API call failed for item "
            ++ py_str H (dget_default "sample_id" (JStr "UNKNOWN_ID") item)
            ++ " - " ++ ty ++ ": " ++ msg).
Proof.
  intros Ht. unfold _infer_worker. rewrite Ht.
  rewrite dget_dset_ne by discriminate. apply dget_dset_eq.
Qed.

Lemma _eval_worker_raise item ty msg :
  eval_try H P item = Raise ty msg ->
  dget "evaluation_results" (_eval_worker H P item) =
    JObj [("error",
           JStr ("ERROR: Evaluation failed for item "
                   ++ py_str H (dget_default "sample_id" (JStr "UNKNOWN_ID") item)
                   ++ " - " ++ ty ++ ": " ++ msg))].
Proof.
  intros Ht. unfold _eval_worker. rewrite Ht.
  rewrite dget_dset_ne by discriminate. apply dget_dset_eq.
Qed.

Lemma append_line_ok path item (fs : fsys) :
  append_fails (faults H) path = false ->
  lines_at (append_line H path item fs) path =
    (lines_at fs path ++ [Row (JObj item)])%list.
Proof.
  intros Ha. unfold append_line, lines_at. rewrite Ha.
  by rewrite lookup_insert_eq.
Qed.

Lemma infer_drain_log tasks m (fs : fsys) :
  (forall t, In t tasks -> exists k, key_of (dget "sample_id" t) = Some k) ->
  append_fails (faults H) (log_file P) = false ->
  snd (infer_drain H P tasks m fs) = true /\
  lines_at (snd (fst (infer_drain H P tasks m fs))) (log_file P) =
    (lines_at fs (log_file P)
       ++ List.map (fun t => Row (JObj (_infer_worker H P t))) tasks)%list.
Proof.
  intros Hk Ha. revert m fs.
  induction tasks as [|t tasks IH]; intros m fs; simpl.
  - by rewrite app_nil_r.
  - destruct (Hk t) as [k Hkt]; [by left|].
    rewrite (key_of_truthy _ _ Hkt), Hkt.
    destruct (IH (fun t' Hin => Hk t' (or_intror Hin))
                (map_set k (_infer_worker H P t) m)
                (_append_to_infer_log H P (_infer_worker H P t) fs))
      as [Hok Hlines].
    split; [exact Hok|]. rewrite Hlines.
    unfold _append_to_infer_log. rewrite _infer_worker_id.
    rewrite (key_of_truthy _ _ Hkt). simpl.
    rewrite append_line_ok by exact Ha. by rewrite <- app_assoc.
Qed.

Lemma eval_drain_log tasks m (fs : fsys) :
  (forall t, In t tasks -> exists k, key_of (dget "sample_id" t) = Some k) ->
  append_fails (faults H) (eval_log_file P) = false ->
  snd (eval_drain H P tasks m fs) = true /\
  lines_at (snd (fst (eval_drain H P tasks m fs))) (eval_log_file P) =
    (lines_at fs (eval_log_file P)
       ++ List.map (fun t => Row (JObj (_eval_worker H P t))) tasks)%list.
Proof.
  intros Hk Ha. revert m fs.
  induction tasks as [|t tasks IH]; intros m fs; simpl.
  - by rewrite app_nil_r.
  - destruct (Hk t) as [k Hkt]; [by left|].
    rewrite (key_of_truthy _ _ Hkt), Hkt.
    destruct (IH (fun t' Hin => Hk t' (or_intror Hin))
                (map_set k (_eval_worker H P t) m)
                (_append_to_eval_log H P (_eval_worker H P t) fs))
      as [Hok Hlines].
    split; [exact Hok|]. rewrite Hlines.
    unfold _append_to_eval_log. rewrite _eval_worker_id.
    rewrite (key_of_truthy _ _ Hkt). simpl.
    rewrite append_line_ok by exact Ha. by rewrite <- app_assoc.
Qed.

Lemma infer_tasks_keyed (fs : fsys) m tasks t :
  _load_and_prepare_inference_tasks H P fs = Some (m, tasks) ->
  In t tasks -> exists k, key_of (dget "sample_id" t) = Some k.
Proof.
  intros Hload Hin. apply load_infer_Some in Hload as [-> ->].
  apply infer_tasks_spec in Hin; [|apply infer_replayed_inv].
  destruct Hin as (k & Hget & _). exists k.
  by apply (infer_replayed_keyed P fs).
Qed.

Lemma eval_tasks_keyed (fs : fsys) m tasks t :
  _load_for_evaluation H P fs = Some (m, tasks) ->
  In t tasks -> exists k, key_of (dget "sample_id" t) = Some k.
Proof.
  intros Hload Hin. apply load_eval_Some in Hload as [-> ->].
  apply eval_tasks_spec in Hin; [|apply eval_replayed_inv].
  destruct Hin as (k & Hget & _). exists k.
  by apply (eval_replayed_keyed P fs).
Qed.
End WorkerFacts.

Lemma prefix_of_append (p q s : string) :
  String.prefix p q = true -> String.prefix p (q ++ s) = true.
Proof.
  revert q. induction p as [|c p IH]; intros q; [by destruct (q ++ s)|].
  destruct q as [|d q]; [discriminate|].
  change (String.prefix (String c p) (String d q) = true ->
          String.prefix (String c p) (String d (q ++ s)) = true).
  simpl. destruct (ascii_dec c d); [apply IH|discriminate].
Qed.


Section AssocFacts.
Context {A : Type}.
Implicit Types (k : string) (l : list (string * A)) (f : A -> A) (d : A).

Lemma assoc_get_update_eq d f k l :
  assoc_get d k (assoc_update d f k l) = f (assoc_get d k l).
Proof.
  induction l as [|[k0 v0] l IH]; simpl.
  - by rewrite String.eqb_refl.
  - destruct (String.eqb k k0) eqn:Hk; simpl; rewrite Hk; [reflexivity|exact IH].
Qed.

Lemma assoc_get_update_ne d f k k' l :
  k <> k' -> assoc_get d k' (assoc_update d f k l) = assoc_get d k' l.
Proof.
  intros Hne. induction l as [|[k0 v0] l IH]; simpl.
  - destruct (String.eqb k' k) eqn:Hk; [|reflexivity].
    apply String.eqb_eq in Hk. congruence.
  - destruct (String.eqb k k0) eqn:Hk; simpl.
    + apply String.eqb_eq in Hk. subst k0.
      destruct (String.eqb k' k) eqn:Hk'; [|reflexivity].
      apply String.eqb_eq in Hk'. congruence.
    + destruct (String.eqb k' k0); [reflexivity|exact IH].
Qed.
End AssocFacts.

Section StatsFacts.
Implicit Types (h m : string) (s : stats_table) (c : cell).

Lemma stat_get_bump h m v s h' m' :
  stat_get h' m' (bump h m v s) =
    if String.eqb h h' && String.eqb m m'
    then ((fst (stat_get h' m' s) + v)%Q, (snd (stat_get h' m' s) + 1)%Z)
    else stat_get h' m' s.
Proof.
  unfold stat_get, bump.
  destruct (String.eqb h h') eqn:Hh; simpl.
  - apply String.eqb_eq in Hh. subst h'. rewrite assoc_get_update_eq.
    destruct (String.eqb m m') eqn:Hm.
    + apply String.eqb_eq in Hm. subst m'. by rewrite assoc_get_update_eq.
    + apply String.eqb_neq in Hm. by rewrite assoc_get_update_ne.
  - apply String.eqb_neq in Hh. by rewrite assoc_get_update_ne.
Qed.

Lemma stat_get_bump_if_number h m v s h' m' :
  stat_get h' m' (bump_if_number h m v s) =
    if String.eqb h h' && String.eqb m m'
    then add_value v (stat_get h' m' s)
    else stat_get h' m' s.
Proof.
  unfold bump_if_number, add_value. destruct (is_number v).
  - apply stat_get_bump.
  - by destruct (_ && _).
Qed.

Lemma accumulate_cell metrics er i e s h h' m' :
  stat_get h' m' (accumulate metrics er i e s h) =
    if String.eqb h h' then cell_step metrics er i e m' (stat_get h' m' s)
    else stat_get h' m' s.
Proof.
  unfold accumulate, cell_step. rewrite !stat_get_bump_if_number.
  assert (Hfold : forall s0,
    stat_get h' m'
      (fold_left (fun s metric => bump_if_number h metric (dget metric er) s)
         metrics s0) =
    if String.eqb h h'
    then fold_left
           (fun c name =>
              if String.eqb name m' then add_value (dget name er) c else c)
           metrics (stat_get h' m' s0)
    else stat_get h' m' s0).
  { induction metrics as [|m0 ms IH]; intros s0; simpl.
    - by destruct (String.eqb h h').
    - rewrite IH, stat_get_bump_if_number.
      destruct (String.eqb h h'); simpl; reflexivity. }
  rewrite Hfold. destruct (String.eqb h h'); simpl; reflexivity.
Qed.

Lemma fold_accumulate_cell metrics er i e hs s h' m' :
  List.NoDup hs ->
  stat_get h' m' (fold_left (accumulate metrics er i e) hs s) =
    if existsb (String.eqb h') hs
    then cell_step metrics er i e m' (stat_get h' m' s)
    else stat_get h' m' s.
Proof.
  intros Hnd. revert s. induction Hnd as [|h hs Hnotin Hnd IH]; intros s; simpl.
  - reflexivity.
  - rewrite IH, accumulate_cell.
    destruct (String.eqb h' h) eqn:Hh; simpl.
    + apply String.eqb_eq in Hh. subst h'. rewrite String.eqb_refl.
      destruct (existsb (String.eqb h) hs) eqn:Hex; [|reflexivity].
      exfalso. apply Hnotin. apply existsb_exists in Hex as (x & Hin & Hx).
      apply String.eqb_eq in Hx. by subst x.
    + rewrite String.eqb_sym, Hh. reflexivity.
Qed.

Lemma cell_step_registered metrics er i e m c :
  List.NoDup metrics -> In m metrics ->
  m <> "inference_duration_sec" -> m <> "evaluation_duration_sec" ->
  cell_step metrics er i e m c = add_value (dget m er) c.
Proof.
  intros Hnd Hin Hi He. unfold cell_step.
  replace (String.eqb "inference_duration_sec" m) with false
    by (symmetry; apply String.eqb_neq; congruence).
  replace (String.eqb "evaluation_duration_sec" m) with false
    by (symmetry; apply String.eqb_neq; congruence).
  clear Hi He. revert c.
  assert (Hskip : forall ms c0, ~ In m ms ->
            fold_left (fun c name => if String.eqb name m
                                     then add_value (dget name er) c else c)
              ms c0 = c0).
  { induction ms as [|m0 ms IH]; intros c0 Hn; simpl; [reflexivity|].
    destruct (String.eqb m0 m) eqn:Hm.
    - apply String.eqb_eq in Hm. subst m0. exfalso. apply Hn. by left.
    - apply IH. intros Hin'. apply Hn. by right. }
  induction Hnd as [|m0 ms Hnotin Hnd IH]; intros c; [destruct Hin|].
  simpl. destruct Hin as [->|Hin].
  - rewrite String.eqb_refl. by apply Hskip.
  - destruct (String.eqb m0 m) eqn:Hm.
    + apply String.eqb_eq in Hm. subst m0. contradiction.
    + by apply IH.
Qed.
End StatsFacts.

Section HierarchyFacts.

Lemma join_slash_cons p ps :
  ps <> [] -> join_slash (p :: ps) = p ++ "/" ++ join_slash ps.
Proof. destruct ps; [done|reflexivity]. Qed.

Lemma hierarchies_cons p ps :
  hierarchies (p :: ps) =
    p :: List.map (fun h => p ++ "/" ++ h) (hierarchies ps).
Proof.
  unfold hierarchies. simpl length. simpl seq. simpl List.map at 1.
  f_equal. rewrite <- seq_shift, !List.map_map.
  apply map_ext_in. intros d Hd. apply in_seq in Hd.
  simpl firstn. apply join_slash_cons.
  destruct ps as [|q ps]; [simpl in Hd; lia|].
  destruct d; [lia|discriminate].
Qed.

Lemma length_append (a b : string) :
  String.length (a ++ b) = (String.length a + String.length b)%nat.
Proof.
  induction a as [|c a IH]; [reflexivity|].
  change (S (String.length (a ++ b)) = S (String.length a + String.length b)).
  by rewrite IH.
Qed.

Lemma hierarchies_nodup parts : List.NoDup (hierarchies parts).
Proof.
  induction parts as [|p ps IH]; [constructor|].
  rewrite hierarchies_cons. constructor.
  - rewrite in_map_iff. intros (h & Heq & _).
    apply (f_equal String.length) in Heq.
    rewrite !length_append in Heq. simpl in Heq. lia.
  - apply Finite.Injective_map_NoDup; [|exact IH].
    intros x y Heq. apply append_inv_head in Heq. by injection Heq.
Qed.
End HierarchyFacts.

Section AnalyzeFacts.
Variable P : Pipeline.

Lemma contributing_spec item er parts metrics :
  contributing P (Row (JObj item)) = Some (er, parts, metrics) <->
  dget "evaluation_results" item = JObj er /\
  truthy (dget "error" er) = false /\
  exists task,
    dget_default "task" (JStr "") item = JStr task /\
    String.prefix "longeval/" task = true /\
    parts = tl (split_slash task) /\
    metrics <> [] /\
    exists name rest,
      parts = name :: rest /\ TaskFactory_tasks P !! name = Some metrics.
Proof.
  unfold contributing. split.
  - destruct (dget "evaluation_results" item) as [| | | | |er']; try discriminate.
    destruct (truthy (dget "error" er')) eqn:Herr; [discriminate|].
    destruct (dget_default "task" (JStr "") item) as [| | |task| |];
      try discriminate.
    destruct (String.prefix "longeval/" task) eqn:Hpre; [|discriminate]. simpl.
    destruct (tl (split_slash task)) as [|name rest] eqn:Hparts; [discriminate|].
    destruct (TaskFactory_tasks P !! name) as [[|m0 ms]|] eqn:Hreg;
      try discriminate.
    intros [= <- <- <-]. split; [reflexivity|]. split; [exact Herr|].
    exists task. split; [reflexivity|]. split; [exact Hpre|].
    split; [by rewrite Hparts|]. split; [discriminate|].
    by exists name, rest.
  - intros (-> & Herr & task & -> & Hpre & -> & Hne & name & rest & Hparts & Hreg).
    rewrite Herr, Hpre. simpl. rewrite Hparts, Hreg.
    by destruct metrics.
Qed.

Lemma analyze_line_skipped stats n a ln :
  contributing P ln = None ->
  fst (fst (analyze_line P (stats, n, a) ln)) = stats.
Proof.
  intros Hc. unfold analyze_line. rewrite Hc. by destruct ln as [| |[]].
Qed.

Lemma analyze_line_contributing stats n a item er parts metrics :
  contributing P (Row (JObj item)) = Some (er, parts, metrics) ->
  analyze_line P (stats, n, a) (Row (JObj item)) =
    (fold_left
       (accumulate metrics er (dget "inference_duration_sec" item)
          (dget "evaluation_duration_sec" item))
       (hierarchies parts) stats, S n, S a).
Proof. intros Hc. unfold analyze_line. by rewrite Hc. Qed.

(** A record whose evaluation results are not valid never reaches the
    statements that accumulate, the timing ones included. *)
Lemma invalid_evaluation_not_contributing item :
  is_valid_eval (dget "evaluation_results" item) = false ->
  contributing P (Row (JObj item)) = None.
Proof.
  unfold contributing, is_valid_eval.
  destruct (dget "evaluation_results" item); try reflexivity.
  destruct (truthy _); [reflexivity|discriminate].
Qed.
End AnalyzeFacts.


(** * A run in which nothing fails settles the store *)

Section CleanRun.
Variable H : host.
Variable P : Pipeline.

Lemma dmem_dset_ne k k' v d : k <> k' -> dmem k' (dset k v d) = dmem k' d.
Proof.
  intros Hne. induction d as [|[k0 v0] d IH]; simpl.
  - destruct (String.eqb k' k) eqn:Hk; [|reflexivity].
    apply String.eqb_eq in Hk. congruence.
  - destruct (String.eqb k k0) eqn:Hk; simpl.
    + apply String.eqb_eq in Hk. subst k0.
      destruct (String.eqb k' k) eqn:Hk'; [|reflexivity].
      apply String.eqb_eq in Hk'. congruence.
    + destruct (String.eqb k' k0); [reflexivity|exact IH].
Qed.

Lemma find_runner_dset k v item :
  k <> "task_config" ->
  find_runner H P (dset k v item) = find_runner H P item.
Proof.
  intros Hne. unfold find_runner, dget_default.
  by rewrite dmem_dset_ne, dget_dset_ne.
Qed.

Lemma runnable_dset k v item :
  k <> "task_config" -> runnable H P item -> runnable H P (dset k v item).
Proof.
  intros Hne (r & Hr & Hrel). exists r. by rewrite find_runner_dset.
Qed.

Lemma fresh_infer_worker item :
  fresh H P item -> answered H P (_infer_worker H P item).
Proof.
  intros ((k & Hk) & Ha & (p & Hp & Hpf) & He & (r & Hr & Hrel)).
  destruct Hrel as (Hgen & Hcall & Heval).
  destruct (Hcall (JStr p) (dget_default "eval_args" (JObj []) item))
    as (a & Hcalled & Hvalid).
  assert (Htry : infer_try H P item = Ok (dset "answer" a item)).
  { unfold infer_try. rewrite Hr, Hp. simpl. by rewrite Hpf, Hcalled. }
  unfold _infer_worker. rewrite Htry.
  split; [|split; [|split]].
  - exists k. by rewrite !dget_dset_ne.
  - rewrite dget_dset_ne by discriminate. by rewrite dget_dset_eq.
  - by rewrite !dget_dset_ne.
  - apply runnable_dset; [discriminate|].
    apply runnable_dset; [discriminate|]. by exists r.
Qed.

Lemma answered_eval_worker item :
  answered H P item -> evaluated (_eval_worker H P item).
Proof.
  intros ((k & Hk) & Ha & He & (r & Hr & Hrel)).
  destruct Hrel as (Hgen & Hcall & Heval).
  destruct (Heval (dget "answer" item) item) as (e & Hev & Hvalid).
  assert (Htry : eval_try H P item = Ok (dset "evaluation_results" e item)).
  { unfold eval_try. by rewrite Hr, Hev. }
  unfold _eval_worker. rewrite Htry.
  split; [|split].
  - exists k. by rewrite !dget_dset_ne.
  - by rewrite !dget_dset_ne.
  - rewrite dget_dset_ne by discriminate. by rewrite dget_dset_eq.
Qed.

(** Records of a store that was written from a map. *)
Lemma rows_line_record (Q : obj -> Prop) vs ln k r :
  List.Forall Q vs ->
  In ln (List.map (fun o => Row (JObj o)) vs) ->
  line_record ln = Some (k, r) -> Q r /\ In r vs.
Proof.
  intros HQ Hin Hrec. apply in_map_iff in Hin as (o & <- & Ho).
  simpl in Hrec. destruct (key_of (dget "sample_id" o)); [|discriminate].
  injection Hrec as <- <-. split; [|exact Ho].
  rewrite List.Forall_forall in HQ. by apply HQ.
Qed.

Lemma map_set_nonempty k v (m : items_map) : map_set k v m <> [].
Proof. destruct m as [|[k0 v0] m]; simpl; [discriminate|]. by destruct (decide _). Qed.

(** The map after the drain loop: an entry is the worker's record of a
    completed task filed under its key, or an entry no task replaced. *)
Lemma infer_drain_map completed :
  (forall t, In t completed -> exists k, key_of (dget "sample_id" t) = Some k) ->
  forall m (fs : fsys),
  List.NoDup (List.map fst m) ->
  List.NoDup (List.map fst (fst (fst (infer_drain H P completed m fs)))) /\
  (m <> [] -> fst (fst (infer_drain H P completed m fs)) <> []) /\
  (forall p, p <> log_file P ->
     snd (fst (infer_drain H P completed m fs)) !! p = fs !! p) /\
  forall k v,
    map_get k (fst (fst (infer_drain H P completed m fs))) = Some v ->
    (exists t, In t completed /\ key_of (dget "sample_id" t) = Some k /\
               v = _infer_worker H P t) \/
    (map_get k m = Some v /\
     forall t, In t completed -> key_of (dget "sample_id" t) <> Some k).
Proof.
  induction completed as [|t rest IH]; intros Hk m fs Hnd; simpl.
  - split; [exact Hnd|]. split; [done|]. split; [done|].
    intros k v Hv. right. split; [exact Hv|]. intros t [].
  - destruct (Hk t) as [kt Hkt]; [by left|].
    rewrite (key_of_truthy _ _ Hkt), Hkt.
    destruct (IH (fun t' Hin => Hk t' (or_intror Hin))
                (map_set kt (_infer_worker H P t) m)
                (_append_to_infer_log H P (_infer_worker H P t) fs)
                (map_set_nodup _ _ _ Hnd))
      as (Hnd' & Hne' & Hother & Hvals).
    split; [exact Hnd'|]. split; [intros _; apply Hne', map_set_nonempty|].
    split.
    + intros p Hp. rewrite Hother by exact Hp.
      unfold _append_to_infer_log, append_line.
      destruct (negb _); [reflexivity|].
      destruct (append_fails _ _); [reflexivity|].
      by rewrite lookup_insert_ne.
    + intros k v Hv. destruct (Hvals k v Hv) as [(t' & Hin & Hkey & ->)|[Hold Hno]].
      * left. exists t'. split; [by right|done].
      * rewrite map_get_set in Hold.
        destruct (decide (kt = k)) as [->|Hne].
        -- injection Hold as <-. left. exists t. split; [by left|done].
        -- right. split; [exact Hold|].
           intros t' [<-|Hin]; [congruence|by apply Hno].
Qed.

Lemma eval_drain_map completed :
  (forall t, In t completed -> exists k, key_of (dget "sample_id" t) = Some k) ->
  forall m (fs : fsys),
  List.NoDup (List.map fst m) ->
  List.NoDup (List.map fst (fst (fst (eval_drain H P completed m fs)))) /\
  (m <> [] -> fst (fst (eval_drain H P completed m fs)) <> []) /\
  (forall p, p <> eval_log_file P ->
     snd (fst (eval_drain H P completed m fs)) !! p = fs !! p) /\
  forall k v,
    map_get k (fst (fst (eval_drain H P completed m fs))) = Some v ->
    (exists t, In t completed /\ key_of (dget "sample_id" t) = Some k /\
               v = _eval_worker H P t) \/
    (map_get k m = Some v /\
     forall t, In t completed -> key_of (dget "sample_id" t) <> Some k).
Proof.
  induction completed as [|t rest IH]; intros Hk m fs Hnd; simpl.
  - split; [exact Hnd|]. split; [done|]. split; [done|].
    intros k v Hv. right. split; [exact Hv|]. intros t [].
  - destruct (Hk t) as [kt Hkt]; [by left|].
    rewrite (key_of_truthy _ _ Hkt), Hkt.
    destruct (IH (fun t' Hin => Hk t' (or_intror Hin))
                (map_set kt (_eval_worker H P t) m)
                (_append_to_eval_log H P (_eval_worker H P t) fs)
                (map_set_nodup _ _ _ Hnd))
      as (Hnd' & Hne' & Hother & Hvals).
    split; [exact Hnd'|]. split; [intros _; apply Hne', map_set_nonempty|].
    split.
    + intros p Hp. rewrite Hother by exact Hp.
      unfold _append_to_eval_log, append_line.
      destruct (negb _); [reflexivity|].
      destruct (append_fails _ _); [reflexivity|].
      by rewrite lookup_insert_ne.
    + intros k v Hv. destruct (Hvals k v Hv) as [(t' & Hin & Hkey & ->)|[Hold Hno]].
      * left. exists t'. split; [by right|done].
      * rewrite map_get_set in Hold.
        destruct (decide (kt = k)) as [->|Hne].
        -- injection Hold as <-. left. exists t. split; [by left|done].
        -- right. split; [exact Hold|].
           intros t' [<-|Hin]; [congruence|by apply Hno].
Qed.

(** Values of the loader maps of a store written from records that all
    satisfy [Q], when the stage log is absent. *)
Lemma infer_map_values (Q : obj -> Prop) (fs : fsys) vs k v :
  fs !! output_file P = Some (Lines (List.map (fun o => Row (JObj o)) vs)) ->
  List.Forall Q vs ->
  fs !! log_file P = None ->
  map_get k (fst (infer_replayed P fs)) = Some v -> Q v.
Proof.
  intros Hout HQ Hlog Hget. rewrite infer_replayed_get in Hget.
  unfold lines_at in Hget. rewrite Hlog, Hout in Hget. simpl in Hget.
  apply last_record_In in Hget as (ln & Hin & Hrec).
  by destruct (rows_line_record Q vs ln k v HQ Hin Hrec).
Qed.

Lemma eval_map_values (Q : obj -> Prop) (fs : fsys) vs k v :
  (forall a b, Q a -> Q b ->
     Q (dset "evaluation_results" (dget "evaluation_results" b) a)) ->
  fs !! output_file P = Some (Lines (List.map (fun o => Row (JObj o)) vs)) ->
  List.Forall Q vs ->
  fs !! eval_log_file P = None ->
  map_get k (fst (eval_replayed P fs)) = Some v -> Q v.
Proof.
  intros Hclosed Hout HQ Hlog Hget. rewrite eval_replayed_get in Hget.
  unfold lines_at in Hget. rewrite Hlog, Hout in Hget. simpl in Hget.
  rewrite app_nil_r in Hget.
  assert (Hall : forall r,
            In r (records_for k (List.map (fun o => Row (JObj o)) vs)) -> Q r).
  { intros r Hr. apply records_for_In in Hr as (ln & Hin & Hrec).
    by destruct (rows_line_record Q vs ln k r HQ Hin Hrec). }
  destruct (records_for k _) as [|first later]; [discriminate|].
  simpl in Hget. injection Hget as <-.
  destruct (last_with_eval later) as [r|] eqn:Hl.
  - apply Hclosed; [apply Hall; by left|].
    apply Hall. right. by apply last_with_eval_In.
  - apply Hall. by left.
Qed.

Lemma answered_absorb a b :
  answered H P a -> answered H P b ->
  answered H P (dset "evaluation_results" (dget "evaluation_results" b) a).
Proof.
  intros ((k & Hk) & Ha & He & Hr) (_ & _ & Heb & _).
  split; [|split; [|split]].
  - exists k. by rewrite dget_dset_ne.
  - by rewrite dget_dset_ne.
  - by rewrite dget_dset_eq.
  - by apply runnable_dset.
Qed.

Hypothesis Hff : fault_free (faults H).
Hypothesis Hperm : forall l, Permutation (as_completed H l) l.

Lemma store_rewrite_done m (fs : fsys) : snd (store_rewrite H P m fs) = Done.
Proof.
  apply safe_rewrite_done_iff.
  destruct (Hff (output_file P ++ ".tmp_rewrite")) as (_ & Ho & Hw & _).
  destruct (Hff (output_file P)) as (_ & _ & _ & Hm & _).
  repeat split; try assumption. simpl. by eexists.
Qed.

Lemma run_inference_tasks (fs : fsys) m tasks :
  _load_and_prepare_inference_tasks H P fs = Some (m, tasks) ->
  tasks <> [] ->
  run_inference_multithread H P fs =
    let r := infer_drain H P (as_completed H tasks) m fs in
    if snd r then _merge_infer_log_to_main H P (fst (fst r)) (snd (fst r))
    else snd (fst r).
Proof.
  intros Hload Hne. unfold run_inference_multithread. rewrite Hload.
  destruct tasks as [|t0 rest]; [done|].
  by destruct (infer_drain _ _ _ _ _) as [[m' fs'] ok].
Qed.

Lemma evaluate_tasks (fs : fsys) m tasks :
  _load_for_evaluation H P fs = Some (m, tasks) ->
  tasks <> [] ->
  evaluate_loaded H P fs =
    let r := eval_drain H P (as_completed H tasks) m fs in
    if snd r then _merge_eval_log_to_main H P (fst (fst r)) (snd (fst r))
    else snd (fst r).
Proof.
  intros Hload Hne. unfold evaluate_loaded. rewrite Hload.
  destruct tasks as [|t0 rest]; [done|].
  by destruct (eval_drain _ _ _ _ _) as [[m' fs'] ok].
Qed.

Lemma inference_stage (fs : fsys) :
  store_of P (fresh H P) fs ->
  store_of P (answered H P) (run_inference_multithread H P fs).
Proof.
  intros (vs & Hout & HQ & Hlog & Hev).
  assert (Hex : exists_file fs (output_file P) = true)
    by (apply exists_file_true; by rewrite Hout).
  assert (Hnl : exists_file fs (log_file P) = false)
    by (by apply exists_file_false).
  set (tasks := infer_tasks (infer_replayed P fs)).
  set (m := fst (infer_replayed P fs)).
  assert (Hload : _load_and_prepare_inference_tasks H P fs = Some (m, tasks)).
  { apply load_infer_ok; [exact Hex| |].
    - by destruct (Hff (output_file P)) as (Hr & _).
    - by destruct (Hff (log_file P)) as (Hr & _). }
  assert (Hvals : forall k v, map_get k m = Some v -> fresh H P v)
    by (intros k v; by apply (infer_map_values (fresh H P) fs vs)).
  assert (Htask : forall k v, map_get k m = Some v -> In v tasks).
  { intros k v Hget. apply infer_tasks_spec; [apply infer_replayed_inv|].
    exists k. split; [exact Hget|].
    destruct (Hvals k v Hget) as (_ & Ha & (p & Hp & Hpf) & _).
    rewrite Ha, Hp. simpl. by rewrite Hpf. }
  destruct (decide (tasks = [])) as [Hempty|Hne].
  - unfold run_inference_multithread. rewrite Hload, Hempty, Hnl.
    exists vs. split; [exact Hout|]. split; [|done].
    destruct vs as [|v vs]; [constructor|]. exfalso.
    inversion HQ as [|? ? Hv _]; subst.
    destruct Hv as ((k & Hk) & _).
    assert (Hsome : is_Some (map_get k m)).
    { subst m. rewrite infer_replayed_get. unfold lines_at.
      rewrite Hlog, Hout. simpl.
      destruct (last_record k _); [by eexists|].
      rewrite Hk. destruct (decide (k = k)); [by eexists|congruence]. }
    destruct Hsome as [v' Hv']. pose proof (Htask k v' Hv') as Hin.
    rewrite Hempty in Hin. destruct Hin.
  - rewrite (run_inference_tasks fs m tasks Hload Hne).
    assert (Hin_tasks : forall t, In t (as_completed H tasks) ->
              exists k, map_get k m = Some t).
    { intros t Hin. apply (Permutation_in _ (Hperm tasks)) in Hin.
      apply infer_tasks_spec in Hin; [|apply infer_replayed_inv].
      destruct Hin as (k & Hget & _). by exists k. }
    assert (Hkeyed : forall t, In t (as_completed H tasks) ->
              exists k, key_of (dget "sample_id" t) = Some k).
    { intros t Hin. destruct (Hin_tasks t Hin) as [k Hget]. exists k.
      by apply (infer_replayed_keyed P fs). }
    assert (Hnd : List.NoDup (List.map fst m))
      by (by destruct (infer_replayed_inv P fs)).
    assert (Hmne : m <> []).
    { intros Hm. destruct tasks as [|t0 rest] eqn:Ht; [done|].
      assert (Hin : In t0 (infer_tasks (infer_replayed P fs)))
        by (fold tasks; rewrite Ht; by left).
      apply infer_tasks_spec in Hin; [|apply infer_replayed_inv].
      destruct Hin as (k & Hget & _). fold m in Hget. by rewrite Hm in Hget. }
    destruct (infer_drain_map (as_completed H tasks) Hkeyed m fs Hnd)
      as (Hnd' & Hne' & Hother & Hmap).
    assert (Ha : append_fails (faults H) (log_file P) = false)
      by (by destruct (Hff (log_file P)) as (_ & _ & _ & _ & _ & Ha)).
    destruct (infer_drain_log H P (as_completed H tasks) m fs Hkeyed Ha)
      as [Hok _].
    destruct (infer_drain H P (as_completed H tasks) m fs) as [[m' fs'] ok].
    simpl in *. subst ok.
    specialize (Hne' Hmne).
    exists (map_values m'). split; [|split; [|split]].
    + apply merge_store_written; [exact Hne'|apply log_ne_output|].
      apply store_rewrite_done.
    + apply List.Forall_forall. intros v Hv.
      apply in_map_iff in Hv as ([k v0] & <- & Hin). simpl.
      apply (map_get_In _ _ _ Hnd') in Hin.
      destruct (Hmap k v0 Hin) as [(t & Ht & _ & ->)|[Hold Hno]].
      * apply fresh_infer_worker. destruct (Hin_tasks t Ht) as [kt Hget].
        by apply (Hvals kt).
      * exfalso. pose proof (Htask k v0 Hold) as Hin0.
        apply (Permutation_in _ (Permutation_sym (Hperm tasks))) in Hin0.
        apply (Hno v0 Hin0). by apply (infer_replayed_keyed P fs).
    + apply merge_log_removed; [exact Hne'|apply store_rewrite_done|].
      by destruct (Hff (log_file P)) as (_ & _ & _ & _ & Hr & _).
    + unfold _merge_infer_log_to_main. rewrite merge_other.
      * rewrite Hother; [exact Hev|]. apply not_eq_sym, log_ne_eval_log.
      * apply not_eq_sym, log_ne_eval_log.
      * apply eval_log_ne_output.
      * apply eval_log_ne_temp.
Qed.

Lemma evaluation_stage (fs : fsys) :
  store_of P (answered H P) fs ->
  store_of P evaluated (evaluate_and_save H P fs).
Proof.
  intros (vs & Hout & HQ & Hlog & Hev).
  assert (Hex : exists_file fs (output_file P) = true)
    by (apply exists_file_true; by rewrite Hout).
  assert (Hnl : exists_file fs (log_file P) = false)
    by (by apply exists_file_false).
  assert (Hnel : exists_file fs (eval_log_file P) = false)
    by (by apply exists_file_false).
  unfold evaluate_and_save, pre_evaluation_merge. rewrite Hnl.
  set (tasks := eval_tasks (eval_replayed P fs)).
  set (m := fst (eval_replayed P fs)).
  assert (Hload : _load_for_evaluation H P fs = Some (m, tasks)).
  { apply load_eval_ok; [exact Hex| |].
    - by destruct (Hff (output_file P)) as (Hr & _).
    - by destruct (Hff (eval_log_file P)) as (Hr & _). }
  assert (Hvals : forall k v, map_get k m = Some v -> answered H P v).
  { intros k v. apply (eval_map_values (answered H P) fs vs); try done.
    apply answered_absorb. }
  assert (Htask : forall k v, map_get k m = Some v -> In v tasks).
  { intros k v Hget. apply eval_tasks_spec; [apply eval_replayed_inv|].
    exists k. split; [exact Hget|].
    destruct (Hvals k v Hget) as (_ & Ha & He & _).
    by rewrite Ha, He. }
  destruct (decide (tasks = [])) as [Hempty|Hne].
  - unfold evaluate_loaded. rewrite Hload, Hempty, Hnel.
    exists vs. split; [exact Hout|]. split; [|done].
    destruct vs as [|v vs]; [constructor|]. exfalso.
    inversion HQ as [|? ? Hv _]; subst.
    destruct Hv as ((k & Hk) & _).
    assert (Hsome : is_Some (map_get k m)).
    { subst m. rewrite eval_replayed_get. unfold lines_at.
      rewrite Hev, Hout. simpl. unfold records_for. simpl. rewrite Hk.
      destruct (decide (k = k)); [|congruence]. simpl. by eexists. }
    destruct Hsome as [v' Hv']. pose proof (Htask k v' Hv') as Hin.
    rewrite Hempty in Hin. destruct Hin.
  - rewrite (evaluate_tasks fs m tasks Hload Hne).
    assert (Hin_tasks : forall t, In t (as_completed H tasks) ->
              exists k, map_get k m = Some t).
    { intros t Hin. apply (Permutation_in _ (Hperm tasks)) in Hin.
      apply eval_tasks_spec in Hin; [|apply eval_replayed_inv].
      destruct Hin as (k & Hget & _). by exists k. }
    assert (Hkeyed : forall t, In t (as_completed H tasks) ->
              exists k, key_of (dget "sample_id" t) = Some k).
    { intros t Hin. destruct (Hin_tasks t Hin) as [k Hget]. exists k.
      by apply (eval_replayed_keyed P fs). }
    assert (Hnd : List.NoDup (List.map fst m))
      by (by destruct (eval_replayed_inv P fs)).
    assert (Hmne : m <> []).
    { intros Hm. destruct tasks as [|t0 rest] eqn:Ht; [done|].
      assert (Hin : In t0 (eval_tasks (eval_replayed P fs)))
        by (fold tasks; rewrite Ht; by left).
      apply eval_tasks_spec in Hin; [|apply eval_replayed_inv].
      destruct Hin as (k & Hget & _). fold m in Hget. by rewrite Hm in Hget. }
    destruct (eval_drain_map (as_completed H tasks) Hkeyed m fs Hnd)
      as (Hnd' & Hne' & Hother & Hmap).
    assert (Ha : append_fails (faults H) (eval_log_file P) = false)
      by (by destruct (Hff (eval_log_file P)) as (_ & _ & _ & _ & _ & Ha)).
    destruct (eval_drain_log H P (as_completed H tasks) m fs Hkeyed Ha)
      as [Hok _].
    destruct (eval_drain H P (as_completed H tasks) m fs) as [[m' fs'] ok].
    simpl in *. subst ok.
    specialize (Hne' Hmne).
    exists (map_values m'). split; [|split; [|split]].
    + apply merge_store_written; [exact Hne'|apply eval_log_ne_output|].
      apply store_rewrite_done.
    + apply List.Forall_forall. intros v Hv.
      apply in_map_iff in Hv as ([k v0] & <- & Hin). simpl.
      apply (map_get_In _ _ _ Hnd') in Hin.
      destruct (Hmap k v0 Hin) as [(t & Ht & _ & ->)|[Hold Hno]].
      * apply answered_eval_worker. destruct (Hin_tasks t Ht) as [kt Hget].
        by apply (Hvals kt).
      * exfalso. pose proof (Htask k v0 Hold) as Hin0.
        apply (Permutation_in _ (Permutation_sym (Hperm tasks))) in Hin0.
        apply (Hno v0 Hin0). by apply (eval_replayed_keyed P fs).
    + unfold _merge_eval_log_to_main. rewrite merge_other.
      * rewrite Hother; [exact Hlog|]. apply log_ne_eval_log.
      * apply log_ne_eval_log.
      * apply log_ne_output.
      * apply log_ne_temp.
    + apply merge_log_removed; [exact Hne'|apply store_rewrite_done|].
      by destruct (Hff (eval_log_file P)) as (_ & _ & _ & _ & Hr & _).
Qed.

Lemma analysis_stage (Q : obj -> Prop) (fs : fsys) :
  report_apart P ->
  store_of P Q fs -> store_of P Q (analyze_hierarchical_metrics H P fs).
Proof.
  intros Hapart (vs & Hout & HQ & Hlog & Hev).
  assert (Hsame : forall p,
            In p [output_file P; log_file P; eval_log_file P] ->
            analyze_hierarchical_metrics H P fs !! p = fs !! p).
  { intros p Hp. destruct (Hapart p Hp) as [Hr Ht].
    unfold analyze_hierarchical_metrics.
    destruct (_ || _); [reflexivity|].
    destruct (fs !! output_file P) as [c|]; [|reflexivity].
    destruct (read_fails _ _); [reflexivity|].
    destruct (collect_stats P (file_lines c)) as [[stats n] a].
    destruct n; [reflexivity|]. destruct a; [reflexivity|].
    by rewrite safe_rewrite_other by (by apply not_eq_sym). }
  exists vs. rewrite !Hsame by (simpl; auto). done.
Qed.

Lemma generated_fresh item :
  well_configured P -> In item (generated_data P) -> fresh H P item.
Proof.
  intros Hwc Hin. unfold generated_data in Hin.
  apply in_flat_map in Hin as (cfg & Hcfg & Hin).
  destruct (task_runners P !! task_path cfg) as [r|] eqn:Hr; [|destruct Hin].
  apply in_map_iff in Hin as (i & <- & _).
  destruct (Hwc cfg r Hcfg Hr) as (Hrel & Hpath & Hne).
  pose proof Hrel as (Hgen & _).
  destruct (Hgen (initial_item P cfg i)) as (p & md & Hp & Hpf).
  unfold prompted_item. rewrite Hp.
  split; [|split; [|split; [|split]]].
  - exists (KStr (generate_unique_id (task_path cfg) i)). simpl.
    unfold generate_unique_id.
    destruct (task_path cfg) as [|c tp]; [done|reflexivity].
  - reflexivity.
  - exists p. split; [reflexivity|exact Hpf].
  - reflexivity.
  - exists r. split; [|exact Hrel].
    assert (Ht : truthy (JStr (task_path cfg)) = true)
      by (simpl; destruct (task_path cfg); [done|reflexivity]).
    unfold find_runner.
    replace (dget_default "task_config" (JObj [])
               (dset "metadata" md
                  (dset "prompt" (JStr p) (initial_item P cfg i))))
      with (JObj (config_dict cfg)) by reflexivity.
    rewrite Hpath, Ht. simpl. by rewrite Hr.
Qed.

Lemma generation_stage (fs : fsys) :
  well_configured P ->
  fs !! output_file P = None ->
  fs !! log_file P = None ->
  fs !! eval_log_file P = None ->
  store_of P (fresh H P) (snd (generate_prompts H P fs)).
Proof.
  intros Hwc Hno Hnl Hne. unfold generate_prompts.
  rewrite (proj2 (exists_file_false fs (output_file P)) Hno).
  rewrite (proj2 (exists_file_false fs (log_file P)) Hnl).
  rewrite (proj2 (exists_file_false fs (eval_log_file P)) Hne). simpl.
  pose proof (safe_rewrite_done_iff H (JArr (List.map JObj (generated_data P)))
                (output_file P) false fs) as Hiff.
  assert (Hd : snd (_safe_rewrite_file H (JArr (List.map JObj (generated_data P)))
                      (output_file P) false fs) = Done).
  { apply Hiff.
    destruct (Hff (output_file P ++ ".tmp_rewrite")) as (_ & Ho & Hw & _).
    destruct (Hff (output_file P)) as (_ & _ & _ & Hm & _).
    repeat split; try assumption. simpl. by eexists. }
  destruct (safe_rewrite_done H _ _ _ _ Hd) as (c & Hc & Hfs).
  simpl in Hc. injection Hc as <-.
  destruct (_safe_rewrite_file _ _ _ _ _) as [fs' out]. simpl in *. subst out fs'.
  simpl. exists (generated_data P). split; [|split; [|split]].
  - rewrite lookup_insert_eq. by rewrite jsonl_of_objects.
  - apply List.Forall_forall. intros item Hin. by apply generated_fresh.
  - rewrite lookup_insert_ne by apply not_eq_sym, log_ne_output.
    rewrite lookup_delete_ne by apply not_eq_sym, log_ne_temp. done.
  - rewrite lookup_insert_ne by apply not_eq_sym, eval_log_ne_output.
    rewrite lookup_delete_ne by apply not_eq_sym, eval_log_ne_temp. done.
Qed.

Lemma first_run_settles (fs : fsys) :
  well_configured P -> report_apart P ->
  fs !! output_file P = None ->
  fs !! log_file P = None ->
  fs !! eval_log_file P = None ->
  store_of P evaluated (run_all H P fs).
Proof.
  intros Hwc Hapart Hno Hnl Hne. unfold run_all.
  pose proof (generation_stage fs Hwc Hno Hnl Hne) as Hgen.
  assert (Hex : exists_file (snd (generate_prompts H P fs)) (output_file P) = true).
  { destruct Hgen as (vs & Hout & _). apply exists_file_true. by rewrite Hout. }
  rewrite Hex. simpl.
  apply analysis_stage; [exact Hapart|].
  apply evaluation_stage, inference_stage, Hgen.
Qed.

Lemma evaluated_settled vs :
  List.Forall evaluated vs ->
  Forall settled_line (List.map (fun o => Row (JObj o)) vs).
Proof.
  intros HQ. apply Forall_forall. intros ln Hin k item Hrec.
  apply list_elem_of_In in Hin.
  destruct (rows_line_record evaluated vs ln k item HQ Hin Hrec)
    as [(_ & Ha & He) _].
  by split.
Qed.
End CleanRun.

(** * Files a stage leaves alone *)

Section StageFrames.
Variable H : host.
Variable P : Pipeline.

Lemma append_line_other path item (fs : fsys) p :
  p <> path -> append_line H path item fs !! p = fs !! p.
Proof.
  intros Hne. unfold append_line.
  destruct (append_fails _ _); [reflexivity|].
  by rewrite lookup_insert_ne.
Qed.

Lemma infer_drain_other completed : forall m (fs : fsys) p,
  p <> log_file P ->
  snd (fst (infer_drain H P completed m fs)) !! p = fs !! p.
Proof.
  induction completed as [|t rest IH]; intros m fs p Hne; simpl; [reflexivity|].
  assert (Hap : _append_to_infer_log H P (_infer_worker H P t) fs !! p = fs !! p).
  { unfold _append_to_infer_log. destruct (negb _); [reflexivity|].
    by apply append_line_other. }
  destruct (truthy (dget "sample_id" t)).
  - destruct (key_of (dget "sample_id" t)); simpl; [|exact Hap].
    by rewrite IH.
  - by rewrite IH.
Qed.

Lemma eval_drain_other completed : forall m (fs : fsys) p,
  p <> eval_log_file P ->
  snd (fst (eval_drain H P completed m fs)) !! p = fs !! p.
Proof.
  induction completed as [|t rest IH]; intros m fs p Hne; simpl; [reflexivity|].
  assert (Hap : _append_to_eval_log H P (_eval_worker H P t) fs !! p = fs !! p).
  { unfold _append_to_eval_log. destruct (negb _); [reflexivity|].
    by apply append_line_other. }
  destruct (truthy (dget "sample_id" t)).
  - destruct (key_of (dget "sample_id" t)); simpl; [|exact Hap].
    by rewrite IH.
  - by rewrite IH.
Qed.

Lemma not_in_inference_files p :
  ~ In p (inference_files P) ->
  p <> output_file P /\ p <> output_file P ++ ".tmp_rewrite" /\ p <> log_file P.
Proof.
  intros Hn. unfold inference_files in Hn. simpl in Hn.
  repeat split; intros ->; apply Hn; auto.
Qed.

Lemma not_in_evaluation_files p :
  ~ In p (evaluation_files P) ->
  ~ In p (inference_files P) /\ p <> eval_log_file P.
Proof.
  intros Hn. unfold evaluation_files in Hn.
  split.
  - intros Hin. apply Hn. apply in_or_app. by left.
  - intros ->. apply Hn. apply in_or_app. right. by left.
Qed.

Lemma run_inference_other (fs : fsys) p :
  ~ In p (inference_files P) ->
  run_inference_multithread H P fs !! p = fs !! p.
Proof.
  intros Hn. destruct (not_in_inference_files p Hn) as (Ho & Ht & Hl).
  unfold run_inference_multithread.
  destruct (_load_and_prepare_inference_tasks H P fs) as [[m tasks]|];
    [|reflexivity].
  destruct tasks as [|t0 rest].
  - destruct (exists_file fs (log_file P)); [|reflexivity].
    by apply merge_other.
  - pose proof (infer_drain_other (as_completed H (t0 :: rest)) m fs p Hl) as Hd.
    destruct (infer_drain H P (as_completed H (t0 :: rest)) m fs)
      as [[m' fs'] ok].
    simpl in Hd. destruct ok; [|exact Hd].
    unfold _merge_infer_log_to_main. by rewrite merge_other.
Qed.

Lemma evaluate_loaded_other (fs : fsys) p :
  p <> output_file P -> p <> output_file P ++ ".tmp_rewrite" ->
  p <> eval_log_file P ->
  evaluate_loaded H P fs !! p = fs !! p.
Proof.
  intros Ho Ht Hl. unfold evaluate_loaded.
  destruct (_load_for_evaluation H P fs) as [[m tasks]|]; [|reflexivity].
  destruct tasks as [|t0 rest].
  - destruct (exists_file fs (eval_log_file P)); [|reflexivity].
    by apply merge_other.
  - pose proof (eval_drain_other (as_completed H (t0 :: rest)) m fs p Hl) as Hd.
    destruct (eval_drain H P (as_completed H (t0 :: rest)) m fs)
      as [[m' fs'] ok].
    simpl in Hd. destruct ok; [|exact Hd].
    unfold _merge_eval_log_to_main. by rewrite merge_other.
Qed.

Lemma evaluate_and_save_other (fs : fsys) p :
  ~ In p (evaluation_files P) ->
  evaluate_and_save H P fs !! p = fs !! p.
Proof.
  intros Hn. destruct (not_in_evaluation_files p Hn) as (Hi & He).
  destruct (not_in_inference_files p Hi) as (Ho & Ht & Hl).
  unfold evaluate_and_save, pre_evaluation_merge.
  destruct (exists_file fs (log_file P)).
  - destruct (_load_and_prepare_inference_tasks H P fs) as [[m tasks]|];
      [|reflexivity].
    assert (Hm : _merge_infer_log_to_main H P m fs !! p = fs !! p)
      by (by apply merge_other).
    destruct (exists_file _ _); [exact Hm|].
    by rewrite evaluate_loaded_other.
  - by apply evaluate_loaded_other.
Qed.

Lemma analyze_other (fs : fsys) p :
  ~ In p (report_files P) ->
  analyze_hierarchical_metrics H P fs !! p = fs !! p.
Proof.
  intros Hn.
  assert (Hr : p <> report_filepath P) by (intros ->; apply Hn; by left).
  assert (Ht : p <> report_filepath P ++ ".tmp_rewrite")
    by (intros ->; apply Hn; right; by left).
  unfold analyze_hierarchical_metrics.
  destruct (_ || _); [reflexivity|].
  destruct (fs !! output_file P) as [c|]; [|reflexivity].
  destruct (read_fails _ _); [reflexivity|].
  destruct (collect_stats P (file_lines c)) as [[stats np] na].
  destruct np; [reflexivity|]. destruct na; [reflexivity|].
  by apply safe_rewrite_other.
Qed.

Lemma generate_prompts_other (fs : fsys) p :
  p <> output_file P -> p <> output_file P ++ ".tmp_rewrite" ->
  snd (generate_prompts H P fs) !! p = fs !! p.
Proof.
  intros Ho Ht. unfold generate_prompts.
  destruct (exists_file fs (output_file P)); [reflexivity|].
  destruct (_ || _); [reflexivity|].
  pose proof (safe_rewrite_other H (JArr (List.map JObj (generated_data P)))
                (output_file P) false fs p Ho Ht) as Hs.
  by destruct (_safe_rewrite_file _ _ _ _ _) as [fs' []].
Qed.

End StageFrames.

(** * What the workers change *)

Section WorkerFrames.
Variable H : host.
Variable P : Pipeline.

Lemma dmem_dset_eq k v d : dmem k (dset k v d) = true.
Proof.
  induction d as [|[k0 v0] d IH]; simpl.
  - by rewrite String.eqb_refl.
  - destruct (String.eqb k k0) eqn:Hk; simpl; by rewrite Hk.
Qed.

Lemma _infer_worker_shape item :
  exists a,
    _infer_worker H P item =
      dset "inference_duration_sec" (JNum (infer_elapsed H item))
        (dset "answer" a item).
Proof.
  unfold _infer_worker.
  destruct (infer_try H P item) as [it|ty msg] eqn:Htry.
  - apply infer_try_Ok in Htry as (a & ->). by exists a.
  - by eexists.
Qed.

Lemma _eval_worker_shape item :
  exists e,
    _eval_worker H P item =
      dset "evaluation_duration_sec" (JNum (eval_elapsed H item))
        (dset "evaluation_results" e item).
Proof.
  unfold _eval_worker.
  destruct (eval_try H P item) as [it|ty msg] eqn:Htry.
  - apply eval_try_Ok in Htry as (e & ->). by exists e.
  - by eexists.
Qed.

Lemma _infer_worker_other item k :
  k <> "answer" -> k <> "inference_duration_sec" ->
  dget k (_infer_worker H P item) = dget k item /\
  dmem k (_infer_worker H P item) = dmem k item.
Proof.
  intros Ha Hd. destruct (_infer_worker_shape item) as (a & ->).
  split.
  - rewrite !dget_dset_ne; [reflexivity|congruence..].
  - rewrite !dmem_dset_ne; [reflexivity|congruence..].
Qed.

Lemma _eval_worker_other item k :
  k <> "evaluation_results" -> k <> "evaluation_duration_sec" ->
  dget k (_eval_worker H P item) = dget k item /\
  dmem k (_eval_worker H P item) = dmem k item.
Proof.
  intros Ha Hd. destruct (_eval_worker_shape item) as (a & ->).
  split.
  - rewrite !dget_dset_ne; [reflexivity|congruence..].
  - rewrite !dmem_dset_ne; [reflexivity|congruence..].
Qed.

Lemma error_answer_invalid s :
  String.prefix "ERROR:" s = true -> is_valid_answer (JStr s) = false.
Proof.
  intros Hp. unfold is_valid_answer. simpl. rewrite Hp. simpl.
  apply andb_false_r.
Qed.

(** A valid answer in the worker's record is the response of the API. *)
Lemma _infer_worker_valid item :
  is_valid_answer (dget "answer" (_infer_worker H P item)) = true ->
  exists task_runner,
    find_runner H P item = Ok task_runner /\
    dget "prompt" item <> JNull /\
    eq_str (dget "prompt" item) "ERROR: Prompt generation failed" = false /\
    call_api task_runner (dget "prompt" item)
      (dget_default "eval_args" (JObj []) item) =
      Ok (dget "answer" (_infer_worker H P item)).
Proof.
  intros Hv.
  destruct (infer_try H P item) as [it|ty msg] eqn:Htry.
  - assert (Hans : dget "answer" (_infer_worker H P item) = dget "answer" it).
    { unfold _infer_worker. rewrite Htry. by rewrite dget_dset_ne. }
    rewrite Hans in *. clear Hans.
    unfold infer_try in Htry.
    destruct (find_runner H P item) as [r|ty msg]; [|discriminate].
    exists r. split; [reflexivity|].
    destruct (dget "prompt" item) eqn:Hp; try discriminate;
      try (simpl in Htry;
           destruct (call_api r _ _) as [resp|ty msg]; [|discriminate];
           injection Htry as <-; rewrite dget_dset_eq;
           split; [discriminate|]; split; reflexivity).
    simpl in Htry. simpl.
    destruct (String.eqb s "ERROR: Prompt generation failed").
    + injection Htry as <-. rewrite dget_dset_eq in Hv. discriminate.
    + destruct (call_api r _ _) as [resp|ty msg]; [|discriminate].
      injection Htry as <-. rewrite dget_dset_eq.
      split; [discriminate|]. split; reflexivity.
  - pose proof (_infer_worker_raise H P item ty msg Htry) as Hans.
    rewrite Hans in Hv. rewrite error_answer_invalid in Hv; [discriminate|].
    reflexivity.
Qed.

Lemma _eval_worker_valid item :
  is_valid_eval (dget "evaluation_results" (_eval_worker H P item)) = true ->
  exists task_runner,
    find_runner H P item = Ok task_runner /\
    evaluate_response task_runner (dget "answer" item) item =
      Ok (dget "evaluation_results" (_eval_worker H P item)).
Proof.
  intros Hv.
  destruct (eval_try H P item) as [it|ty msg] eqn:Htry.
  - assert (Hans : dget "evaluation_results" (_eval_worker H P item) =
                   dget "evaluation_results" it).
    { unfold _eval_worker. rewrite Htry. by rewrite dget_dset_ne. }
    rewrite Hans in *. clear Hans.
    unfold eval_try in Htry.
    destruct (find_runner H P item) as [r|ty msg]; [|discriminate].
    exists r. split; [reflexivity|].
    destruct (evaluate_response r _ _) as [resp|ty msg]; [|discriminate].
    injection Htry as <-. by rewrite dget_dset_eq.
  - pose proof (_eval_worker_raise H P item ty msg Htry) as Hans.
    rewrite Hans in Hv. simpl in Hv. discriminate.
Qed.

End WorkerFrames.

(** * Sample identifiers *)

Section UniqueIds.

Lemma pretty_N_char_free x : Ascii.eqb (pretty_N_char x) "_"%char = false.
Proof. unfold pretty_N_char. by repeat case_match. Qed.

Lemma pretty_N_go_free x : forall s,
  free_of "_" s = true -> free_of "_" (pretty_N_go x s) = true.
Proof.
  induction (N.lt_wf_0 x) as [x _ IH]; intros s Hs.
  assert (x = 0 \/ 0 < x)%N as [->|Hpos] by lia.
  - by rewrite pretty_N_go_0.
  - rewrite pretty_N_go_step by done. apply IH.
    + by apply N.div_lt.
    + simpl. by rewrite pretty_N_char_free.
Qed.

Lemma pretty_nat_free (n : nat) : free_of "_" (pretty n) = true.
Proof.
  unfold pretty, pretty_nat, pretty, pretty_N.
  destruct (decide _); [reflexivity|].
  by apply pretty_N_go_free.
Qed.

Lemma append_cons c (s t : string) : String c s ++ t = String c (s ++ t).
Proof. reflexivity. Qed.

Lemma append_nil_l (t : string) : "" ++ t = t.
Proof. reflexivity. Qed.

Lemma free_of_app c (a b : string) :
  free_of c (a ++ b) = free_of c a && free_of c b.
Proof.
  induction a as [|x a IH]; [reflexivity|].
  rewrite append_cons. simpl. rewrite IH. by rewrite andb_assoc.
Qed.

Lemma free_of_cons_same c s : free_of c (String c s) = false.
Proof. simpl. by rewrite Ascii.eqb_refl. Qed.

(** A string is cut at its last underscore in one way only. *)
Lemma last_underscore_unique (a b x y : string) :
  free_of "_" x = true -> free_of "_" y = true ->
  a ++ "_" ++ x = b ++ "_" ++ y -> a = b /\ x = y.
Proof.
  revert b. induction a as [|c a IH]; intros b Hx Hy Heq.
  - destruct b as [|d b].
    + change (String "_" x = String "_" y) in Heq. by injection Heq as ->.
    + change (String "_" x = String d (b ++ String "_" y)) in Heq.
      injection Heq as <- ->.
      rewrite free_of_app, free_of_cons_same in Hx.
      by rewrite andb_false_r in Hx.
  - destruct b as [|d b].
    + change (String c (a ++ String "_" x) = String "_" y) in Heq.
      injection Heq as -> <-.
      rewrite free_of_app, free_of_cons_same in Hy.
      by rewrite andb_false_r in Hy.
    + change (String c (a ++ "_" ++ x) = String d (b ++ "_" ++ y)) in Heq.
      injection Heq as -> Heq.
      destruct (IH b Hx Hy Heq) as [-> ->]. by split.
Qed.

Lemma generate_unique_id_inj p i q j :
  generate_unique_id p i = generate_unique_id q j -> p = q /\ i = j.
Proof.
  unfold generate_unique_id. intros Heq.
  apply last_underscore_unique in Heq as [-> Hpq];
    try apply pretty_nat_free.
  split; [reflexivity|]. by apply (inj pretty).
Qed.

Lemma generate_unique_id_key p i :
  key_of (JStr (generate_unique_id p i)) = Some (KStr (generate_unique_id p i)).
Proof.
  unfold key_of, truthy.
  destruct (String.eqb (generate_unique_id p i) "") eqn:He; [|reflexivity].
  apply String.eqb_eq in He. unfold generate_unique_id in He.
  exfalso. destruct p; discriminate.
Qed.

Variable P : Pipeline.

Lemma prompted_item_id r cfg i :
  dget "sample_id" (prompted_item P r cfg i) =
    JStr (generate_unique_id (task_path cfg) i).
Proof.
  unfold prompted_item.
  destruct (generate_prompt r _) as [[p md]|ty msg];
    by rewrite !dget_dset_ne.
Qed.

Lemma prompted_item_key r cfg i :
  record_key (prompted_item P r cfg i) =
    Some (KStr (generate_unique_id (task_path cfg) i)).
Proof.
  unfold record_key. rewrite prompted_item_id. apply generate_unique_id_key.
Qed.

Lemma generated_item_origin item :
  In item (generated_data P) ->
  exists cfg r i,
    In cfg (task_configs P) /\ task_runners P !! task_path cfg = Some r /\
    (i < sample_num cfg)%nat /\ item = prompted_item P r cfg i.
Proof.
  intros Hin. unfold generated_data in Hin.
  apply in_flat_map in Hin as (cfg & Hcfg & Hin).
  destruct (task_runners P !! task_path cfg) as [r|] eqn:Hr; [|destruct Hin].
  apply in_map_iff in Hin as (i & <- & Hi). apply in_seq in Hi.
  exists cfg, r, i. repeat split; try assumption. lia.
Qed.

Lemma generated_keys_nodup_aux (cfgs : list task_config) :
  List.NoDup (List.map task_path cfgs) ->
  List.NoDup
    (List.map record_key
       (flat_map
          (fun cfg =>
             match task_runners P !! task_path cfg with
             | None => []
             | Some task_runner =>
                 List.map (prompted_item P task_runner cfg) (seq 0 (sample_num cfg))
             end) cfgs)) /\
  forall k, In k (List.map record_key
       (flat_map
          (fun cfg =>
             match task_runners P !! task_path cfg with
             | None => []
             | Some task_runner =>
                 List.map (prompted_item P task_runner cfg) (seq 0 (sample_num cfg))
             end) cfgs)) ->
    exists p i, In p (List.map task_path cfgs) /\
                k = Some (KStr (generate_unique_id p i)).
Proof.
  induction cfgs as [|cfg cfgs IH]; intros Hnd; simpl.
  - split; [constructor|]. intros k [].
  - inversion Hnd as [|? ? Hnotin Hnd']; subst.
    destruct (IH Hnd') as [IHnd IHin].
    rewrite List.map_app.
    assert (Hhead : forall k,
              In k (List.map record_key
                      match task_runners P !! task_path cfg with
                      | Some task_runner =>
                          List.map (prompted_item P task_runner cfg)
                            (seq 0 (sample_num cfg))
                      | None => []
                      end) ->
              exists i, k = Some (KStr (generate_unique_id (task_path cfg) i))).
    { intros k Hk. destruct (task_runners P !! task_path cfg) as [r|]; [|destruct Hk].
      rewrite List.map_map in Hk. apply in_map_iff in Hk as (i & <- & _).
      exists i. apply prompted_item_key. }
    split.
    + apply NoDup_ListNoDup, NoDup_app. split; [|split].
      * apply NoDup_ListNoDup.
        destruct (task_runners P !! task_path cfg) as [r|]; [|constructor].
        rewrite List.map_map.
        apply Finite.Injective_map_NoDup; [|apply seq_NoDup].
        intros i j Hij. rewrite !prompted_item_key in Hij.
        injection Hij as Hij. by apply generate_unique_id_inj in Hij as [_ ?].
      * intros k Hk Hk'. apply list_elem_of_In in Hk, Hk'.
        destruct (Hhead k Hk) as (i & ->).
        destruct (IHin _ Hk') as (p & j & Hp & Heq).
        injection Heq as Heq. apply generate_unique_id_inj in Heq as [<- _].
        by apply Hnotin.
      * by apply NoDup_ListNoDup.
    + intros k Hk. apply in_app_or in Hk as [Hk|Hk].
      * destruct (Hhead k Hk) as (i & ->). exists (task_path cfg), i.
        split; [by left|reflexivity].
      * destruct (IHin k Hk) as (p & i & Hp & ->). exists p, i.
        split; [by right|reflexivity].
Qed.

Lemma generated_keys_nodup :
  List.NoDup (List.map task_path (task_configs P)) ->
  List.NoDup (List.map record_key (generated_data P)).
Proof. intros Hnd. by apply generated_keys_nodup_aux. Qed.

End UniqueIds.

(** * Writing the store and reading it back *)

Section RoundTrip.

Lemma map_set_fresh k v (m : items_map) :
  ~ In k (List.map fst m) -> map_set k v m = (m ++ [(k, v)])%list.
Proof.
  induction m as [|[k0 v0] m IH]; intros Hn; simpl; [reflexivity|].
  destruct (decide (k = k0)) as [->|Hne].
  - exfalso. apply Hn. by left.
  - rewrite IH; [reflexivity|]. intros Hin. apply Hn. by right.
Qed.

Lemma map_get_None k (m : items_map) :
  ~ In k (List.map fst m) -> map_get k m = None.
Proof.
  induction m as [|[k0 v0] m IH]; intros Hn; simpl; [reflexivity|].
  destruct (decide (k = k0)) as [->|Hne].
  - exfalso. apply Hn. by left.
  - apply IH. intros Hin. apply Hn. by right.
Qed.

Lemma nodup_app_head (k : key) v (m1 m2 : items_map) :
  List.NoDup (List.map fst (m1 ++ (k, v) :: m2)%list) ->
  ~ In k (List.map fst m1) /\
  List.NoDup (List.map fst ((m1 ++ [(k, v)]) ++ m2)%list).
Proof.
  intros Hnd. split.
  - rewrite List.map_app in Hnd. simpl in Hnd.
    apply NoDup_remove_2 in Hnd. intros Hin. apply Hnd.
    apply in_or_app. by left.
  - by rewrite <- app_assoc.
Qed.

Lemma line_record_row k v :
  record_key v = Some k -> line_record (Row (JObj v)) = Some (k, v).
Proof. unfold record_key. intros Hk. simpl. by rewrite Hk. Qed.

Lemma replay_infer_rows (m2 : items_map) : forall m1 ids,
  (forall k v, In (k, v) m2 -> record_key v = Some k) ->
  List.NoDup (List.map fst (m1 ++ m2)%list) ->
  fst (replay _parse_infer (rows (map_values m2)) (m1, ids)) = (m1 ++ m2)%list.
Proof.
  induction m2 as [|[k v] m2 IH]; intros m1 ids Hkey Hnd.
  - unfold replay. simpl. by rewrite app_nil_r.
  - destruct (nodup_app_head k v m1 m2 Hnd) as [Hfresh Hnd'].
    change (rows (map_values ((k, v) :: m2)))
      with (Row (JObj v) :: rows (map_values m2)).
    rewrite replay_cons by reflexivity.
    rewrite _parse_infer_record.
    rewrite (line_record_row k v) by (apply Hkey; by left).
    simpl fst. rewrite map_set_fresh by exact Hfresh.
    replace (m1 ++ (k, v) :: m2)%list with ((m1 ++ [(k, v)]) ++ m2)%list
      by (by rewrite <- app_assoc).
    apply IH; [|exact Hnd'].
    intros k' v' Hin. apply Hkey. by right.
Qed.

Lemma replay_eval_rows (m2 : items_map) : forall m1 ids,
  (forall k v, In (k, v) m2 -> record_key v = Some k) ->
  List.NoDup (List.map fst (m1 ++ m2)%list) ->
  fst (replay _parse_eval (rows (map_values m2)) (m1, ids)) = (m1 ++ m2)%list.
Proof.
  induction m2 as [|[k v] m2 IH]; intros m1 ids Hkey Hnd.
  - unfold replay. simpl. by rewrite app_nil_r.
  - destruct (nodup_app_head k v m1 m2 Hnd) as [Hfresh Hnd'].
    change (rows (map_values ((k, v) :: m2)))
      with (Row (JObj v) :: rows (map_values m2)).
    rewrite replay_cons by reflexivity.
    rewrite _parse_eval_record.
    rewrite (line_record_row k v) by (apply Hkey; by left).
    unfold eval_entry. simpl fst.
    rewrite (map_get_None k m1 Hfresh).
    rewrite map_set_fresh by exact Hfresh.
    replace (m1 ++ (k, v) :: m2)%list with ((m1 ++ [(k, v)]) ++ m2)%list
      by (by rewrite <- app_assoc).
    apply IH; [|exact Hnd'].
    intros k' v' Hin. apply Hkey. by right.
Qed.

Lemma keyed_In (m : items_map) ids :
  List.NoDup (List.map fst m) -> keyed (m, ids) ->
  forall k v, In (k, v) m -> record_key v = Some k.
Proof.
  intros Hnd Hk k v Hin. apply (Hk k v). simpl.
  by apply map_get_In.
Qed.

Lemma last_record_rows (m : items_map) k :
  List.NoDup (List.map fst m) -> keyed (m, []) ->
  last_record k (rows (map_values m)) = map_get k m.
Proof.
  intros Hnd Hk.
  transitivity
    (map_get k (fst (replay _parse_infer (rows (map_values m)) ([], [])))).
  - rewrite replay_infer_get. simpl. by destruct (last_record _ _).
  - f_equal. apply (replay_infer_rows m [] []); [|exact Hnd].
    by apply (keyed_In m []).
Qed.

End RoundTrip.

Section Reload.
Variable H : host.
Variable P : Pipeline.

Lemma load_infer_map (fs : fsys) m tasks :
  _load_and_prepare_inference_tasks H P fs = Some (m, tasks) ->
  forall k,
    map_get k m =
      match last_record k (lines_at fs (log_file P)) with
      | Some r => Some r
      | None => last_record k (lines_at fs (output_file P))
      end.
Proof.
  intros Hload k. apply load_infer_Some in Hload as [-> _].
  apply infer_replayed_get.
Qed.

Lemma load_infer_store_only (fs : fsys) vs :
  fs !! output_file P = Some (Lines (rows vs)) ->
  fs !! log_file P = None ->
  read_fails (faults H) (output_file P) = false ->
  _load_and_prepare_inference_tasks H P fs =
    Some (fst (replay _parse_infer (rows vs) ([], [])),
          infer_tasks (replay _parse_infer (rows vs) ([], []))).
Proof.
  intros Hout Hlog Hr. unfold _load_and_prepare_inference_tasks, read_into.
  rewrite Hout, Hr, Hlog. simpl.
  assert (Hex : exists_file fs (output_file P) = true)
    by (apply exists_file_true; by rewrite Hout).
  rewrite Hex. by destruct (fst _).
Qed.

Lemma load_eval_store_only (fs : fsys) vs :
  fs !! output_file P = Some (Lines (rows vs)) ->
  fs !! eval_log_file P = None ->
  read_fails (faults H) (output_file P) = false ->
  _load_for_evaluation H P fs =
    Some (fst (replay _parse_eval (rows vs) ([], [])),
          eval_tasks (replay _parse_eval (rows vs) ([], []))).
Proof.
  intros Hout Hlog Hr. unfold _load_for_evaluation, read_into.
  assert (Hex : exists_file fs (output_file P) = true)
    by (apply exists_file_true; by rewrite Hout).
  rewrite Hex, Hout, Hr, Hlog. reflexivity.
Qed.

Lemma merged_store_reloads_infer m (fs : fsys) :
  m <> [] -> keyed (m, []) -> List.NoDup (List.map fst m) ->
  snd (store_rewrite H P m fs) = Done ->
  read_fails (faults H) (output_file P) = false ->
  remove_fails (faults H) (log_file P) = false ->
  fst <$> _load_and_prepare_inference_tasks H P (_merge_infer_log_to_main H P m fs)
    = Some m.
Proof.
  intros Hne Hk Hnd Hdone Hr Hrm.
  rewrite (load_infer_store_only _ (map_values m));
    [| |by apply merge_log_removed|exact Hr].
  - simpl. f_equal. apply (replay_infer_rows m [] []); [|exact Hnd].
    by apply (keyed_In m []).
  - unfold _merge_infer_log_to_main.
    rewrite merge_store_written; [reflexivity|exact Hne|apply log_ne_output|exact Hdone].
Qed.

Lemma merged_store_reloads_eval m (fs : fsys) :
  m <> [] -> keyed (m, []) -> List.NoDup (List.map fst m) ->
  snd (store_rewrite H P m fs) = Done ->
  read_fails (faults H) (output_file P) = false ->
  remove_fails (faults H) (eval_log_file P) = false ->
  fst <$> _load_for_evaluation H P (_merge_eval_log_to_main H P m fs) = Some m.
Proof.
  intros Hne Hk Hnd Hdone Hr Hrm.
  rewrite (load_eval_store_only _ (map_values m));
    [| |by apply merge_log_removed|exact Hr].
  - simpl. f_equal. apply (replay_eval_rows m [] []); [|exact Hnd].
    by apply (keyed_In m []).
  - unfold _merge_eval_log_to_main.
    rewrite merge_store_written;
      [reflexivity|exact Hne|apply eval_log_ne_output|exact Hdone].
Qed.

End Reload.

(** * The map after the executor loop *)

Section LastTask.

Lemma last_task_Some k completed t :
  last_task k completed = Some t -> In t completed /\ record_key t = Some k.
Proof.
  induction completed as [|t0 rest IH]; simpl; [discriminate|].
  destruct (last_task k rest) as [t'|].
  - intros [= ->]. destruct (IH eq_refl) as [Hin Hk]. split; [by right|exact Hk].
  - destruct (decide (record_key t0 = Some k)) as [Hk|]; [|discriminate].
    intros [= ->]. split; [by left|exact Hk].
Qed.

Lemma last_task_None k completed :
  last_task k completed = None <->
  forall t, In t completed -> record_key t <> Some k.
Proof.
  induction completed as [|t0 rest IH]; simpl.
  - split; [intros _ t []|reflexivity].
  - destruct (last_task k rest) as [t'|] eqn:Hl.
    + split; [discriminate|]. intros Hall. exfalso.
      destruct (last_task_Some k rest t' Hl) as [Hin Hk].
      apply (Hall t'); [by right|exact Hk].
    + destruct (decide (record_key t0 = Some k)) as [Hk|Hk].
      * split; [discriminate|]. intros Hall. exfalso. by apply (Hall t0); [left|].
      * split; [|reflexivity]. intros _ t [<-|Hin]; [exact Hk|].
        by apply (proj1 IH).
Qed.

Lemma last_task_unique k completed t :
  List.NoDup (List.map record_key completed) ->
  In t completed -> record_key t = Some k ->
  last_task k completed = Some t.
Proof.
  induction completed as [|t0 rest IH]; intros Hnd Hin Hk; [destruct Hin|].
  simpl in Hnd. inversion Hnd as [|? ? Hnotin Hnd']; subst. simpl.
  destruct Hin as [->|Hin].
  - destruct (last_task k rest) as [t'|] eqn:Hl.
    + exfalso. destruct (last_task_Some k rest t' Hl) as [Hin' Hk'].
      apply Hnotin. rewrite Hk, <- Hk'. by apply in_map.
    + by destruct (decide _).
  - by rewrite (IH Hnd' Hin Hk).
Qed.

Lemma last_task_perm k l1 l2 :
  List.NoDup (List.map record_key l2) ->
  Permutation l1 l2 -> last_task k l1 = last_task k l2.
Proof.
  intros Hnd Hperm.
  assert (Hnd1 : List.NoDup (List.map record_key l1)).
  { eapply Permutation_NoDup; [|exact Hnd].
    apply Permutation_map. by apply Permutation_sym. }
  destruct (last_task k l2) as [t|] eqn:Hl.
  - destruct (last_task_Some k l2 t Hl) as [Hin Hk].
    apply last_task_unique; [exact Hnd1| |exact Hk].
    eapply Permutation_in; [|exact Hin]. by apply Permutation_sym.
  - apply last_task_None. intros t Hin.
    apply (proj1 (last_task_None k l2) Hl).
    eapply Permutation_in; [exact Hperm|exact Hin].
Qed.

Lemma last_record_app k ls1 ls2 :
  last_record k (ls1 ++ ls2) =
    match last_record k ls2 with
    | Some r => Some r
    | None => last_record k ls1
    end.
Proof.
  induction ls1 as [|ln ls1 IH]; simpl.
  - by destruct (last_record k ls2).
  - rewrite IH. by destruct (last_record k ls2).
Qed.

Lemma last_record_map (f : obj -> obj) k completed :
  (forall t, record_key (f t) = record_key t) ->
  last_record k (List.map (fun t => Row (JObj (f t))) completed) =
    f <$> last_task k completed.
Proof.
  intros Hf. induction completed as [|t rest IH]; simpl; [reflexivity|].
  rewrite IH. destruct (last_task k rest) as [t'|]; simpl; [reflexivity|].
  pose proof (Hf t) as Hft. unfold record_key in Hft. rewrite Hft.
  fold (record_key t).
  destruct (record_key t) as [k0|] eqn:Hk.
  - destruct (decide (k = k0)) as [->|Hne].
    + by rewrite decide_True.
    + rewrite decide_False; [reflexivity|]. congruence.
  - by rewrite decide_False.
Qed.

End LastTask.

Section DrainMap.
Variable H : host.
Variable P : Pipeline.

Lemma _infer_worker_key t : record_key (_infer_worker H P t) = record_key t.
Proof. unfold record_key. by rewrite _infer_worker_id. Qed.

Lemma _eval_worker_key t : record_key (_eval_worker H P t) = record_key t.
Proof. unfold record_key. by rewrite _eval_worker_id. Qed.

Lemma infer_drain_get completed :
  (forall t, In t completed -> exists k, record_key t = Some k) ->
  forall m (fs : fsys) k,
    map_get k (fst (fst (infer_drain H P completed m fs))) =
      match last_task k completed with
      | Some t => Some (_infer_worker H P t)
      | None => map_get k m
      end.
Proof.
  induction completed as [|t rest IH]; intros Hkeys m fs k; [reflexivity|].
  destruct (Hkeys t (or_introl eq_refl)) as (kt & Hkt).
  pose proof Hkt as Hkt'. unfold record_key in Hkt'.
  simpl. rewrite (key_of_truthy _ _ Hkt'), Hkt'.
  rewrite IH by (intros t' Hin; apply Hkeys; by right).
  destruct (last_task k rest) as [t'|]; [reflexivity|].
  rewrite map_get_set, Hkt.
  destruct (decide (kt = k)) as [->|Hne].
  - by rewrite decide_True.
  - rewrite decide_False; [reflexivity|]. congruence.
Qed.

Lemma eval_drain_get completed :
  (forall t, In t completed -> exists k, record_key t = Some k) ->
  forall m (fs : fsys) k,
    map_get k (fst (fst (eval_drain H P completed m fs))) =
      match last_task k completed with
      | Some t => Some (_eval_worker H P t)
      | None => map_get k m
      end.
Proof.
  induction completed as [|t rest IH]; intros Hkeys m fs k; [reflexivity|].
  destruct (Hkeys t (or_introl eq_refl)) as (kt & Hkt).
  pose proof Hkt as Hkt'. unfold record_key in Hkt'.
  simpl. rewrite (key_of_truthy _ _ Hkt'), Hkt'.
  rewrite IH by (intros t' Hin; apply Hkeys; by right).
  destruct (last_task k rest) as [t'|]; [reflexivity|].
  rewrite map_get_set, Hkt.
  destruct (decide (kt = k)) as [->|Hne].
  - by rewrite decide_True.
  - rewrite decide_False; [reflexivity|]. congruence.
Qed.

Lemma infer_drain_keyed completed m (fs : fsys) :
  (forall t, In t completed -> exists k, record_key t = Some k) ->
  keyed (m, []) -> keyed (fst (fst (infer_drain H P completed m fs)), []).
Proof.
  intros Hkeys Hk k item. simpl. rewrite (infer_drain_get completed Hkeys).
  destruct (last_task k completed) as [t|] eqn:Hl.
  - intros [= <-]. destruct (last_task_Some k completed t Hl) as [_ Hkt].
    fold (record_key (_infer_worker H P t)). by rewrite _infer_worker_key.
  - apply Hk.
Qed.

Lemma eval_drain_keyed completed m (fs : fsys) :
  (forall t, In t completed -> exists k, record_key t = Some k) ->
  keyed (m, []) -> keyed (fst (fst (eval_drain H P completed m fs)), []).
Proof.
  intros Hkeys Hk k item. simpl. rewrite (eval_drain_get completed Hkeys).
  destruct (last_task k completed) as [t|] eqn:Hl.
  - intros [= <-]. destruct (last_task_Some k completed t Hl) as [_ Hkt].
    fold (record_key (_eval_worker H P t)). by rewrite _eval_worker_key.
  - apply Hk.
Qed.

(** The tasks of a loader state have pairwise distinct keys. *)
Lemma filtered_keys_nodup (f : key * obj -> bool) (m : items_map) :
  List.NoDup (List.map fst m) -> keyed (m, []) ->
  List.NoDup (List.map record_key (List.map snd (List.filter f m))).
Proof.
  intros Hnd Hk.
  assert (Heq : List.map record_key (List.map snd (List.filter f m)) =
                List.map Some (List.map fst (List.filter f m))).
  { rewrite !List.map_map. apply map_ext_in. intros [k v] Hin. simpl.
    apply filter_In in Hin as [Hin _]. by apply (keyed_In m [] Hnd Hk). }
  rewrite Heq. apply Finite.Injective_map_NoDup; [by intros x y [= ->]|].
  clear Heq Hk. induction m as [|[k v] m IH]; simpl; [constructor|].
  inversion Hnd as [|? ? Hnotin Hnd']; subst.
  destruct (f (k, v)); simpl; [|by apply IH].
  constructor; [|by apply IH].
  intros Hin. apply Hnotin. apply in_map_iff in Hin as ([k' v'] & <- & Hin).
  apply filter_In in Hin as [Hin _]. by apply (in_map fst) in Hin.
Qed.

Lemma keyed_ids (st : load_state) ids : keyed st -> keyed (fst st, ids).
Proof. intros Hk k item. apply Hk. Qed.

Lemma infer_tasks_nodup (fs : fsys) m tasks :
  _load_and_prepare_inference_tasks H P fs = Some (m, tasks) ->
  List.NoDup (List.map record_key tasks).
Proof.
  intros Hload. apply load_infer_Some in Hload as [-> ->].
  unfold infer_tasks. apply filtered_keys_nodup.
  - apply (infer_replayed_inv P fs).
  - apply keyed_ids, infer_replayed_keyed.
Qed.

Lemma eval_tasks_nodup (fs : fsys) m tasks :
  _load_for_evaluation H P fs = Some (m, tasks) ->
  List.NoDup (List.map record_key tasks).
Proof.
  intros Hload. apply load_eval_Some in Hload as [-> ->].
  unfold eval_tasks. apply filtered_keys_nodup.
  - apply (eval_replayed_inv P fs).
  - apply keyed_ids, eval_replayed_keyed.
Qed.

End DrainMap.

(** * Reloading after an inference run *)

Section ReloadAfterRun.
Variable H : host.
Variable P : Pipeline.

Lemma lines_at_eq (fs fs' : fsys) p :
  fs' !! p = fs !! p -> lines_at fs' p = lines_at fs p.
Proof. intros Heq. unfold lines_at. by rewrite Heq. Qed.

Lemma lines_at_None (fs : fsys) p : fs !! p = None -> lines_at fs p = [].
Proof. intros Heq. unfold lines_at. by rewrite Heq. Qed.

Lemma lines_at_rows (fs : fsys) p vs :
  fs !! p = Some (Lines (rows vs)) -> lines_at fs p = rows vs.
Proof. intros Heq. unfold lines_at. by rewrite Heq. Qed.

(** Reloading after the merge of [m'] into a file system [fs'] whose log
    extends the log of [fs] by the records of [tasks]. *)
Lemma reload_after_merge (f : obj -> obj) (fs fs' : fsys) m m' tasks :
  (forall k, map_get k m =
     match last_record k (lines_at fs (log_file P)) with
     | Some r => Some r
     | None => last_record k (lines_at fs (output_file P))
     end) ->
  (forall k, last_record k (lines_at fs' (log_file P)) =
     match last_task k tasks with
     | Some t => Some (f t)
     | None => last_record k (lines_at fs (log_file P))
     end) ->
  fs' !! output_file P = fs !! output_file P ->
  (forall k, map_get k m' =
     match last_task k tasks with
     | Some t => Some (f t)
     | None => map_get k m
     end) ->
  List.NoDup (List.map fst m') -> keyed (m', []) ->
  forall m2 tasks2,
    _load_and_prepare_inference_tasks H P (_merge_infer_log_to_main H P m' fs')
      = Some (m2, tasks2) ->
    forall k, map_get k m2 =
      match last_task k tasks with
      | Some t => Some (f t)
      | None => map_get k m
      end.
Proof.
  intros Hm Hlog Hout Hm' Hnd Hkeyed m2 tasks2 Hload k.
  rewrite (load_infer_map H P _ _ _ Hload k).
  unfold _merge_infer_log_to_main.
  destruct (decide (m' = [])) as [->|Hne].
  - simpl. rewrite Hlog, (lines_at_eq fs fs' _ Hout).
    destruct (last_task k tasks); [reflexivity|]. by rewrite Hm.
  - destruct (snd (store_rewrite H P m' fs')) eqn:Hrw.
    + pose proof (merge_store_written H P (log_file P) m' fs' Hne
                    (log_ne_output P) Hrw) as Hstore.
      rewrite (lines_at_rows _ _ _ Hstore).
      rewrite (last_record_rows m' k Hnd Hkeyed).
      destruct (remove_fails (faults H) (log_file P)) eqn:Hrm.
      * rewrite (lines_at_eq fs' _ (log_file P)
                   (merge_log_stuck H P (log_file P) m' fs' Hne (log_ne_output P)
                      (log_ne_temp P) Hrw Hrm)).
        rewrite Hlog, Hm'.
        destruct (last_task k tasks); [reflexivity|].
        rewrite Hm. by destruct (last_record k (lines_at fs (log_file P))).
      * rewrite (lines_at_None _ _
                   (merge_log_removed H P (log_file P) m' fs' Hne Hrw Hrm)).
        simpl. apply Hm'.
    + destruct (merge_log_kept_on_failure H P (log_file P) m' fs'
                  (log_ne_temp P) Hrw) as [Hl Ho].
      rewrite (lines_at_eq fs' _ _ Hl), (lines_at_eq fs' _ _ Ho).
      rewrite Hlog, (lines_at_eq fs fs' _ Hout).
      destruct (last_task k tasks); [reflexivity|]. by rewrite Hm.
Qed.

Lemma infer_reload_after_run (fs : fsys) m tasks :
  _load_and_prepare_inference_tasks H P fs = Some (m, tasks) ->
  Permutation (as_completed H tasks) tasks ->
  append_fails (faults H) (log_file P) = false ->
  forall m2 tasks2,
    _load_and_prepare_inference_tasks H P (run_inference_multithread H P fs)
      = Some (m2, tasks2) ->
    forall k, map_get k m2 =
      match last_task k tasks with
      | Some t => Some (_infer_worker H P t)
      | None => map_get k m
      end.
Proof.
  intros Hload Hperm Happ m2 tasks2.
  pose proof (load_infer_map H P fs m tasks Hload) as Hm.
  pose proof (load_infer_Some H P fs m tasks Hload) as [Hmeq _].
  assert (Hndm : List.NoDup (List.map fst m))
    by (rewrite Hmeq; apply (infer_replayed_inv P fs)).
  assert (Hkm : keyed (m, []))
    by (rewrite Hmeq; apply keyed_ids, infer_replayed_keyed).
  destruct (decide (tasks = [])) as [->|Hne].
  - unfold run_inference_multithread. rewrite Hload.
    destruct (exists_file fs (log_file P)).
    + apply (reload_after_merge (_infer_worker H P) fs fs m m []);
        try assumption; try reflexivity.
    + intros Hload2 k. rewrite Hload in Hload2. by injection Hload2 as <- _.
  - assert (Hkeys : forall t, In t (as_completed H tasks) ->
                      exists k, record_key t = Some k).
    { intros t Hin. apply (infer_tasks_keyed H P fs m tasks t Hload).
      eapply Permutation_in; [exact Hperm|exact Hin]. }
    assert (Hndt : List.NoDup (List.map record_key tasks))
      by apply (infer_tasks_nodup H P fs m tasks Hload).
    rewrite (run_inference_tasks H P fs m tasks Hload Hne).
    destruct (infer_drain_log H P (as_completed H tasks) m fs Hkeys Happ)
      as [Hok Hlines].
    cbv zeta. rewrite Hok.
    apply (reload_after_merge (_infer_worker H P) fs _ m _ tasks).
    + exact Hm.
    + intros k. rewrite Hlines, last_record_app.
      rewrite (last_record_map (_infer_worker H P) k _ (_infer_worker_key H P)).
      rewrite (last_task_perm k _ tasks Hndt Hperm).
      by destruct (last_task k tasks).
    + apply infer_drain_other, not_eq_sym, log_ne_output.
    + intros k. rewrite (infer_drain_get H P _ Hkeys).
      by rewrite (last_task_perm k _ tasks Hndt Hperm).
    + by apply (infer_drain_map H P (as_completed H tasks) Hkeys m fs Hndm).
    + by apply infer_drain_keyed.
Qed.

End ReloadAfterRun.

(** * Merging again *)

Section MergeTwice.
Variable H : host.
Variable P : Pipeline.

Lemma store_rewrite_status m1 m2 (fs1 fs2 : fsys) :
  snd (store_rewrite H P m1 fs1) = Done -> snd (store_rewrite H P m2 fs2) = Done.
Proof.
  unfold store_rewrite. rewrite !safe_rewrite_done_iff.
  intros (Ho & _ & Hw & Hmv). repeat split; try assumption. simpl. by eexists.
Qed.

Lemma store_rewrite_fs m (fs : fsys) :
  snd (store_rewrite H P m fs) = Done ->
  fst (store_rewrite H P m fs) =
    <[output_file P := Lines (rows (map_values m))]>
      (delete (output_file P ++ ".tmp_rewrite") fs).
Proof.
  intros Hd. unfold store_rewrite in *.
  apply safe_rewrite_done in Hd as (c & Hc & ->).
  simpl in Hc. injection Hc as <-. by rewrite jsonl_of_objects.
Qed.

Lemma merge_twice lg m (fs : fsys) :
  lg <> output_file P -> lg <> output_file P ++ ".tmp_rewrite" ->
  snd (store_rewrite H P m fs) = Done ->
  merge_log_to_main H P lg m (merge_log_to_main H P lg m fs) =
    merge_log_to_main H P lg m fs.
Proof.
  intros Hlo Hlt Hd.
  destruct (decide (m = [])) as [->|Hne]; [reflexivity|].
  pose proof (temp_ne_output P) as Hto.
  set (fs1 := merge_log_to_main H P lg m fs).
  rewrite (merge_done H P lg m fs1 Hne (store_rewrite_status m m fs fs1 Hd)).
  cbv zeta.
  rewrite (store_rewrite_fs m fs1 (store_rewrite_status m m fs fs1 Hd)).
  assert (Hfs1 : fs1 = let fs' := <[output_file P := Lines (rows (map_values m))]>
                            (delete (output_file P ++ ".tmp_rewrite") fs) in
                       if exists_file fs' lg then
                         if remove_fails (faults H) lg then fs' else delete lg fs'
                       else fs').
  { unfold fs1. rewrite (merge_done H P lg m fs Hne Hd). cbv zeta.
    by rewrite (store_rewrite_fs m fs Hd). }
  cbv zeta in Hfs1.
  set (c := Lines (rows (map_values m))) in *.
  set (tmp := output_file P ++ ".tmp_rewrite") in *.
  assert (Hsame : <[output_file P := c]> (delete tmp fs1) = fs1).
  { apply map_eq. intros p. rewrite Hfs1.
    destruct (exists_file (<[output_file P := c]> (delete tmp fs)) lg);
      [destruct (remove_fails (faults H) lg)|];
      destruct (decide (p = output_file P)) as [Hpo|Hpo];
      destruct (decide (p = tmp)) as [Hpt|Hpt];
      destruct (decide (p = lg)) as [Hpl|Hpl];
      try congruence; try subst p;
      by simplify_map_eq. }
  rewrite Hsame.
  destruct (exists_file fs1 lg) eqn:Hex1; [|reflexivity].
  destruct (remove_fails (faults H) lg) eqn:Hrm; [reflexivity|].
  exfalso. apply exists_file_true in Hex1 as [x Hx].
  rewrite Hfs1 in Hx.
  destruct (exists_file (<[output_file P := c]> (delete tmp fs)) lg) eqn:Hex.
  - by rewrite lookup_delete_eq in Hx.
  - apply exists_file_false in Hex. by rewrite Hex in Hx.
Qed.

End MergeTwice.

(** * Runs without records *)

Section NoRecords.
Variable H : host.
Variable P : Pipeline.

Lemma replay_all_skipped parse ls st :
  (forall st' ln, line_record ln = None -> parse st' ln = st') ->
  (forall ln, In ln ls -> line_record ln = None) ->
  replay parse ls st = st.
Proof.
  intros Hskip. revert st. induction ls as [|ln ls IH]; intros st Hall;
    [reflexivity|].
  unfold replay. simpl. fold (replay parse ls).
  assert (Hst : match ln with Blank => st | _ => parse st ln end = st).
  { destruct ln; [reflexivity|..]; apply Hskip, Hall; by left. }
  rewrite Hst. apply IH. intros ln' Hin. apply Hall. by right.
Qed.

Lemma infer_replayed_no_records (fs : fsys) :
  (forall ln, In ln (lines_at fs (output_file P) ++ lines_at fs (log_file P)) ->
              line_record ln = None) ->
  infer_replayed P fs = ([], []).
Proof.
  intros Hall. unfold infer_replayed.
  rewrite (replay_all_skipped _parse_infer (lines_at fs (output_file P)));
    [|intros; by apply _parse_infer_skip
     |intros ln Hin; apply Hall, in_or_app; by left].
  apply replay_all_skipped; [intros; by apply _parse_infer_skip|].
  intros ln Hin. apply Hall, in_or_app. by right.
Qed.

Lemma load_infer_no_records (fs : fsys) m tasks :
  (forall ln, In ln (lines_at fs (output_file P) ++ lines_at fs (log_file P)) ->
              line_record ln = None) ->
  _load_and_prepare_inference_tasks H P fs = Some (m, tasks) ->
  m = [] /\ tasks = [].
Proof.
  intros Hall Hload. apply load_infer_Some in Hload as [-> ->].
  by rewrite (infer_replayed_no_records fs Hall).
Qed.

Lemma collect_stats_nil : collect_stats P [] = ([], 0%nat, 0%nat).
Proof. reflexivity. Qed.

Lemma run_all_nothing_generated (fs : fsys) :
  generated_data P = [] ->
  fs !! output_file P = None ->
  fs !! log_file P = None ->
  fs !! eval_log_file P = None ->
  run_all H P fs = snd (generate_prompts H P fs) /\
  snd (generate_prompts H P fs) =
    fst (_safe_rewrite_file H (JArr []) (output_file P) false fs).
Proof.
  intros Hgen Hno Hnl Hne.
  assert (Hg : snd (generate_prompts H P fs) =
               fst (_safe_rewrite_file H (JArr []) (output_file P) false fs)).
  { unfold generate_prompts.
    rewrite (proj2 (exists_file_false fs _) Hno),
            (proj2 (exists_file_false fs _) Hnl),
            (proj2 (exists_file_false fs _) Hne), Hgen. simpl.
    by destruct (_safe_rewrite_file H (JArr []) (output_file P) false fs) as [fs' []]. }
  split; [|exact Hg].
  unfold run_all. rewrite Hg.
  set (r := _safe_rewrite_file H (JArr []) (output_file P) false fs).
  assert (Hlog1 : fst r !! log_file P = None).
  { unfold r. rewrite safe_rewrite_other;
      [exact Hnl|apply log_ne_output|apply log_ne_temp]. }
  assert (Hev1 : fst r !! eval_log_file P = None).
  { unfold r. rewrite safe_rewrite_other;
      [exact Hne|apply eval_log_ne_output|apply eval_log_ne_temp]. }
  rewrite (proj2 (exists_file_false _ _) Hlog1). rewrite andb_true_r.
  destruct (exists_file (fst r) (output_file P)) eqn:Hex; [|reflexivity].
  simpl.
  assert (Hout : fst r !! output_file P = Some (Lines [])).
  { destruct (snd r) eqn:Hs.
    - unfold r in *. apply safe_rewrite_done in Hs as (c & Hc & ->).
      simpl in Hc. injection Hc as <-. by rewrite lookup_insert_eq.
    - unfold r in *. apply safe_rewrite_raised in Hs as [Hs _].
      apply exists_file_true in Hex. rewrite Hs in Hex
        by (apply not_eq_sym, temp_ne_output).
      rewrite Hno in Hex. by destruct Hex. }
  assert (Hinf : run_inference_multithread H P (fst r) = fst r).
  { unfold run_inference_multithread, _load_and_prepare_inference_tasks, read_into.
    rewrite Hout, Hlog1. destruct (read_fails _ _); [reflexivity|]. simpl.
    rewrite Hex. simpl. by rewrite (proj2 (exists_file_false _ _) Hlog1). }
  rewrite Hinf.
  assert (Hevs : evaluate_and_save H P (fst r) = fst r).
  { unfold evaluate_and_save, pre_evaluation_merge.
    rewrite (proj2 (exists_file_false _ _) Hlog1).
    unfold evaluate_loaded, _load_for_evaluation, read_into.
    rewrite Hex, Hout, Hev1. simpl. destruct (read_fails _ _); [reflexivity|].
    simpl. by rewrite (proj2 (exists_file_false _ _) Hev1). }
  rewrite Hevs.
  unfold analyze_hierarchical_metrics.
  rewrite (proj2 (exists_file_false _ _) Hlog1),
          (proj2 (exists_file_false _ _) Hev1), Hout. simpl.
  by destruct (read_fails _ _).
Qed.

End NoRecords.

(** * Counters and tables of the aggregator *)

Section Counters.
Variable P : Pipeline.

Lemma contributing_row ln x :
  contributing P ln = Some x -> exists item, ln = Row (JObj item).
Proof.
  destruct ln as [| |v]; try discriminate. destruct v; try discriminate.
  intros _. by eexists.
Qed.

Lemma analyze_line_counts stats n a ln :
  let r := analyze_line P (stats, n, a) ln in
  (n <= snd (fst r))%nat /\ (a <= snd r)%nat /\
  (contributing P ln = None -> fst (fst r) = stats /\ snd r = a) /\
  (contributing P ln <> None -> snd (fst r) = S n /\ snd r = S a).
Proof.
  destruct (contributing P ln) as [[[er parts] ms]|] eqn:Hc.
  - destruct (contributing_row ln _ Hc) as (item & ->).
    rewrite (analyze_line_contributing P stats n a item er parts ms Hc).
    simpl. repeat split; try lia; intros; congruence.
  - cbv zeta. unfold analyze_line. rewrite Hc.
    destruct ln as [| |v]; simpl; repeat split; try lia; try congruence.
Qed.

Lemma fold_analyze_monotone ls : forall stats n a,
  let r := fold_left (analyze_line P) ls (stats, n, a) in
  (n <= snd (fst r))%nat /\ (a <= snd r)%nat.
Proof.
  induction ls as [|ln ls IH]; intros stats n a; cbv zeta; cbn [fold_left];
    [simpl; lia|].
  destruct (analyze_line P (stats, n, a) ln) as [[s1 n1] a1] eqn:Hl.
  pose proof (analyze_line_counts stats n a ln) as Hc. rewrite Hl in Hc.
  simpl in Hc. destruct Hc as (Hn & Ha & _).
  specialize (IH s1 n1 a1). simpl in IH. lia.
Qed.

Lemma fold_analyze_none ls : forall stats n a,
  (forall ln, In ln ls -> contributing P ln = None) ->
  let r := fold_left (analyze_line P) ls (stats, n, a) in
  fst (fst r) = stats /\ snd r = a.
Proof.
  induction ls as [|ln ls IH]; intros stats n a Hall; cbv zeta; cbn [fold_left];
    [by split|].
  destruct (analyze_line P (stats, n, a) ln) as [[s1 n1] a1] eqn:Hl.
  pose proof (analyze_line_counts stats n a ln) as Hc. rewrite Hl in Hc.
  simpl in Hc. destruct Hc as (_ & _ & Hnone & _).
  destruct (Hnone (Hall ln (or_introl eq_refl))) as [-> ->].
  apply IH. intros ln' Hin. apply Hall. by right.
Qed.

Lemma fold_analyze_some ls : forall stats n a ln,
  In ln ls -> contributing P ln <> None ->
  let r := fold_left (analyze_line P) ls (stats, n, a) in
  (0 < snd (fst r))%nat /\ (0 < snd r)%nat.
Proof.
  induction ls as [|l0 ls IH]; intros stats n a ln Hin Hc; [destruct Hin|].
  cbv zeta; cbn [fold_left].
  destruct (analyze_line P (stats, n, a) l0) as [[s1 n1] a1] eqn:Hl.
  destruct Hin as [->|Hin].
  - pose proof (analyze_line_counts stats n a ln) as Hcnt. rewrite Hl in Hcnt.
    simpl in Hcnt. destruct Hcnt as (_ & _ & _ & Hsome).
    destruct (Hsome Hc) as [-> ->].
    pose proof (fold_analyze_monotone ls s1 (S n) (S a)) as Hm. simpl in Hm. lia.
  - by apply (IH s1 n1 a1 ln).
Qed.

Lemma collect_stats_none ls :
  (forall ln, In ln ls -> contributing P ln = None) ->
  snd (collect_stats P ls) = 0%nat.
Proof. intros Hall. by apply (fold_analyze_none ls [] 0%nat 0%nat Hall). Qed.

Lemma collect_stats_some ls ln :
  In ln ls -> contributing P ln <> None ->
  (0 < snd (fst (collect_stats P ls)))%nat /\ (0 < snd (collect_stats P ls))%nat.
Proof. intros Hin Hc. by apply (fold_analyze_some ls [] 0%nat 0%nat ln Hin Hc). Qed.

End Counters.

Section Report.
Variable H : host.
Variable P : Pipeline.

Lemma analyze_without_contribution (fs : fsys) :
  (forall ln, In ln (lines_at fs (output_file P)) -> contributing P ln = None) ->
  analyze_hierarchical_metrics H P fs = fs.
Proof.
  intros Hall. unfold analyze_hierarchical_metrics.
  destruct (_ || _); [reflexivity|].
  destruct (fs !! output_file P) as [c|] eqn:Hout; [|reflexivity].
  destruct (read_fails _ _); [reflexivity|].
  unfold lines_at in Hall. rewrite Hout in Hall.
  pose proof (collect_stats_none P (file_lines c) Hall) as Hn.
  destruct (collect_stats P (file_lines c)) as [[stats np] na].
  simpl in Hn. subst na. by destruct np.
Qed.

Lemma analyze_with_contribution (fs : fsys) c ln :
  fs !! log_file P = None ->
  fs !! eval_log_file P = None ->
  fs !! output_file P = Some c ->
  read_fails (faults H) (output_file P) = false ->
  In ln (file_lines c) -> contributing P ln <> None ->
  analyze_hierarchical_metrics H P fs =
    fst (_safe_rewrite_file H
           (make_report (fst (fst (collect_stats P (file_lines c)))))
           (report_filepath P) true fs).
Proof.
  intros Hnl Hne Hout Hr Hin Hc. unfold analyze_hierarchical_metrics.
  rewrite (proj2 (exists_file_false _ _) Hnl),
          (proj2 (exists_file_false _ _) Hne), Hout, Hr. simpl.
  pose proof (collect_stats_some P (file_lines c) ln Hin Hc) as Hs.
  destruct (collect_stats P (file_lines c)) as [[stats np] na].
  simpl in Hs. destruct Hs as [Hnp Hna].
  destruct np; [lia|]. destruct na; [lia|]. reflexivity.
Qed.

End Report.

Section UnregisteredMetric.
Variable P : Pipeline.
Variable metric : string.

Lemma assoc_update_In {A : Type} (d : A) f k l k' v :
  In (k', v) (assoc_update d f k l) ->
  In (k', v) l \/ (k' = k /\ (v = f d \/ exists v0, In (k, v0) l /\ v = f v0)).
Proof.
  induction l as [|[k0 v0] l IH]; simpl.
  - intros [[= <- <-]|[]]. right. split; [reflexivity|by left].
  - destruct (String.eqb k k0) eqn:Hk.
    + apply String.eqb_eq in Hk. subst k0.
      intros [[= <- <-]|Hin]; [|left; by right].
      right. split; [reflexivity|]. right. exists v0. split; [by left|reflexivity].
    + intros [[= <- <-]|Hin]; [left; by left|].
      destruct (IH Hin) as [Hl|(-> & [->|(v1 & Hv1 & ->)])].
      * left. by right.
      * right. split; [reflexivity|by left].
      * right. split; [reflexivity|]. right. exists v1. split; [by right|reflexivity].
Qed.

Lemma assoc_update_keys {A : Type} (d : A) f k l k' :
  In k' (List.map fst (assoc_update d f k l)) ->
  k' = k \/ In k' (List.map fst l).
Proof.
  intros Hin. apply in_map_iff in Hin as ([k1 v1] & <- & Hin). simpl.
  apply assoc_update_In in Hin as [Hin|[-> _]]; [|by left].
  right. by apply (in_map fst) in Hin.
Qed.

Lemma bump_absent h m v stats :
  m <> metric -> metric_absent metric stats -> metric_absent metric (bump h m v stats).
Proof.
  intros Hne Habs h' mt Hin Hk. unfold bump in Hin.
  apply assoc_update_In in Hin as [Hin|(-> & [->|(mt0 & Hmt0 & ->)])].
  - by apply (Habs h' mt).
  - apply assoc_update_keys in Hk as [Hk|[]]. congruence.
  - apply assoc_update_keys in Hk as [Hk|Hk]; [congruence|].
    by apply (Habs h mt0).
Qed.

Lemma bump_if_number_absent h m v stats :
  m <> metric -> metric_absent metric stats ->
  metric_absent metric (bump_if_number h m v stats).
Proof.
  intros Hne Habs. unfold bump_if_number.
  destruct (is_number v); [by apply bump_absent|exact Habs].
Qed.

Lemma accumulate_absent ms er i e stats h :
  ~ In metric ms -> timing_metric metric = false ->
  metric_absent metric stats -> metric_absent metric (accumulate ms er i e stats h).
Proof.
  intros Hnin Ht Habs. unfold timing_metric in Ht.
  apply orb_false_iff in Ht as [Ht1 Ht2].
  apply String.eqb_neq in Ht1, Ht2.
  unfold accumulate.
  apply bump_if_number_absent; [congruence|].
  apply bump_if_number_absent; [congruence|].
  revert stats Habs. induction ms as [|m ms IH]; intros stats Habs; simpl;
    [exact Habs|].
  apply IH.
  - intros Hin. apply Hnin. by right.
  - apply bump_if_number_absent; [|exact Habs].
    intros ->. apply Hnin. by left.
Qed.

Hypothesis Hunregistered :
  forall name ms, TaskFactory_tasks P !! name = Some ms -> ~ In metric ms.
Hypothesis Hnot_timing : timing_metric metric = false.

Lemma analyze_line_absent stats n a ln :
  metric_absent metric stats ->
  metric_absent metric (fst (fst (analyze_line P (stats, n, a) ln))).
Proof.
  intros Habs.
  destruct (contributing P ln) as [[[er parts] ms]|] eqn:Hc.
  - destruct (contributing_row P ln _ Hc) as (item & ->).
    rewrite (analyze_line_contributing P stats n a item er parts ms Hc). simpl.
    apply contributing_spec in Hc
      as (_ & _ & task & _ & _ & _ & _ & name & rest & _ & Hreg).
    pose proof (Hunregistered name ms Hreg) as Hnin.
    generalize (hierarchies parts). intros hs. revert stats Habs.
    induction hs as [|h hs IH]; intros stats Habs; simpl; [exact Habs|].
    apply IH. by apply accumulate_absent.
  - by rewrite (analyze_line_skipped P stats n a ln Hc).
Qed.

Lemma collect_stats_absent ls :
  metric_absent metric (fst (fst (collect_stats P ls))).
Proof.
  unfold collect_stats.
  assert (Hgen : forall st, metric_absent metric (fst (fst st)) ->
            metric_absent metric (fst (fst (fold_left (analyze_line P) ls st)))).
  { induction ls as [|ln ls IH]; intros st Hst; cbn [fold_left]; [exact Hst|].
    apply IH. destruct st as [[stats n] a]. by apply analyze_line_absent. }
  apply Hgen. intros h mt [].
Qed.

End UnregisteredMetric.

Section SortedItems.
Context {A : Type}.

Lemma insert_sorted_In (x y : string * A) l :
  In y (insert_sorted x l) <-> y = x \/ In y l.
Proof.
  induction l as [|z l IH]; simpl.
  - split; [intros [<-|[]]; by left|intros [->|[]]; by left].
  - destruct (str_leb (fst x) (fst z)); simpl.
    + split; [intros [<-|H0]; [by left|by right]|intros [->|H0]; [by left|by right]].
    + rewrite IH. tauto.
Qed.

Lemma sorted_items_In (y : string * A) l : In y (sorted_items l) <-> In y l.
Proof.
  induction l as [|x l IH]; simpl; [reflexivity|].
  unfold sorted_items in *. simpl. rewrite insert_sorted_In, IH.
  split; intros [->|H0]; auto.
Qed.

End SortedItems.

Section ReportKeys.
Variable P : Pipeline.

Lemma make_report_entry stats h cells :
  In (h, JObj cells) (match make_report stats with JObj r => r | _ => [] end) ->
  exists mt, In (h, mt) stats /\
    forall k, In k (List.map fst cells) -> In k (List.map fst mt).
Proof.
  unfold make_report. intros Hin.
  apply in_map_iff in Hin as ([h0 mt] & Heq & Hin).
  simpl in Heq. injection Heq as -> <-.
  apply (proj1 (sorted_items_In _ _)) in Hin. exists mt. split; [exact Hin|].
  intros k Hk. rewrite List.map_map in Hk. simpl in Hk.
  apply in_map_iff in Hk as ([k0 c0] & <- & Hk).
  apply filter_In in Hk as [Hk _]. apply (proj1 (sorted_items_In _ _)) in Hk.
  by apply (in_map fst) in Hk.
Qed.

End ReportKeys.

(** * The task factory and the runner table *)

Section Registry.

Lemma registry_get_register_eq n c tasks :
  registry_get n (register_task n c tasks) = Some c.
Proof.
  induction tasks as [|[n0 c0] tasks IH]; simpl.
  - by rewrite String.eqb_refl.
  - destruct (String.eqb n n0) eqn:Hn; simpl; by rewrite Hn.
Qed.

Lemma registry_get_register_ne n n' c tasks :
  n <> n' -> registry_get n' (register_task n c tasks) = registry_get n' tasks.
Proof.
  intros Hne. induction tasks as [|[n0 c0] tasks IH]; simpl.
  - destruct (String.eqb n' n) eqn:Hn; [|reflexivity].
    apply String.eqb_eq in Hn. congruence.
  - destruct (String.eqb n n0) eqn:Hn; simpl.
    + apply String.eqb_eq in Hn. subst n0.
      destruct (String.eqb n' n) eqn:Hn'; [|reflexivity].
      apply String.eqb_eq in Hn'. congruence.
    + destruct (String.eqb n' n0); [reflexivity|exact IH].
Qed.

Lemma register_task_names n c tasks n' :
  In n' (List.map fst (register_task n c tasks)) <->
  n' = n \/ In n' (List.map fst tasks).
Proof.
  induction tasks as [|[n0 c0] tasks IH]; simpl.
  - split; [intros [<-|[]]; by left|intros [->|[]]; by left].
  - destruct (String.eqb n n0) eqn:Hn; simpl.
    + apply String.eqb_eq in Hn. subst n0. intuition congruence.
    + rewrite IH. intuition congruence.
Qed.

Lemma register_task_nodup n c tasks :
  List.NoDup (List.map fst tasks) ->
  List.NoDup (List.map fst (register_task n c tasks)).
Proof.
  induction tasks as [|[n0 c0] tasks IH]; simpl; intros Hnd.
  - constructor; [intros []|constructor].
  - inversion Hnd as [|? ? Hnotin Hnd']; subst.
    destruct (String.eqb n n0) eqn:Hn; simpl; [by constructor|].
    constructor; [|by apply IH].
    rewrite register_task_names. intros [->|Hin]; [|by apply Hnotin].
    by rewrite String.eqb_refl in Hn.
Qed.

End Registry.

Section Construction.
Variable H : host.
Variable unified_call : json -> json -> json -> json -> result json.

Lemma create_task_known tasks n cls config :
  registry_get n tasks = Some cls ->
  create_task H tasks (JStr n) config = class_call cls config.
Proof. intros Hg. unfold create_task. by rewrite Hg. Qed.

Lemma create_task_unknown tasks n config :
  registry_get n tasks = None ->
  create_task H tasks (JStr n) config =
    Raise "ValueError"
      ("Unknown task type: " ++ py_str H (JStr n)
         ++ ". Supported task types include: "
         ++ py_str H (JArr (List.map (fun nc => JStr (fst nc)) tasks))).
Proof. intros Hg. unfold create_task. by rewrite Hg. Qed.

Lemma TaskRunner_init_unknown tasks task_config model_config n :
  dget "task_name" task_config = JStr n ->
  registry_get n tasks = None ->
  exists ty msg,
    TaskRunner_init H unified_call tasks task_config model_config = Raise ty msg.
Proof.
  intros Hn Hg. unfold TaskRunner_init.
  destruct (negb (dmem "task_name" task_config)); [by eexists _, _|].
  rewrite Hn, (create_task_unknown tasks n _ Hg). by eexists _, _.
Qed.

Lemma init_fold_Some tasks mc cfgs : forall (runners : gmap string TaskRunner) p r,
  fold_left (init_step H unified_call tasks mc) cfgs runners !! p = Some r ->
  runners !! p = Some r \/
  exists cfg, In cfg cfgs /\ task_path cfg = p /\
              TaskRunner_init H unified_call tasks (config_dict cfg) mc = Ok r.
Proof.
  induction cfgs as [|cfg cfgs IH]; intros runners p r Hl; simpl in Hl;
    [by left|].
  apply IH in Hl as [Hl|(cfg' & Hin & Hp & Hok)].
  - unfold init_step in Hl.
    destruct (TaskRunner_init H unified_call tasks (config_dict cfg) mc)
      as [r0|ty msg] eqn:Hinit; [|by left].
    destruct (decide (p = task_path cfg)) as [->|Hne].
    + rewrite lookup_insert_eq in Hl. injection Hl as ->.
      right. exists cfg. split; [by left|]. by split.
    + rewrite lookup_insert_ne in Hl by congruence. by left.
  - right. exists cfg'. split; [by right|]. by split.
Qed.

Lemma init_fold_is_Some tasks mc cfgs : forall (runners : gmap string TaskRunner) p,
  is_Some (runners !! p) \/
  (exists cfg r, In cfg cfgs /\ task_path cfg = p /\
                 TaskRunner_init H unified_call tasks (config_dict cfg) mc = Ok r) ->
  is_Some (fold_left (init_step H unified_call tasks mc) cfgs runners !! p).
Proof.
  induction cfgs as [|cfg cfgs IH]; intros runners p Hsrc; simpl.
  - destruct Hsrc as [Hs|(cfg & r & [] & _)]. exact Hs.
  - apply IH. unfold init_step.
    destruct Hsrc as [Hs|(cfg' & r & [<-|Hin] & Hp & Hok)].
    + left. destruct (TaskRunner_init _ _ _ _ _); [|exact Hs].
      destruct (decide (p = task_path cfg)) as [->|Hne].
      * rewrite lookup_insert_eq. by eexists.
      * by rewrite lookup_insert_ne by congruence.
    + left. rewrite Hok, <- Hp, lookup_insert_eq. by eexists.
    + right. exists cfg', r. by repeat split.
Qed.

Lemma init_task_runners_fold tasks cfgs mc :
  init_task_runners H unified_call tasks cfgs mc =
    fold_left (init_step H unified_call tasks mc) cfgs ∅.
Proof. reflexivity. Qed.

Lemma init_task_runners_Some tasks cfgs mc p r :
  init_task_runners H unified_call tasks cfgs mc !! p = Some r ->
  exists cfg, In cfg cfgs /\ task_path cfg = p /\
              TaskRunner_init H unified_call tasks (config_dict cfg) mc = Ok r.
Proof.
  rewrite init_task_runners_fold. intros Hl.
  apply init_fold_Some in Hl as [Hl|Hl]; [|exact Hl].
  by rewrite lookup_empty in Hl.
Qed.

Lemma init_task_runners_None tasks cfgs mc p :
  init_task_runners H unified_call tasks cfgs mc !! p = None <->
  forall cfg, In cfg cfgs -> task_path cfg = p ->
    exists ty msg,
      TaskRunner_init H unified_call tasks (config_dict cfg) mc = Raise ty msg.
Proof.
  split.
  - intros Hnone cfg Hin Hp.
    destruct (TaskRunner_init H unified_call tasks (config_dict cfg) mc)
      as [r|ty msg] eqn:Hinit; [|by eexists _, _].
    exfalso.
    assert (Hs : is_Some (init_task_runners H unified_call tasks cfgs mc !! p)).
    { rewrite init_task_runners_fold. apply init_fold_is_Some. right.
      exists cfg, r. by repeat split. }
    rewrite Hnone in Hs. by destruct Hs.
  - intros Hall.
    destruct (init_task_runners H unified_call tasks cfgs mc !! p) as [r|] eqn:Hl;
      [|reflexivity].
    apply init_task_runners_Some in Hl as (cfg & Hin & Hp & Hok).
    destruct (Hall cfg Hin Hp) as (ty & msg & Hr). congruence.
Qed.

End Construction.

Section Generated.
Variable P : Pipeline.

Lemma prompted_item_field r cfg i k :
  k <> "prompt" -> k <> "metadata" ->
  dget k (prompted_item P r cfg i) = dget k (initial_item P cfg i) /\
  dmem k (prompted_item P r cfg i) = dmem k (initial_item P cfg i).
Proof.
  intros Hp Hm. unfold prompted_item.
  destruct (generate_prompt r _) as [[p md]|ty msg];
    (split; [rewrite !dget_dset_ne by congruence|
             rewrite !dmem_dset_ne by congruence]; reflexivity).
Qed.

Lemma prompted_item_task r cfg i :
  dget "task" (prompted_item P r cfg i) = JStr ("longeval/" ++ task_path cfg).
Proof.
  by destruct (prompted_item_field r cfg i "task") as [-> _]; [discriminate..|].
Qed.

Lemma generated_without_runner p :
  task_runners P !! p = None ->
  forall item, In item (generated_data P) ->
    dget "task" item <> JStr ("longeval/" ++ p).
Proof.
  intros Hnone item Hin Htask.
  apply generated_item_origin in Hin as (cfg & r & i & _ & Hr & _ & ->).
  rewrite prompted_item_task in Htask. injection Htask as Htask.
  apply append_inv_head in Htask. congruence.
Qed.

End Generated.

(** * Task configurations and task paths *)

Section DictUpdate.

Lemma dmem_dset k k' v d : dmem k' (dset k v d) = String.eqb k' k || dmem k' d.
Proof.
  destruct (String.eqb k' k) eqn:Hk; simpl.
  - apply String.eqb_eq in Hk. subst k'. apply dmem_dset_eq.
  - apply dmem_dset_ne. intros ->. by rewrite String.eqb_refl in Hk.
Qed.

Lemma dget_absent k d : dmem k d = false -> dget k d = JNull.
Proof.
  induction d as [|[k0 v0] d IH]; simpl; [reflexivity|].
  destruct (String.eqb k k0); [discriminate|exact IH].
Qed.

Lemma dmem_In k (d : obj) : dmem k d = true <-> In k (List.map fst d).
Proof.
  induction d as [|[k0 v0] d IH]; simpl; [split; [discriminate|tauto]|].
  destruct (String.eqb k k0) eqn:Hk.
  - apply String.eqb_eq in Hk. subst. split; [by left|reflexivity].
  - rewrite IH. split; [by right|]. intros [->|Hin]; [|exact Hin].
    by rewrite String.eqb_refl in Hk.
Qed.

(** [d.update(other)] for a dict [other]: the keys of [other] take its
    values, the other keys keep theirs. *)
Lemma dget_dupdate k (other : obj) : forall d,
  List.NoDup (List.map fst other) ->
  dget k (dupdate d other) = (if dmem k other then dget k other else dget k d) /\
  dmem k (dupdate d other) = dmem k other || dmem k d.
Proof.
  unfold dupdate.
  induction other as [|[k0 v0] other IH]; intros d Hnd; simpl; [by split|].
  inversion Hnd as [|? ? Hnotin Hnd']; subst.
  destruct (IH (dset k0 v0 d) Hnd') as [IHg IHm]. rewrite IHg, IHm.
  destruct (String.eqb k k0) eqn:Hk.
  - apply String.eqb_eq in Hk. subst k0.
    assert (Hno : dmem k other = false).
    { destruct (dmem k other) eqn:Hm; [|reflexivity].
      apply dmem_In in Hm. contradiction. }
    rewrite Hno, dget_dset_eq, dmem_dset_eq. by split.
  - assert (Hne : k0 <> k) by (intros ->; by rewrite String.eqb_refl in Hk).
    rewrite dget_dset_ne, dmem_dset_ne by exact Hne. by split.
Qed.

End DictUpdate.

Section Prepare.
Variable H : host.

Lemma prepare_task_config_Ok tasks_config path args cfg :
  prepare_task_config H tasks_config path args = Ok cfg ->
  exists common,
    dget_default (main_task_name path) (JObj []) tasks_config = JObj common /\
    cfg = dset "task_name" (JStr (main_task_name path))
            (dset "task_path" (JStr path) (dupdate common args)).
Proof.
  unfold prepare_task_config.
  destruct (dget_default (main_task_name path) (JObj []) tasks_config);
    try discriminate.
  intros [= <-]. by eexists.
Qed.

Lemma prepare_task_config_fields tasks_config path args cfg :
  prepare_task_config H tasks_config path args = Ok cfg ->
  dget "task_path" cfg = JStr path /\
  dget "task_name" cfg = JStr (main_task_name path) /\
  dmem "task_path" cfg = true /\ dmem "task_name" cfg = true.
Proof.
  intros Hp. apply prepare_task_config_Ok in Hp as (common & _ & ->).
  repeat split.
  - rewrite dget_dset_ne by discriminate. apply dget_dset_eq.
  - apply dget_dset_eq.
  - rewrite dmem_dset_ne by discriminate. apply dmem_dset_eq.
  - apply dmem_dset_eq.
Qed.

Lemma prepare_task_config_args tasks_config path args cfg common k :
  List.NoDup (List.map fst args) ->
  prepare_task_config H tasks_config path args = Ok cfg ->
  dget_default (main_task_name path) (JObj []) tasks_config = JObj common ->
  k <> "task_path" -> k <> "task_name" ->
  dget k cfg = if dmem k args then dget k args else dget k common.
Proof.
  intros Hnd Hp Hc Hk1 Hk2.
  apply prepare_task_config_Ok in Hp as (common' & Hc' & ->).
  rewrite Hc in Hc'. injection Hc' as <-.
  rewrite !dget_dset_ne by congruence.
  by apply dget_dupdate.
Qed.

Lemma prepare_task_config_total tasks_config path args :
  dmem (main_task_name path) tasks_config = false ->
  prepare_task_config H tasks_config path args =
    Ok (dset "task_name" (JStr (main_task_name path))
          (dset "task_path" (JStr path) (dupdate [] args))).
Proof.
  intros Hm. unfold prepare_task_config, dget_default. by rewrite Hm.
Qed.

End Prepare.

Section Paths.

Lemma split_slash_nonempty s : split_slash s <> [].
Proof.
  induction s as [|c s IH]; simpl; [discriminate|].
  destruct (Ascii.eqb c "/"); [discriminate|].
  by destruct (split_slash s).
Qed.

Lemma join_slash_split s : join_slash (split_slash s) = s.
Proof.
  induction s as [|c s IH]; [reflexivity|].
  simpl split_slash. destruct (Ascii.eqb c "/") eqn:Hc.
  - apply Ascii.eqb_eq in Hc. subst c.
    rewrite join_slash_cons by apply split_slash_nonempty.
    by rewrite IH.
  - destruct (split_slash s) as [|w ws] eqn:Hs.
    + by destruct (split_slash_nonempty s).
    + destruct ws as [|w' ws'].
      * simpl in *. by rewrite IH.
      * rewrite join_slash_cons by discriminate.
        rewrite join_slash_cons in IH by discriminate.
        change (String c w ++ "/" ++ join_slash (w' :: ws'))
          with (String c (w ++ "/" ++ join_slash (w' :: ws'))).
        by rewrite IH.
Qed.

Lemma split_slash_longeval p :
  split_slash ("longeval/" ++ p) = "longeval" :: split_slash p.
Proof.
  change ("longeval/" ++ p)
    with (String "l" (String "o" (String "n" (String "g" (String "e"
           (String "v" (String "a" (String "l" (String "/" p))))))))).
  cbn [split_slash Ascii.eqb Bool.eqb].
  reflexivity.
Qed.

Lemma prefix_longeval p : String.prefix "longeval/" ("longeval/" ++ p) = true.
Proof.
  change ("longeval/" ++ p)
    with (String "l" (String "o" (String "n" (String "g" (String "e"
           (String "v" (String "a" (String "l" (String "/" p))))))))).
  cbn. by destruct p.
Qed.

Lemma hierarchies_full parts :
  parts <> [] -> In (join_slash parts) (hierarchies parts).
Proof.
  intros Hne. unfold hierarchies. apply in_map_iff.
  exists (length parts). split.
  - by rewrite firstn_all.
  - apply in_seq. destruct parts; [done|]. simpl. lia.
Qed.

Lemma hierarchies_first p ps : In p (hierarchies (p :: ps)).
Proof. rewrite hierarchies_cons. by left. Qed.

End Paths.

(** * From a generated record to its runner and its prefixes *)

Section Agreement.
Variable H : host.
Variable P : Pipeline.

Lemma prompted_item_config r cfg i :
  dget_default "task_config" (JObj []) (prompted_item P r cfg i) =
    JObj (config_dict cfg).
Proof.
  unfold dget_default.
  destruct (prompted_item_field P r cfg i "task_config") as [-> ->];
    [discriminate..|reflexivity].
Qed.

Lemma find_runner_generated r cfg i :
  dget "task_path" (config_dict cfg) = JStr (task_path cfg) ->
  task_path cfg <> "" ->
  task_runners P !! task_path cfg = Some r ->
  find_runner H P (prompted_item P r cfg i) = Ok r.
Proof.
  intros Hpath Hne Hr. unfold find_runner.
  rewrite prompted_item_config, Hpath. simpl.
  destruct (String.eqb (task_path cfg) "") eqn:He.
  - apply String.eqb_eq in He. contradiction.
  - simpl. by rewrite Hr.
Qed.

Lemma find_runner_empty_path r cfg i :
  dget "task_path" (config_dict cfg) = JStr "" ->
  find_runner H P (prompted_item P r cfg i) =
    Raise "ValueError" "Missing 'task_config.task_path'".
Proof.
  intros Hpath. unfold find_runner.
  by rewrite prompted_item_config, Hpath.
Qed.

Lemma find_runner_infer_worker item :
  find_runner H P (_infer_worker H P item) = find_runner H P item.
Proof.
  destruct (_infer_worker_shape H P item) as (a & ->).
  by rewrite !find_runner_dset.
Qed.

Lemma contributing_longeval item p er ms :
  dget "task" item = JStr ("longeval/" ++ p) ->
  dmem "task" item = true ->
  dget "evaluation_results" item = JObj er ->
  truthy (dget "error" er) = false ->
  TaskFactory_tasks P !! main_task_name p = Some ms -> ms <> [] ->
  contributing P (Row (JObj item)) = Some (er, split_slash p, ms).
Proof.
  intros Ht Hm He Herr Hreg Hne. apply contributing_spec.
  split; [exact He|]. split; [exact Herr|].
  exists ("longeval/" ++ p). split.
  { unfold dget_default. by rewrite Hm. }
  split; [apply prefix_longeval|].
  split; [by rewrite split_slash_longeval|].
  split; [exact Hne|].
  unfold main_task_name in Hreg.
  destruct (split_slash p) as [|name rest] eqn:Hs.
  - by destruct (split_slash_nonempty p).
  - exists name, rest. by split.
Qed.

Lemma workers_keep_task r cfg i :
  let item := _eval_worker H P (_infer_worker H P (prompted_item P r cfg i)) in
  dget "task" item = JStr ("longeval/" ++ task_path cfg) /\
  dmem "task" item = true.
Proof.
  cbv zeta.
  destruct (_eval_worker_other H P (_infer_worker H P (prompted_item P r cfg i))
              "task") as [-> ->]; [discriminate..|].
  destruct (_infer_worker_other H P (prompted_item P r cfg i) "task")
    as [-> ->]; [discriminate..|].
  destruct (prompted_item_field P r cfg i "task") as [-> ->]; [discriminate..|].
  by split.
Qed.

End Agreement.

(** * Reloading after an evaluation run *)

Section RecordsFor.

Lemma records_for_app k ls1 ls2 :
  records_for k (ls1 ++ ls2) = (records_for k ls1 ++ records_for k ls2)%list.
Proof. unfold records_for. apply flat_map_app. Qed.

Lemma last_with_eval_app rs1 rs2 :
  last_with_eval (rs1 ++ rs2) =
    match last_with_eval rs2 with
    | Some r => Some r
    | None => last_with_eval rs1
    end.
Proof.
  induction rs1 as [|r rs1 IH]; simpl.
  - by destruct (last_with_eval rs2).
  - rewrite IH. by destruct (last_with_eval rs2).
Qed.

Lemma records_for_map (f : obj -> obj) k completed :
  (forall t, record_key (f t) = record_key t) ->
  List.NoDup (List.map record_key completed) ->
  records_for k (List.map (fun t => Row (JObj (f t))) completed) =
    match last_task k completed with
    | Some t => [f t]
    | None => []
    end.
Proof.
  intros Hf Hnd.
  induction completed as [|t rest IH]; [reflexivity|].
  simpl in Hnd. inversion Hnd as [|? ? Hnotin Hnd']; subst.
  change (records_for k (List.map (fun t => Row (JObj (f t))) (t :: rest)))
    with ((match line_record (Row (JObj (f t))) with
           | Some (k', r) => if decide (k = k') then [r] else []
           | None => []
           end) ++ records_for k (List.map (fun t => Row (JObj (f t))) rest))%list.
  rewrite (IH Hnd'). simpl last_task.
  assert (Hlr : line_record (Row (JObj (f t))) =
                match record_key t with Some k' => Some (k', f t) | None => None end).
  { simpl. pose proof (Hf t) as Hft. unfold record_key in Hft. rewrite Hft.
    fold (record_key t). reflexivity. }
  rewrite Hlr.
  destruct (last_task k rest) as [t'|] eqn:Hl.
  - destruct (last_task_Some k rest t' Hl) as [Hin Hk'].
    destruct (record_key t) as [k0|] eqn:Hk; [|reflexivity].
    destruct (decide (k = k0)) as [->|Hne]; [|reflexivity].
    exfalso. apply Hnotin. rewrite <- Hk'. by apply in_map.
  - destruct (record_key t) as [k0|] eqn:Hk.
    + destruct (decide (k = k0)) as [->|Hne].
      * by rewrite decide_True.
      * rewrite decide_False; [reflexivity|congruence].
    + by rewrite decide_False.
Qed.

Lemma records_for_rows_fresh k (m : items_map) :
  (forall k' v, In (k', v) m -> record_key v = Some k') ->
  ~ In k (List.map fst m) ->
  records_for k (rows (map_values m)) = [].
Proof.
  induction m as [|[k0 v0] m IH]; intros Hkey Hn; [reflexivity|].
  change (records_for k (rows (map_values ((k0, v0) :: m))))
    with ((match line_record (Row (JObj v0)) with
           | Some (k', r) => if decide (k = k') then [r] else []
           | None => []
           end) ++ records_for k (rows (map_values m)))%list.
  rewrite (line_record_row k0 v0) by (apply Hkey; by left).
  rewrite decide_False by (intros ->; apply Hn; by left).
  apply IH.
  - intros k' v Hin. apply Hkey. by right.
  - intros Hin. apply Hn. by right.
Qed.

Lemma records_for_rows k (m : items_map) :
  List.NoDup (List.map fst m) -> keyed (m, []) ->
  records_for k (rows (map_values m)) =
    match map_get k m with Some v => [v] | None => [] end.
Proof.
  intros Hnd Hk. pose proof (keyed_In m [] Hnd Hk) as Hkey. clear Hk.
  induction m as [|[k0 v0] m IH]; [reflexivity|].
  inversion Hnd as [|? ? Hnotin Hnd']; subst.
  change (records_for k (rows (map_values ((k0, v0) :: m))))
    with ((match line_record (Row (JObj v0)) with
           | Some (k', r) => if decide (k = k') then [r] else []
           | None => []
           end) ++ records_for k (rows (map_values m)))%list.
  rewrite (line_record_row k0 v0) by (apply Hkey; by left).
  simpl map_get.
  destruct (decide (k = k0)) as [->|Hne].
  - rewrite records_for_rows_fresh; [reflexivity| |exact Hnotin].
    intros k' v Hin. apply Hkey. by right.
  - simpl. apply IH; [exact Hnd'|]. intros k' v Hin. apply Hkey. by right.
Qed.

Lemma dset_same k v d : dmem k d = true -> dget k d = v -> dset k v d = d.
Proof.
  induction d as [|[k0 v0] d IH]; simpl; [discriminate|].
  destruct (String.eqb k k0) eqn:Hk.
  - intros _ ->. reflexivity.
  - intros Hm Hg. by rewrite IH.
Qed.

Lemma last_with_eval_has rs r :
  last_with_eval rs = Some r -> dmem "evaluation_results" r = true.
Proof.
  induction rs as [|r0 rs IH]; simpl; [discriminate|].
  destruct (last_with_eval rs) as [x|].
  - intros [= ->]. by apply IH.
  - destruct (dmem "evaluation_results" r0) eqn:Hm; [|discriminate].
    by intros [= <-].
Qed.

(** A record that already absorbed the log absorbs it again without
    change. *)
Lemma eval_view_stable rs1 rs2 v r :
  eval_view (rs1 ++ rs2) = Some v ->
  last_with_eval rs2 = Some r ->
  dset "evaluation_results" (dget "evaluation_results" r) v = v.
Proof.
  intros Hv Hl. destruct rs1 as [|first rs1]; simpl in Hv.
  - destruct rs2 as [|first later]; [discriminate|].
    simpl in Hv, Hl. injection Hv as <-.
    destruct (last_with_eval later) as [x|].
    + injection Hl as ->. apply dset_dset.
    + destruct (dmem "evaluation_results" first) eqn:Hm; [|discriminate].
      injection Hl as <-. by apply dset_same.
  - injection Hv as <-. rewrite last_with_eval_app, Hl. apply dset_dset.
Qed.

Lemma eval_view_None rs : eval_view rs = None -> rs = [].
Proof. by destruct rs. Qed.

Lemma eval_view_field rs v field :
  eval_view rs = Some v -> field <> "evaluation_results" ->
  exists first later, rs = first :: later /\ dget field v = dget field first.
Proof.
  destruct rs as [|first later]; [discriminate|]. simpl.
  intros [= <-] Hne. exists first, later. split; [reflexivity|].
  destruct (last_with_eval later); [|reflexivity].
  rewrite dget_dset_ne; [reflexivity|congruence].
Qed.

End RecordsFor.

Section EvalReload.
Variable H : host.
Variable P : Pipeline.

Lemma load_eval_map (fs : fsys) m tasks :
  _load_for_evaluation H P fs = Some (m, tasks) ->
  forall k,
    map_get k m =
      eval_view (records_for k (lines_at fs (output_file P))
                   ++ records_for k (lines_at fs (eval_log_file P)))%list.
Proof.
  intros Hload k. apply load_eval_Some in Hload as [-> _].
  by rewrite eval_replayed_get, records_for_app.
Qed.

Lemma _eval_worker_has_results t :
  dmem "evaluation_results" (_eval_worker H P t) = true.
Proof.
  destruct (_eval_worker_shape H P t) as (e & ->).
  rewrite dmem_dset_ne by discriminate. apply dmem_dset_eq.
Qed.

Lemma last_with_eval_snoc rs r :
  dmem "evaluation_results" r = true -> last_with_eval (rs ++ [r]) = Some r.
Proof. intros Hm. rewrite last_with_eval_app. simpl. by rewrite Hm. Qed.

Lemma eval_reload_after_merge (fs fs' : fsys) m m' tasks completed :
  (forall k, map_get k m =
     eval_view (records_for k (lines_at fs (output_file P))
                  ++ records_for k (lines_at fs (eval_log_file P)))%list) ->
  lines_at fs' (eval_log_file P) =
    (lines_at fs (eval_log_file P)
       ++ List.map (fun t => Row (JObj (_eval_worker H P t))) completed)%list ->
  List.NoDup (List.map record_key completed) ->
  (forall k, last_task k completed = last_task k tasks) ->
  fs' !! output_file P = fs !! output_file P ->
  (forall k, map_get k m' =
     match last_task k tasks with
     | Some t => Some (_eval_worker H P t)
     | None => map_get k m
     end) ->
  (forall t k, last_task k tasks = Some t -> map_get k m = Some t) ->
  List.NoDup (List.map fst m') -> keyed (m', []) ->
  forall m2 tasks2,
    _load_for_evaluation H P (_merge_eval_log_to_main H P m' fs') = Some (m2, tasks2) ->
    forall k,
      match last_task k tasks with
      | Some t =>
          exists v, map_get k m2 = Some v /\
            forall field, field <> "evaluation_duration_sec" ->
              dget field v = dget field (_eval_worker H P t)
      | None => map_get k m2 = map_get k m
      end.
Proof.
  intros Hm Hlog Hndc Hcomp Hout Hm' Htask Hnd Hkeyed m2 tasks2 Hload k.
  rewrite (load_eval_map _ _ _ Hload k).
  assert (HRN : records_for k
                  (List.map (fun t => Row (JObj (_eval_worker H P t))) completed) =
                match last_task k tasks with
                | Some t => [_eval_worker H P t]
                | None => []
                end).
  { rewrite <- Hcomp. apply records_for_map; [apply _eval_worker_key|exact Hndc]. }
  assert (Hraw : forall fsf,
            fsf !! output_file P = fs !! output_file P ->
            fsf !! eval_log_file P = fs' !! eval_log_file P ->
            match last_task k tasks with
            | Some t =>
                exists v,
                  eval_view (records_for k (lines_at fsf (output_file P))
                             ++ records_for k (lines_at fsf (eval_log_file P)))%list
                    = Some v /\
                  forall field, field <> "evaluation_duration_sec" ->
                    dget field v = dget field (_eval_worker H P t)
            | None =>
                eval_view (records_for k (lines_at fsf (output_file P))
                           ++ records_for k (lines_at fsf (eval_log_file P)))%list
                  = map_get k m
            end).
  { intros fsf Ho Hl.
    rewrite (lines_at_eq fs fsf _ Ho), (lines_at_eq fs' fsf _ Hl), Hlog.
    rewrite records_for_app, HRN, app_assoc.
    destruct (last_task k tasks) as [t|] eqn:Hlt.
    - pose proof (Htask t k Hlt) as Hmt. rewrite Hm in Hmt.
      destruct (records_for k (lines_at fs (output_file P))
                ++ records_for k (lines_at fs (eval_log_file P)))%list
        as [|first later] eqn:HX; [discriminate|].
      simpl in Hmt. injection Hmt as Hmt.
      change ((first :: later) ++ [_eval_worker H P t])%list
        with (first :: (later ++ [_eval_worker H P t]))%list.
      simpl. rewrite last_with_eval_snoc by apply _eval_worker_has_results.
      eexists. split; [reflexivity|]. intros field Hf.
      destruct (decide (field = "evaluation_results")) as [->|Hne].
      + by rewrite dget_dset_eq.
      + rewrite dget_dset_ne by congruence.
        destruct (_eval_worker_other H P t field Hne Hf) as [-> _].
        rewrite <- Hmt. destruct (last_with_eval later); [|reflexivity].
        rewrite dget_dset_ne; [reflexivity|congruence].
    - by rewrite app_nil_r, Hm. }
  unfold _merge_eval_log_to_main.
  destruct (decide (m' = [])) as [->|Hne]; [by apply Hraw|].
  destruct (snd (store_rewrite H P m' fs')) eqn:Hrw.
  - pose proof (merge_store_written H P (eval_log_file P) m' fs' Hne
                  (eval_log_ne_output P) Hrw) as Hstore.
    rewrite (lines_at_rows _ _ _ Hstore).
    rewrite (records_for_rows k m' Hnd Hkeyed), Hm'.
    destruct (remove_fails (faults H) (eval_log_file P)) eqn:Hrm.
    + rewrite (lines_at_eq fs' _ (eval_log_file P)
                 (merge_log_stuck H P (eval_log_file P) m' fs' Hne
                    (eval_log_ne_output P) (eval_log_ne_temp P) Hrw Hrm)).
      rewrite Hlog, records_for_app, HRN.
      destruct (last_task k tasks) as [t|] eqn:Hlt.
      * simpl. rewrite last_with_eval_snoc by apply _eval_worker_has_results.
        eexists. split; [reflexivity|]. intros field Hf.
        destruct (decide (field = "evaluation_results")) as [->|Hne'].
        -- by rewrite dget_dset_eq.
        -- rewrite dget_dset_ne; [reflexivity|congruence].
      * rewrite app_nil_r.
        destruct (map_get k m) as [v|] eqn:Hmk.
        -- simpl.
           destruct (last_with_eval (records_for k (lines_at fs (eval_log_file P))))
             as [r|] eqn:Hl; [|reflexivity].
           f_equal. rewrite Hm in Hmk. by apply (eval_view_stable _ _ v r Hmk).
        -- rewrite Hm in Hmk. apply eval_view_None, app_eq_nil in Hmk as [_ ->].
           reflexivity.
    + rewrite (lines_at_None _ _
                 (merge_log_removed H P (eval_log_file P) m' fs' Hne Hrw Hrm)).
      change (records_for k []) with (@nil obj). rewrite app_nil_r.
      destruct (last_task k tasks) as [t|] eqn:Hlt.
      * simpl. eexists. split; [reflexivity|]. done.
      * by destruct (map_get k m).
  - destruct (merge_log_kept_on_failure H P (eval_log_file P) m' fs'
                (eval_log_ne_temp P) Hrw) as [Hl Ho].
    apply Hraw; [by rewrite Ho|exact Hl].
Qed.

End EvalReload.

Section EvalReloadRun.
Variable H : host.
Variable P : Pipeline.

Lemma eval_task_in_map (fs : fsys) m tasks t k :
  _load_for_evaluation H P fs = Some (m, tasks) ->
  last_task k tasks = Some t -> map_get k m = Some t.
Proof.
  intros Hload Hl. destruct (last_task_Some k tasks t Hl) as [Hin Hk].
  pose proof (load_eval_Some H P fs m tasks Hload) as [Hm Ht].
  rewrite Ht in Hin.
  apply (eval_tasks_spec _ _ (eval_replayed_inv P fs)) in Hin
    as (k' & Hget & _).
  pose proof (eval_replayed_keyed P fs k' t Hget) as Hk'.
  fold (record_key t) in Hk'. rewrite Hk in Hk'. injection Hk' as ->.
  by rewrite Hm.
Qed.

Lemma evaluate_no_infer_log (fs : fsys) :
  fs !! log_file P = None ->
  evaluate_and_save H P fs = evaluate_loaded H P fs.
Proof.
  intros Hnl. unfold evaluate_and_save, pre_evaluation_merge.
  by rewrite (proj2 (exists_file_false _ _) Hnl).
Qed.

Lemma eval_reload_after_run (fs : fsys) m tasks :
  fs !! log_file P = None ->
  _load_for_evaluation H P fs = Some (m, tasks) ->
  Permutation (as_completed H tasks) tasks ->
  append_fails (faults H) (eval_log_file P) = false ->
  forall m2 tasks2,
    _load_for_evaluation H P (evaluate_and_save H P fs) = Some (m2, tasks2) ->
    forall k,
      match last_task k tasks with
      | Some t =>
          exists v, map_get k m2 = Some v /\
            forall field, field <> "evaluation_duration_sec" ->
              dget field v = dget field (_eval_worker H P t)
      | None => map_get k m2 = map_get k m
      end.
Proof.
  intros Hnl Hload Hperm Happ m2 tasks2.
  rewrite (evaluate_no_infer_log fs Hnl).
  pose proof (load_eval_map H P fs m tasks Hload) as Hm.
  pose proof (load_eval_Some H P fs m tasks Hload) as [Hmeq _].
  assert (Hndm : List.NoDup (List.map fst m))
    by (rewrite Hmeq; apply (eval_replayed_inv P fs)).
  assert (Hkm : keyed (m, []))
    by (rewrite Hmeq; apply keyed_ids, eval_replayed_keyed).
  destruct (decide (tasks = [])) as [->|Hne].
  - unfold evaluate_loaded. rewrite Hload.
    destruct (exists_file fs (eval_log_file P)).
    + apply (eval_reload_after_merge H P fs fs m m [] []);
        try assumption; try reflexivity.
      * by rewrite app_nil_r.
      * constructor.
      * discriminate.
    + intros Hload2 k. rewrite Hload in Hload2. by injection Hload2 as <- _.
  - assert (Hkeys : forall t, In t (as_completed H tasks) ->
                      exists k, record_key t = Some k).
    { intros t Hin. apply (eval_tasks_keyed H P fs m tasks t Hload).
      eapply Permutation_in; [exact Hperm|exact Hin]. }
    assert (Hndt : List.NoDup (List.map record_key tasks))
      by apply (eval_tasks_nodup H P fs m tasks Hload).
    rewrite (evaluate_tasks H P fs m tasks Hload Hne).
    destruct (eval_drain_log H P (as_completed H tasks) m fs Hkeys Happ)
      as [Hok Hlines].
    cbv zeta. rewrite Hok.
    apply (eval_reload_after_merge H P fs _ m _ tasks (as_completed H tasks)).
    + exact Hm.
    + exact Hlines.
    + eapply Permutation_NoDup; [|exact Hndt].
      apply Permutation_map. by apply Permutation_sym.
    + intros k. by apply last_task_perm.
    + apply eval_drain_other, not_eq_sym, eval_log_ne_output.
    + intros k. rewrite (eval_drain_get H P _ Hkeys).
      by rewrite (last_task_perm k _ tasks Hndt Hperm).
    + intros t k. by apply (eval_task_in_map fs m tasks).
    + by apply (eval_drain_map H P (as_completed H tasks) Hkeys m fs Hndm).
    + by apply eval_drain_keyed.
Qed.

End EvalReloadRun.

(** * The whole run *)

Section WholeRun.
Variable H : host.
Variable P : Pipeline.

Lemma run_all_other (fs : fsys) p :
  ~ In p (evaluation_files P ++ report_files P) ->
  run_all H P fs !! p = fs !! p.
Proof.
  intros Hn.
  assert (He : ~ In p (evaluation_files P))
    by (intros Hin; apply Hn, in_or_app; by left).
  assert (Hr : ~ In p (report_files P))
    by (intros Hin; apply Hn, in_or_app; by right).
  destruct (not_in_evaluation_files P p He) as (Hi & _).
  destruct (not_in_inference_files P p Hi) as (Ho & Ht & _).
  unfold run_all.
  destruct (_ && _); [by apply generate_prompts_other|].
  rewrite analyze_other by exact Hr.
  rewrite evaluate_and_save_other by exact He.
  rewrite run_inference_other by exact Hi.
  by apply generate_prompts_other.
Qed.

Lemma generated_data_nil :
  (forall cfg, In cfg (task_configs P) ->
     task_runners P !! task_path cfg = None \/ sample_num cfg = 0%nat) ->
  generated_data P = [].
Proof.
  unfold generated_data. induction (task_configs P) as [|cfg cfgs IH];
    intros Hall; simpl; [reflexivity|].
  rewrite IH by (intros c Hin; apply Hall; by right).
  destruct (Hall cfg (or_introl eq_refl)) as [->| ->]; [reflexivity|].
  by destruct (task_runners P !! task_path cfg).
Qed.

(** The store that prompt generation writes, when it can. *)
Lemma generate_prompts_store (fs : fsys) :
  fs !! output_file P = None ->
  fs !! log_file P = None ->
  fs !! eval_log_file P = None ->
  snd (store_rewrite H P [] fs) = Done ->
  let fs1 := snd (generate_prompts H P fs) in
  fs1 !! output_file P = Some (Lines (rows (generated_data P))) /\
  fs1 !! log_file P = None /\ fs1 !! eval_log_file P = None.
Proof.
  intros Hno Hnl Hne Hd. cbv zeta.
  assert (Hd' : snd (_safe_rewrite_file H (JArr (List.map JObj (generated_data P)))
                       (output_file P) false fs) = Done).
  { unfold store_rewrite in Hd. apply safe_rewrite_done_iff in Hd
      as (Ho & _ & Hw & Hm).
    apply safe_rewrite_done_iff. repeat split; try assumption. simpl. by eexists. }
  split; [|split].
  - unfold generate_prompts.
    rewrite (proj2 (exists_file_false fs _) Hno),
            (proj2 (exists_file_false fs _) Hnl),
            (proj2 (exists_file_false fs _) Hne). simpl.
    pose proof (safe_rewrite_done H _ _ _ _ Hd') as (c & Hc & Hfs).
    destruct (_safe_rewrite_file H _ _ _ _) as [fs' o]. simpl in Hd', Hfs.
    subst o fs'. simpl. simpl in Hc. injection Hc as <-.
    rewrite lookup_insert_eq. by rewrite jsonl_of_objects.
  - rewrite generate_prompts_other; [exact Hnl|apply log_ne_output|apply log_ne_temp].
  - rewrite generate_prompts_other;
      [exact Hne|apply eval_log_ne_output|apply eval_log_ne_temp].
Qed.

Lemma last_record_rows_unique vs v k :
  List.NoDup (List.map record_key vs) ->
  In v vs -> record_key v = Some k ->
  last_record k (rows vs) = Some v.
Proof.
  intros Hnd Hin Hk.
  transitivity ((fun o : obj => o) <$> last_task k vs).
  - exact (last_record_map (fun o => o) k vs (fun t => eq_refl)).
  - by rewrite (last_task_unique k vs v Hnd Hin Hk).
Qed.

Lemma prompted_item_failed r cfg i ty msg :
  generate_prompt r (initial_item P cfg i) = Raise ty msg ->
  dget "prompt" (prompted_item P r cfg i) = JStr "ERROR: Prompt generation failed" /\
  dget "metadata" (prompted_item P r cfg i) = JObj [("error", JStr msg)] /\
  dget "answer" (prompted_item P r cfg i) = JNull.
Proof.
  intros Hg. unfold prompted_item. rewrite Hg. repeat split.
Qed.

Lemma failed_prompt_not_scheduled (fs : fsys) m tasks item :
  _load_and_prepare_inference_tasks H P fs = Some (m, tasks) ->
  dget "prompt" item = JStr "ERROR: Prompt generation failed" ->
  ~ In item tasks.
Proof.
  intros Hload Hp Hin. apply load_infer_Some in Hload as [_ ->].
  apply (infer_tasks_spec _ _ (infer_replayed_inv P fs)) in Hin
    as (k & _ & _ & Hf).
  rewrite Hp in Hf. discriminate.
Qed.

Lemma failed_prompt_kept (fs : fsys) r cfg i ty msg :
  fs !! output_file P = None ->
  fs !! log_file P = None ->
  fs !! eval_log_file P = None ->
  snd (store_rewrite H P [] fs) = Done ->
  List.NoDup (List.map task_path (task_configs P)) ->
  In cfg (task_configs P) ->
  task_runners P !! task_path cfg = Some r ->
  (i < sample_num cfg)%nat ->
  generate_prompt r (initial_item P cfg i) = Raise ty msg ->
  (forall l, Permutation (as_completed H l) l) ->
  append_fails (faults H) (log_file P) = false ->
  let item := prompted_item P r cfg i in
  let fs2 := run_inference_multithread H P (snd (generate_prompts H P fs)) in
  forall m2 tasks2,
    _load_and_prepare_inference_tasks H P fs2 = Some (m2, tasks2) ->
    map_get (KStr (generate_unique_id (task_path cfg) i)) m2 = Some item /\
    ~ In item tasks2.
Proof.
  intros Hno Hnl Hne Hd Hnd Hcfg Hr Hi Hg Hperm Happ item fs2 m2 tasks2 Hload2.
  destruct (prompted_item_failed r cfg i ty msg Hg) as (Hp & _ & _).
  split; [|by apply (failed_prompt_not_scheduled fs2 m2 tasks2)].
  destruct (generate_prompts_store fs Hno Hnl Hne Hd) as (Hout & Hlog & Hev).
  set (fs1 := snd (generate_prompts H P fs)) in *.
  destruct (_load_and_prepare_inference_tasks H P fs1) as [[m tasks]|] eqn:Hload.
  - rewrite (infer_reload_after_run H P fs1 m tasks Hload (Hperm tasks) Happ
               m2 tasks2 Hload2).
    assert (Hm : map_get (KStr (generate_unique_id (task_path cfg) i)) m = Some item).
    { rewrite (load_infer_map H P fs1 m tasks Hload).
      rewrite (lines_at_None fs1 _ Hlog). simpl.
      rewrite (lines_at_rows fs1 _ _ Hout).
      apply last_record_rows_unique.
      - by apply generated_keys_nodup.
      - unfold generated_data. apply in_flat_map. exists cfg. split; [exact Hcfg|].
        rewrite Hr. apply in_map. apply in_seq. lia.
      - apply prompted_item_key. }
    destruct (last_task _ tasks) as [t|] eqn:Hl; [|exact Hm].
    exfalso. destruct (last_task_Some _ _ _ Hl) as [Hin Hk].
    pose proof (eq_sym (load_infer_map H P fs1 m tasks Hload
                          (KStr (generate_unique_id (task_path cfg) i)))) as Hx.
    assert (Ht : map_get (KStr (generate_unique_id (task_path cfg) i)) m = Some t).
    { pose proof (load_infer_Some H P fs1 m tasks Hload) as [Hmeq Hteq].
      rewrite Hteq in Hin.
      apply (infer_tasks_spec _ _ (infer_replayed_inv P fs1)) in Hin
        as (k' & Hget & _).
      pose proof (infer_replayed_keyed P fs1 k' t Hget) as Hk'.
      fold (record_key t) in Hk'. rewrite Hk in Hk'. injection Hk' as <-.
      by rewrite Hmeq. }
    rewrite Hm in Ht. injection Ht as <-.
    by apply (failed_prompt_not_scheduled fs1 m tasks item Hload Hp).
  - unfold fs2, run_inference_multithread in Hload2. rewrite Hload in Hload2.
    congruence.
Qed.

End WholeRun.

(** * Claims about the state loaders *)


(** C10.  A line whose parsed value is not an object with a truthy
    [sample_id] is ignored by both state loaders: the loader result (map and
    task list) is the same with the line and without it, in whatever file it
    stands.  Both log appends write nothing for such a record.  Consequently
    every record of a loader map, every scheduled task and every appended log
    line has a [sample_id] that is neither null nor the empty string. *)
Theorem records_without_sample_id_are_ignored (H : host) (P : Pipeline) (fs : fsys) :
  (forall v path ls1 ls2,
     has_sample_id v = false ->
     _load_and_prepare_inference_tasks H P
       (<[path := Lines (ls1 ++ Row v :: ls2)]> fs) =
     _load_and_prepare_inference_tasks H P (<[path := Lines (ls1 ++ ls2)]> fs) /\
     _load_for_evaluation H P (<[path := Lines (ls1 ++ Row v :: ls2)]> fs) =
     _load_for_evaluation H P (<[path := Lines (ls1 ++ ls2)]> fs)) /\
  (forall item,
     has_sample_id (JObj item) = false ->
     _append_to_infer_log H P item fs = fs /\
     _append_to_eval_log H P item fs = fs) /\
  (forall m tasks item,
     _load_and_prepare_inference_tasks H P fs = Some (m, tasks) \/
     _load_for_evaluation H P fs = Some (m, tasks) ->
     (exists k, map_get k m = Some item) \/ In item tasks ->
     has_sample_id (JObj item) = true) /\
  (forall item,
     _append_to_infer_log H P item fs = fs \/
     has_sample_id (JObj item) = true /\
     lines_at (_append_to_infer_log H P item fs) (log_file P) =
       (lines_at fs (log_file P) ++ [Row (JObj item)])%list) /\
  (forall item,
     _append_to_eval_log H P item fs = fs \/
     has_sample_id (JObj item) = true /\
     lines_at (_append_to_eval_log H P item fs) (eval_log_file P) =
       (lines_at fs (eval_log_file P) ++ [Row (JObj item)])%list) /\
  (forall item,
     has_sample_id (JObj item) = true ->
     dget "sample_id" item <> JNull /\ dget "sample_id" item <> JStr "").
Proof.
  split; [|split; [|split; [|split; [|split]]]].
  - intros v path ls1 ls2 Hv. split.
    + apply load_infer_skip. by apply line_record_no_id.
    + apply load_eval_skip. by apply line_record_no_id.
  - intros item Hv. simpl in Hv.
    unfold _append_to_infer_log, _append_to_eval_log. by rewrite Hv.
  - intros m tasks item Hload Hitem. simpl.
    assert (Hk : exists k, key_of (dget "sample_id" item) = Some k).
    { destruct Hload as [Hload|Hload].
      - apply load_infer_Some in Hload as [-> ->].
        assert (Hm : exists k, map_get k (fst (infer_replayed P fs)) = Some item).
        { destruct Hitem as [Hm|Hin]; [exact Hm|].
          apply infer_tasks_spec in Hin; [|apply infer_replayed_inv].
          destruct Hin as (k & Hget & _). by exists k. }
        destruct Hm as [k Hget]. exists k.
        by apply (infer_replayed_keyed P fs).
      - apply load_eval_Some in Hload as [-> ->].
        assert (Hm : exists k, map_get k (fst (eval_replayed P fs)) = Some item).
        { destruct Hitem as [Hm|Hin]; [exact Hm|].
          apply eval_tasks_spec in Hin; [|apply eval_replayed_inv].
          destruct Hin as (k & Hget & _). by exists k. }
        destruct Hm as [k Hget]. exists k.
        by apply (eval_replayed_keyed P fs). }
    destruct Hk as [k Hk]. by apply key_of_truthy in Hk.
  - intros item. unfold _append_to_infer_log. simpl.
    destruct (truthy (dget "sample_id" item)); simpl; [|by left].
    destruct (append_line_lines H (log_file P) item fs) as [Hs|Hl];
      [by left|by right].
  - intros item. unfold _append_to_eval_log. simpl.
    destruct (truthy (dget "sample_id" item)); simpl; [|by left].
    destruct (append_line_lines H (eval_log_file P) item fs) as [Hs|Hl];
      [by left|by right].
  - intros item Hv. simpl in Hv.
    split; intros Heq; by rewrite Heq in Hv.
Qed.

(** C3.  Classification of the records that need processing.  The loop
    bodies queue a record iff it is not in the done-set of the stage, its
    error mark does not exclude it under the retry flag, and (infer) its
    prompt did not fail or (evaluate) it has a valid answer.  With the flags
    as the loaders set them (retry for infer, no retry for evaluate), the
    task list of a successful load holds exactly: for infer, the records
    whose LAST line in store-then-log is not validly answered and whose
    prompt did not fail (so a later invalid line retracts an earlier
    validity, and error-marked answers are queued again); for evaluate, the
    records with a valid answer whose evaluation results, after the replay,
    are neither valid nor error-marked.  While replaying, each line sets the
    membership of its id in the done-set to the validity of its own answer
    (for evaluate: of its own evaluation results, when it has that key), so
    a later invalid line retracts what an earlier line recorded. *)
Theorem needs_processing_classification (H : host) (P : Pipeline) (fs : fsys) :
  (forall retry_errors processed_ids k item,
     needs_inference retry_errors processed_ids (k, item) =
       negb (set_mem k processed_ids)
       && (negb (is_error_answer (dget "answer" item)) || retry_errors)
       && negb (eq_str (dget "prompt" item) "ERROR: Prompt generation failed")) /\
  (forall retry_eval_errors evaluated_ids k item,
     needs_evaluation retry_eval_errors evaluated_ids (k, item) =
       is_valid_answer (dget "answer" item)
       && negb (set_mem k evaluated_ids)
       && (negb (is_eval_error (dget "evaluation_results" item))
           || retry_eval_errors)) /\
  (forall m tasks item,
     _load_and_prepare_inference_tasks H P fs = Some (m, tasks) ->
     In item tasks <->
     exists k,
       match last_record k (lines_at fs (log_file P)) with
       | Some r => Some r
       | None => last_record k (lines_at fs (output_file P))
       end = Some item /\
       is_valid_answer (dget "answer" item) = false /\
       eq_str (dget "prompt" item) "ERROR: Prompt generation failed" = false) /\
  (forall m tasks item,
     _load_for_evaluation H P fs = Some (m, tasks) ->
     In item tasks <->
     exists k,
       eval_view
         (records_for k
            (lines_at fs (output_file P) ++ lines_at fs (eval_log_file P))) =
         Some item /\
       is_valid_answer (dget "answer" item) = true /\
       is_valid_eval (dget "evaluation_results" item) = false /\
       is_eval_error (dget "evaluation_results" item) = false) /\
  (forall answer, is_error_answer answer = true -> is_valid_answer answer = false) /\
  (forall eval_results,
     is_eval_error eval_results = true -> is_valid_eval eval_results = false) /\
  (forall st ln k item,
     line_record ln = Some (k, item) ->
     set_mem k (snd (_parse_infer st ln)) = is_valid_answer (dget "answer" item)) /\
  (forall st ln k item,
     line_record ln = Some (k, item) ->
     dmem "evaluation_results" item = true ->
     set_mem k (snd (_parse_eval st ln)) =
       is_valid_eval (dget "evaluation_results" item)).
Proof.
  split; [|split; [|split; [|split; [|split; [|split; [|split]]]]]].
  - intros r ids k item. unfold needs_inference.
    destruct (set_mem k ids); simpl; [reflexivity|].
    destruct (is_error_answer (dget "answer" item)); simpl; [|reflexivity].
    by destruct r.
  - intros r ids k item. unfold needs_evaluation.
    destruct (is_valid_answer (dget "answer" item)); simpl; [|reflexivity].
    destruct (set_mem k ids); simpl; [reflexivity|].
    destruct (is_eval_error (dget "evaluation_results" item)); simpl;
      [|reflexivity].
    by destruct r.
  - intros m tasks item Hload.
    apply load_infer_Some in Hload as [-> ->].
    rewrite (infer_tasks_spec _ _ (infer_replayed_inv P fs)).
    split; intros (k & Hget & Hrest); exists k;
      (split; [|exact Hrest]).
    + by rewrite <- infer_replayed_get.
    + by rewrite infer_replayed_get.
  - intros m tasks item Hload.
    apply load_eval_Some in Hload as [-> ->].
    rewrite (eval_tasks_spec _ _ (eval_replayed_inv P fs)).
    split; intros (k & Hget & Hrest); exists k;
      (split; [|exact Hrest]).
    + by rewrite <- eval_replayed_get.
    + by rewrite eval_replayed_get.
  - intros answer He. destruct answer; try discriminate.
    simpl in *. rewrite He. apply andb_false_r.
  - intros e He. destruct e; try discriminate.
    simpl in *. by rewrite He.
  - intros st ln k item Hrec. rewrite _parse_infer_record, Hrec. simpl.
    destruct (is_valid_answer (dget "answer" item)).
    + rewrite set_mem_add. by rewrite bool_decide_eq_true_2.
    + destruct (set_mem k (snd st)) eqn:Hm; [|exact Hm].
      rewrite set_mem_discard. by rewrite bool_decide_eq_true_2.
  - intros st ln k item Hrec Hmem. rewrite _parse_eval_record, Hrec. simpl.
    assert (Hit : dget "evaluation_results" (eval_entry st k item) =
                  dget "evaluation_results" item).
    { unfold eval_entry, absorb_eval. destruct (map_get k (fst st)); [|done].
      rewrite Hmem. apply dget_dset_eq. }
    rewrite Hit.
    destruct (is_valid_eval (dget "evaluation_results" item)).
    + rewrite set_mem_add. by rewrite bool_decide_eq_true_2.
    + destruct (set_mem k (snd st)) eqn:Hm; [|exact Hm].
      rewrite set_mem_discard. by rewrite bool_decide_eq_true_2.
Qed.

(** C1 (amended).  The inference loader's map gives each sample id the
    full record of the last stage-log line filed under it, or of the last
    store line when the log has none.  The evaluation loader's map gives each
    sample id the record of the FIRST line filed under it (store lines before
    log lines), in which only [evaluation_results] is replaced, by that of
    the last later line that has this key.  Both loaders return a map when
    the store exists and the files can be read, and a merge whose rewrite
    succeeds leaves in the store exactly the records of the map, in order. *)
Theorem loader_map_contents (H : host) (P : Pipeline) (fs : fsys) :
  (forall m tasks k,
     _load_and_prepare_inference_tasks H P fs = Some (m, tasks) ->
     map_get k m =
       match last_record k (lines_at fs (log_file P)) with
       | Some r => Some r
       | None => last_record k (lines_at fs (output_file P))
       end) /\
  (forall m tasks k,
     _load_for_evaluation H P fs = Some (m, tasks) ->
     map_get k m =
       eval_view
         (records_for k
            (lines_at fs (output_file P) ++ lines_at fs (eval_log_file P)))) /\
  (exists_file fs (output_file P) = true ->
   read_fails (faults H) (output_file P) = false ->
   read_fails (faults H) (log_file P) = false ->
   read_fails (faults H) (eval_log_file P) = false ->
   (exists m tasks, _load_and_prepare_inference_tasks H P fs = Some (m, tasks)) /\
   (exists m tasks, _load_for_evaluation H P fs = Some (m, tasks))) /\
  (forall m,
     m <> [] ->
     snd (store_rewrite H P m fs) = Done ->
     _merge_infer_log_to_main H P m fs !! output_file P =
       Some (Lines (List.map (fun o => Row (JObj o)) (map_values m))) /\
     _merge_eval_log_to_main H P m fs !! output_file P =
       Some (Lines (List.map (fun o => Row (JObj o)) (map_values m)))).
Proof.
  split; [|split; [|split]].
  - intros m tasks k Hload. apply load_infer_Some in Hload as [-> _].
    apply infer_replayed_get.
  - intros m tasks k Hload. apply load_eval_Some in Hload as [-> _].
    apply eval_replayed_get.
  - intros He Hr1 Hr2 Hr3. split; eexists _, _.
    + by apply load_infer_ok.
    + by apply load_eval_ok.
  - intros m Hm Hd. unfold _merge_infer_log_to_main, _merge_eval_log_to_main.
    split; apply merge_store_written;
      auto using log_ne_output, eval_log_ne_output.
Qed.

(** C1, as stated, fails for the evaluation loader: the log line for [s1]
    carries [evaluation_duration_sec], the record the loader files under
    [s1] does not. *)
Lemma eval_loader_keeps_store_record :
  last_record (KStr "s1")
    (lines_at resume_fs (eval_log_file demo_pipeline)) = Some resume_log_record /\
  fst <$> _load_for_evaluation demo_host demo_pipeline resume_fs =
    Some [(KStr "s1", resume_merged_record)] /\
  map_get (KStr "s1") [(KStr "s1", resume_merged_record)] <> Some resume_log_record.
Proof.
  split; [|split].
  - vm_compute. reflexivity.
  - vm_compute. reflexivity.
  - vm_compute. intros Heq. discriminate Heq.
Qed.

(** * Claims about the safe rewrite and the merge *)



(** C6 (amended).  Merge of a non-empty map.  If the rewrite of the store
    succeeds, the stage log is gone afterwards provided [os.remove] does not
    fail; if the removal fails (only a warning is printed) the log stays as
    it was.  If the rewrite fails, the log is not deleted and its contents
    are unchanged.  This holds for the inference and the evaluation merge. *)
Theorem merge_log_outcomes (H : host) (P : Pipeline) (m : items_map) (fs : fsys) :
  m <> [] ->
  (snd (store_rewrite H P m fs) = Done ->
     (remove_fails (faults H) (log_file P) = false ->
      _merge_infer_log_to_main H P m fs !! log_file P = None) /\
     (remove_fails (faults H) (eval_log_file P) = false ->
      _merge_eval_log_to_main H P m fs !! eval_log_file P = None) /\
     (remove_fails (faults H) (log_file P) = true ->
      _merge_infer_log_to_main H P m fs !! log_file P = fs !! log_file P) /\
     (remove_fails (faults H) (eval_log_file P) = true ->
      _merge_eval_log_to_main H P m fs !! eval_log_file P =
        fs !! eval_log_file P)) /\
  (snd (store_rewrite H P m fs) = Raised ->
     _merge_infer_log_to_main H P m fs !! log_file P = fs !! log_file P /\
     _merge_eval_log_to_main H P m fs !! eval_log_file P = fs !! eval_log_file P).
Proof.
  intros Hm. unfold _merge_infer_log_to_main, _merge_eval_log_to_main. split.
  - intros Hd. repeat split; intros Hr.
    + by apply merge_log_removed.
    + by apply merge_log_removed.
    + apply merge_log_stuck; auto using log_ne_output, log_ne_temp.
    + apply merge_log_stuck; auto using eval_log_ne_output, eval_log_ne_temp.
  - intros Hr. split.
    + apply merge_log_kept_on_failure; auto using log_ne_temp.
    + apply merge_log_kept_on_failure; auto using eval_log_ne_temp.
Qed.

(** C6, as stated, fails: the rewrite succeeds, the removal of the log
    raises [OSError], and the inference log is still there after the merge. *)
Lemma merge_can_leave_the_log :
  snd (store_rewrite (host_with sticky_faults) demo_pipeline
         [(KStr "s1", pending_log_record)] pending_fs) = Done /\
  _merge_infer_log_to_main (host_with sticky_faults) demo_pipeline
      [(KStr "s1", pending_log_record)] pending_fs
    !! log_file demo_pipeline = Some (Lines [Row (JObj pending_log_record)]).
Proof. split; vm_compute; reflexivity. Qed.



(** * Claims about whole runs *)


(** * Claims about the stage executor *)


(** * Claims about the hierarchical metrics aggregator *)



(** C2: the code at the failing input.  The second record has a numeric
    [inference_duration_sec] (4) and [evaluation_duration_sec] (1) and an
    [evaluation_results] with an [error]; it is skipped before the timing
    statements, so only the first record's duration (2) is in the cell of
    either prefix, and no evaluation duration is recorded at all. *)
Theorem timing_of_failed_evaluation_is_dropped :
  is_number (dget "inference_duration_sec" timed_failed_record) = true /\
  is_number (dget "evaluation_duration_sec" timed_failed_record) = true /\
  contributing demo_pipeline (Row (JObj timed_failed_record)) = None /\
  (let stats := fst (fst (collect_stats demo_pipeline (lines_at timed_fs "out.jsonl"))) in
   stat_get "a" "inference_duration_sec" stats = (2%Q, 1%Z) /\
   stat_get "a/b" "inference_duration_sec" stats = (2%Q, 1%Z) /\
   stat_get "a" "evaluation_duration_sec" stats = (0%Q, 0%Z) /\
   stat_get "a/b" "evaluation_duration_sec" stats = (0%Q, 0%Z)).
Proof. repeat split; vm_compute; reflexivity. Qed.

(** * The theorems at concrete inputs *)

(** The evaluation loader on the resumed store of the examples. *)
Lemma loader_map_contents_witness :
  _load_for_evaluation demo_host demo_pipeline resume_fs =
    Some ([(KStr "s1", resume_merged_record)], []) /\
  map_get (KStr "s1") [(KStr "s1", resume_merged_record)] =
    eval_view
      (records_for (KStr "s1")
         (lines_at resume_fs (output_file demo_pipeline)
            ++ lines_at resume_fs (eval_log_file demo_pipeline))).
Proof.
  split; [vm_compute; reflexivity|].
  apply (proj1 (proj2 (loader_map_contents demo_host demo_pipeline resume_fs))
           _ []).
  vm_compute. reflexivity.
Defined.

(** The inference loader on a store with one unanswered record. *)
Lemma needs_processing_classification_witness :
  _load_and_prepare_inference_tasks demo_host demo_pipeline unanswered_fs =
    Some ([(KStr "s1", pending_store_record)], [pending_store_record]) /\
  (In pending_store_record [pending_store_record] <->
   exists k,
     match last_record k (lines_at unanswered_fs (log_file demo_pipeline)) with
     | Some r => Some r
     | None => last_record k (lines_at unanswered_fs (output_file demo_pipeline))
     end = Some pending_store_record /\
     is_valid_answer (dget "answer" pending_store_record) = false /\
     eq_str (dget "prompt" pending_store_record)
       "ERROR: Prompt generation failed" = false).
Proof.
  split; [vm_compute; reflexivity|].
  apply (proj1 (proj2 (proj2
           (needs_processing_classification demo_host demo_pipeline unanswered_fs)))
           [(KStr "s1", pending_store_record)]).
  vm_compute. reflexivity.
Defined.


(** A merge on a fault-free host removes the inference log. *)
Lemma merge_log_outcomes_witness :
  [(KStr "s1", pending_log_record)] <> [] /\
  snd (store_rewrite demo_host demo_pipeline
         [(KStr "s1", pending_log_record)] pending_fs) = Done /\
  _merge_infer_log_to_main demo_host demo_pipeline
      [(KStr "s1", pending_log_record)] pending_fs
    !! log_file demo_pipeline = None.
Proof.
  assert (Hm : [(KStr "s1", pending_log_record)] <> []) by discriminate.
  assert (Hd : snd (store_rewrite demo_host demo_pipeline
                      [(KStr "s1", pending_log_record)] pending_fs) = Done)
    by (vm_compute; reflexivity).
  assert (Hr : remove_fails (faults demo_host) (log_file demo_pipeline) = false)
    by reflexivity.
  split; [exact Hm|]. split; [exact Hd|].
  exact (proj1 (proj1 (merge_log_outcomes demo_host demo_pipeline _ pending_fs Hm)
                  Hd) Hr).
Defined.




(** A record without a sample id is not appended. *)
Lemma records_without_sample_id_are_ignored_witness :
  has_sample_id (JObj [("answer", JStr "x")]) = false /\
  _append_to_infer_log demo_host demo_pipeline [("answer", JStr "x")] resume_fs =
    resume_fs.
Proof.
  assert (Hn : has_sample_id (JObj [("answer", JStr "x")]) = false)
    by reflexivity.
  split; [exact Hn|].
  exact (proj1 (proj1 (proj2
           (records_without_sample_id_are_ignored demo_host demo_pipeline
              resume_fs)) _ Hn)).
Defined.


(** * Further properties of the pipeline *)

(** X1.  [generate_unique_id] is injective: two calls give the same
    identifier only for the same task path and the same sample index (the
    index is written in decimal after the last underscore). *)
Theorem unique_id_is_injective (p q : string) (i j : nat) :
  generate_unique_id p i = generate_unique_id q j -> p = q /\ i = j.
Proof.
  unfold generate_unique_id. intros Heq.
  apply last_underscore_unique in Heq as [-> Hij];
    try apply pretty_nat_free.
  split; [reflexivity|]. by apply (inj pretty).
Qed.

(** X2.  When the configured task paths are pairwise distinct, the records
    that prompt generation produces have pairwise distinct loader keys, each
    the identifier of a configured path and an index below its
    [sample_num]; no generated record can replace another in a loader
    map. *)
Theorem generated_ids_are_distinct (P : Pipeline) :
  List.NoDup (List.map task_path (task_configs P)) ->
  List.NoDup (List.map record_key (generated_data P)) /\
  forall item, In item (generated_data P) ->
    exists cfg i,
      In cfg (task_configs P) /\ (i < sample_num cfg)%nat /\
      record_key item = Some (KStr (generate_unique_id (task_path cfg) i)).
Proof.
  intros Hnd. split; [by apply generated_keys_nodup|].
  intros item Hin.
  apply generated_item_origin in Hin as (cfg & r & i & Hcfg & _ & Hi & ->).
  exists cfg, i. split; [exact Hcfg|]. split; [exact Hi|].
  apply prompted_item_key.
Qed.


(** X4.  Write/read round trip of the store.  A merge whose rewrite
    succeeds and whose log removal does not fail leaves a store from which
    the stage's loader rebuilds exactly the merged map, in the same order
    (for a non-empty map whose records carry the identifiers they are filed
    under, as the loaders and the executor loop produce them). *)
Theorem merged_store_reloads (H : host) (P : Pipeline) (m : items_map)
    (fs : fsys) :
  m <> [] -> keyed (m, []) -> List.NoDup (List.map fst m) ->
  snd (store_rewrite H P m fs) = Done ->
  read_fails (faults H) (output_file P) = false ->
  (remove_fails (faults H) (log_file P) = false ->
   fst <$> _load_and_prepare_inference_tasks H P
             (_merge_infer_log_to_main H P m fs) = Some m) /\
  (remove_fails (faults H) (eval_log_file P) = false ->
   fst <$> _load_for_evaluation H P (_merge_eval_log_to_main H P m fs) = Some m).
Proof.
  intros Hne Hk Hnd Hd Hr. split; intros Hrm.
  - by apply merged_store_reloads_infer.
  - by apply merged_store_reloads_eval.
Qed.


(** X6.  The inference stage reads and writes only the store, its
    temporary file and the inference log; the evaluation stage only these
    and the evaluation log.  Every other file is left as it is, whatever
    fails. *)
Theorem stages_touch_only_their_files (H : host) (P : Pipeline) (fs : fsys)
    (p : string) :
  (~ In p (inference_files P) ->
   run_inference_multithread H P fs !! p = fs !! p) /\
  (~ In p (evaluation_files P) ->
   evaluate_and_save H P fs !! p = fs !! p).
Proof.
  split; intros Hn.
  - by apply run_inference_other.
  - by apply evaluate_and_save_other.
Qed.

(** X7.  The analysis writes nothing but the report and its temporary
    file, and a whole run writes nothing but the store, the two stage logs,
    the report and the two temporary files. *)
Theorem run_touches_only_named_files (H : host) (P : Pipeline) (fs : fsys)
    (p : string) :
  (~ In p (report_files P) ->
   analyze_hierarchical_metrics H P fs !! p = fs !! p) /\
  (~ In p (evaluation_files P ++ report_files P) ->
   run_all H P fs !! p = fs !! p).
Proof.
  split; intros Hn.
  - by apply analyze_other.
  - by apply run_all_other.
Qed.




(** X11.  The workers change only their own fields.  The record returned by
    [_infer_worker] differs from its input at most in [answer] and
    [inference_duration_sec], the record returned by [_eval_worker] at most
    in [evaluation_results] and [evaluation_duration_sec]: every other key
    is present or absent as before, with the same value. *)
Theorem workers_change_only_their_fields (H : host) (P : Pipeline) (item : obj)
    (k : string) :
  (k <> "answer" -> k <> "inference_duration_sec" ->
   dget k (_infer_worker H P item) = dget k item /\
   dmem k (_infer_worker H P item) = dmem k item) /\
  (k <> "evaluation_results" -> k <> "evaluation_duration_sec" ->
   dget k (_eval_worker H P item) = dget k item /\
   dmem k (_eval_worker H P item) = dmem k item).
Proof.
  split; intros H1 H2.
  - by apply _infer_worker_other.
  - by apply _eval_worker_other.
Qed.

(** X12.  The workers never make up a valid result.  If the record returned
    by [_infer_worker] has a valid answer, a runner was found for the
    record, its prompt is present and is not the prompt-failure mark, and the
    answer is what [call_api] returned for that prompt.  If the record
    returned by [_eval_worker] has valid evaluation results, they are what
    [evaluate_response] returned for the record's answer. *)
Theorem workers_do_not_fabricate_results (H : host) (P : Pipeline) (item : obj) :
  (is_valid_answer (dget "answer" (_infer_worker H P item)) = true ->
   exists task_runner,
     find_runner H P item = Ok task_runner /\
     dget "prompt" item <> JNull /\
     eq_str (dget "prompt" item) "ERROR: Prompt generation failed" = false /\
     call_api task_runner (dget "prompt" item)
       (dget_default "eval_args" (JObj []) item) =
       Ok (dget "answer" (_infer_worker H P item))) /\
  (is_valid_eval (dget "evaluation_results" (_eval_worker H P item)) = true ->
   exists task_runner,
     find_runner H P item = Ok task_runner /\
     evaluate_response task_runner (dget "answer" item) item =
       Ok (dget "evaluation_results" (_eval_worker H P item))).
Proof.
  split; intros Hv.
  - by apply _infer_worker_valid.
  - by apply _eval_worker_valid.
Qed.

(** X13.  An inference log without a usable record blocks the pipeline.
    When the inference log exists and neither the store nor the log holds a
    line with a [sample_id], prompt generation is skipped, the inference
    stage merges nothing and keeps the log, the evaluation stage aborts at
    its pre-check, the analysis refuses to run, and the whole run leaves
    every file as it is. *)
Theorem unusable_log_blocks_the_run (H : host) (P : Pipeline) (fs : fsys) :
  exists_file fs (log_file P) = true ->
  (forall ln, In ln (lines_at fs (output_file P) ++ lines_at fs (log_file P)) ->
              line_record ln = None) ->
  generate_prompts H P fs = ([], fs) /\
  run_inference_multithread H P fs = fs /\
  evaluate_and_save H P fs = fs /\
  analyze_hierarchical_metrics H P fs = fs /\
  run_all H P fs = fs.
Proof.
  intros Hlog Hall.
  assert (Hgen : generate_prompts H P fs = ([], fs)).
  { unfold generate_prompts. rewrite Hlog. simpl.
    by destruct (exists_file fs (output_file P)). }
  assert (Hinf : run_inference_multithread H P fs = fs).
  { unfold run_inference_multithread.
    destruct (_load_and_prepare_inference_tasks H P fs) as [[m tasks]|] eqn:Hload;
      [|reflexivity].
    destruct (load_infer_no_records H P fs m tasks Hall Hload) as [-> ->].
    by rewrite Hlog. }
  assert (Hev : evaluate_and_save H P fs = fs).
  { unfold evaluate_and_save, pre_evaluation_merge. rewrite Hlog.
    destruct (_load_and_prepare_inference_tasks H P fs) as [[m tasks]|] eqn:Hload;
      [|reflexivity].
    destruct (load_infer_no_records H P fs m tasks Hall Hload) as [-> ->].
    simpl. by rewrite Hlog. }
  assert (Han : analyze_hierarchical_metrics H P fs = fs).
  { unfold analyze_hierarchical_metrics. by rewrite Hlog. }
  repeat split; try assumption.
  unfold run_all. rewrite Hgen. simpl. rewrite Hlog, andb_false_r.
  by rewrite Hinf, Hev, Han.
Qed.

(** X14.  A run without tasks.  When no configured task has a runner or
    every [sample_num] is 0, a run that starts without store and logs does
    exactly what the initial rewrite does: if it succeeds the store is the
    empty file, and no stage log and no report is written. *)
Theorem run_without_tasks_writes_empty_store (H : host) (P : Pipeline)
    (fs : fsys) :
  (forall cfg, In cfg (task_configs P) ->
     task_runners P !! task_path cfg = None \/ sample_num cfg = 0%nat) ->
  fs !! output_file P = None ->
  fs !! log_file P = None ->
  fs !! eval_log_file P = None ->
  run_all H P fs = fst (_safe_rewrite_file H (JArr []) (output_file P) false fs) /\
  (snd (_safe_rewrite_file H (JArr []) (output_file P) false fs) = Done ->
   run_all H P fs =
     <[output_file P := Lines []]> (delete (output_file P ++ ".tmp_rewrite") fs)).
Proof.
  intros Hall Hno Hnl Hne.
  destruct (run_all_nothing_generated H P fs (generated_data_nil P Hall)
              Hno Hnl Hne) as [Hrun Hgen].
  assert (Heq : run_all H P fs =
                fst (_safe_rewrite_file H (JArr []) (output_file P) false fs))
    by (by rewrite Hrun, Hgen).
  split; [exact Heq|].
  intros Hd. rewrite Heq.
  apply safe_rewrite_done in Hd as (c & Hc & ->).
  simpl in Hc. by injection Hc as <-.
Qed.


(** X16.  A metric that no registered task lists, and that is not one of
    the two timing names, never reaches the report: whatever the
    [evaluation_results] of the records contain, no entry of the report has
    a cell under that name. *)
Theorem unregistered_metric_is_not_reported (P : Pipeline) (metric : string) :
  (forall name ms, TaskFactory_tasks P !! name = Some ms -> ~ In metric ms) ->
  timing_metric metric = false ->
  forall ls report h cells,
    make_report (fst (fst (collect_stats P ls))) = JObj report ->
    In (h, JObj cells) report ->
    ~ In metric (List.map fst cells).
Proof.
  intros Hun Ht ls report h cells Hrep Hin Hk.
  pose proof (make_report_entry (fst (fst (collect_stats P ls))) h cells) as He.
  rewrite Hrep in He. destruct (He Hin) as (mt & Hmt & Hsub).
  by apply (collect_stats_absent P metric Hun Ht ls h mt Hmt), Hsub.
Qed.

(** X17.  The task factory.  After [register_task] under a name,
    [create_task] with that name calls the class registered last, and the
    classes under other names are called as before.  A name that is not
    registered raises [ValueError].  A class that reaches
    [BaseTask.__init__] with an empty [registered_metrics] raises
    [NotImplementedError], and with a non-empty list goes on with its own
    constructor. *)
Theorem task_factory_lookup (H : host) (tasks : task_registry) (n : string)
    (config : obj) :
  (forall cls,
     create_task H (register_task n cls tasks) (JStr n) config =
       class_call cls config) /\
  (forall cls n' cls',
     n <> n' -> registry_get n' tasks = Some cls' ->
     create_task H (register_task n cls tasks) (JStr n') config =
       class_call cls' config) /\
  (registry_get n tasks = None ->
   exists msg, create_task H tasks (JStr n) config = Raise "ValueError" msg) /\
  (forall name rest,
     exists msg,
       create_task H (register_task n (subclass name [] rest) tasks)
         (JStr n) config = Raise "NotImplementedError" msg) /\
  (forall name metrics rest,
     metrics <> [] ->
     create_task H (register_task n (subclass name metrics rest) tasks)
       (JStr n) config = rest config).
Proof.
  split; [|split; [|split; [|split]]].
  - intros cls. apply create_task_known, registry_get_register_eq.
  - intros cls n' cls' Hne Hg. apply create_task_known.
    by rewrite registry_get_register_ne.
  - intros Hg. rewrite (create_task_unknown H tasks n config Hg). by eexists.
  - intros name rest.
    rewrite (create_task_known H _ n _ config (registry_get_register_eq n _ tasks)).
    simpl. by eexists.
  - intros name metrics rest Hne.
    rewrite (create_task_known H _ n _ config (registry_get_register_eq n _ tasks)).
    simpl. by destruct metrics.
Qed.

(** X18.  The runner table built by [Pipeline.__init__].  A task path has
    no runner exactly when the construction of the runner raised for every
    configuration of that path, and a runner in the table is the one
    constructed for some configuration of its path; a failing construction
    never stops the loop.  In particular a path all of whose configurations
    name an unregistered task has no runner, and prompt generation produces
    no record for it. *)
Theorem runner_table_after_init (H : host)
    (unified_call : json -> json -> json -> json -> result json)
    (tasks : task_registry) (cfgs : list task_config) (model_cfg : obj)
    (out report p : string) :
  let P := Pipeline_init H unified_call tasks cfgs model_cfg out report in
  (task_runners P !! p = None <->
   forall cfg, In cfg cfgs -> task_path cfg = p ->
     exists ty msg,
       TaskRunner_init H unified_call tasks (config_dict cfg) model_cfg
         = Raise ty msg) /\
  (forall r, task_runners P !! p = Some r ->
     exists cfg, In cfg cfgs /\ task_path cfg = p /\
       TaskRunner_init H unified_call tasks (config_dict cfg) model_cfg = Ok r) /\
  ((forall cfg, In cfg cfgs -> task_path cfg = p ->
      exists n, dget "task_name" (config_dict cfg) = JStr n /\
                registry_get n tasks = None) ->
   task_runners P !! p = None /\
   forall item, In item (generated_data P) ->
     dget "task" item <> JStr ("longeval/" ++ p)).
Proof.
  intros P. split; [|split].
  - apply init_task_runners_None.
  - intros r. apply init_task_runners_Some.
  - intros Hall.
    assert (Hnone : task_runners P !! p = None).
    { apply init_task_runners_None. intros cfg Hin Hp.
      destruct (Hall cfg Hin Hp) as (n & Hn & Hg).
      by apply (TaskRunner_init_unknown H unified_call tasks _ model_cfg n). }
    split; [exact Hnone|]. by apply generated_without_runner.
Qed.

(** X19.  The task configuration prepared by [main.py].  The prepared dict
    always carries the selected path under [task_path] and the first
    segment of that path under [task_name], whatever the common and the
    task-specific arguments say under these keys; for every other key the
    task-specific argument wins over the common one.  A task without an
    entry in the common configuration is prepared from its own arguments
    alone. *)
Theorem prepared_config_fields (H : host) (tasks_config : obj) (path : string)
    (args : obj) :
  (forall cfg,
     List.NoDup (List.map fst args) ->
     prepare_task_config H tasks_config path args = Ok cfg ->
     dget "task_path" cfg = JStr path /\
     dget "task_name" cfg = JStr (main_task_name path) /\
     forall common k,
       dget_default (main_task_name path) (JObj []) tasks_config = JObj common ->
       k <> "task_path" -> k <> "task_name" ->
       dget k cfg = if dmem k args then dget k args else dget k common) /\
  (dmem (main_task_name path) tasks_config = false ->
   prepare_task_config H tasks_config path args =
     Ok (dset "task_name" (JStr (main_task_name path))
           (dset "task_path" (JStr path) (dupdate [] args)))).
Proof.
  split; [|apply prepare_task_config_total].
  intros cfg Hnd Hp.
  destruct (prepare_task_config_fields H tasks_config path args cfg Hp)
    as (Hpath & Hname & _).
  split; [exact Hpath|]. split; [exact Hname|].
  intros common k Hc Hk1 Hk2.
  by apply (prepare_task_config_args H tasks_config path args cfg common k).
Qed.

(** X20.  From a prepared configuration to the runner and the report
    prefixes.  A record generated for a configuration that [main.py]
    prepared, with a non-empty task path that has a runner, is handed by
    both workers to that same runner.  Once validly evaluated it contributes
    to the statistics with the segments of its task path, under the metrics
    registered for the task name that [main.py] derived, so that the full
    task path and the task name are among its hierarchies.  With an empty
    task path both workers fail before any call to the runner. *)
Theorem generated_record_reaches_runner_and_prefixes (H : host) (P : Pipeline)
    (tasks_config args : obj) (cfg : task_config) (r : TaskRunner) (i : nat) :
  prepare_task_config H tasks_config (task_path cfg) args = Ok (config_dict cfg) ->
  task_runners P !! task_path cfg = Some r ->
  let item := prompted_item P r cfg i in
  let answered := _infer_worker H P item in
  let evaluated := _eval_worker H P answered in
  (task_path cfg <> "" ->
   find_runner H P item = Ok r /\ find_runner H P answered = Ok r) /\
  (task_path cfg = "" ->
   infer_try H P item = Raise "ValueError" "Missing 'task_config.task_path'" /\
   eval_try H P answered = Raise "ValueError" "Missing 'task_config.task_path'") /\
  (forall er ms,
     dget "evaluation_results" evaluated = JObj er ->
     truthy (dget "error" er) = false ->
     TaskFactory_tasks P !! main_task_name (task_path cfg) = Some ms ->
     ms <> [] ->
     contributing P (Row (JObj evaluated)) =
       Some (er, split_slash (task_path cfg), ms) /\
     In (task_path cfg) (hierarchies (split_slash (task_path cfg))) /\
     In (main_task_name (task_path cfg))
        (hierarchies (split_slash (task_path cfg)))).
Proof.
  intros Hprep Hr item answered evaluated.
  destruct (prepare_task_config_fields H tasks_config (task_path cfg) args
              (config_dict cfg) Hprep) as (Hpath & _).
  split; [|split].
  - intros Hne.
    assert (Hf : find_runner H P item = Ok r)
      by (by apply find_runner_generated).
    split; [exact Hf|]. unfold answered. by rewrite find_runner_infer_worker.
  - intros He. rewrite He in Hpath.
    assert (Hf : find_runner H P item =
                 Raise "ValueError" "Missing 'task_config.task_path'")
      by (by apply find_runner_empty_path).
    split.
    + unfold infer_try. by rewrite Hf.
    + unfold eval_try, answered. by rewrite find_runner_infer_worker, Hf.
  - intros er ms Her Herr Hreg Hms.
    destruct (workers_keep_task H P r cfg i) as [Htask Hmem].
    split; [by apply contributing_longeval|].
    split.
    + rewrite <- (join_slash_split (task_path cfg)) at 1.
      apply hierarchies_full, split_slash_nonempty.
    + unfold main_task_name.
      destruct (split_slash (task_path cfg)) as [|name rest] eqn:Hs.
      * by destruct (split_slash_nonempty (task_path cfg)).
      * apply hierarchies_first.
Qed.

(** * The further properties at concrete inputs *)

(** Equal identifiers come from the same path and index. *)
Lemma unique_id_is_injective_witness :
  generate_unique_id "a/b" 3 = "a/b_3" /\ "a/b" = "a/b" /\ 3%nat = 3%nat.
Proof.
  split; [vm_compute; reflexivity|].
  apply (unique_id_is_injective "a/b" "a/b" 3 3). reflexivity.
Defined.

(** The two records generated for the one task of the examples. *)
Lemma generated_ids_are_distinct_witness :
  List.NoDup (List.map task_path (task_configs demo_pipeline)) /\
  List.NoDup (List.map record_key (generated_data demo_pipeline)).
Proof.
  assert (Hnd : List.NoDup (List.map task_path (task_configs demo_pipeline)))
    by (constructor; [intros []|constructor]).
  split; [exact Hnd|].
  exact (proj1 (generated_ids_are_distinct demo_pipeline Hnd)).
Defined.

Lemma rev_completes (l : list obj) : Permutation (as_completed demo_host l) l.
Proof. apply Permutation_sym, Permutation_rev. Qed.


(** The merged record of the examples is read back as it was merged. *)
Lemma merged_store_reloads_witness :
  snd (store_rewrite demo_host demo_pipeline
         [(KStr "s1", pending_log_record)] pending_fs) = Done /\
  fst <$> _load_and_prepare_inference_tasks demo_host demo_pipeline
            (_merge_infer_log_to_main demo_host demo_pipeline
               [(KStr "s1", pending_log_record)] pending_fs) =
    Some [(KStr "s1", pending_log_record)].
Proof.
  assert (Hd : snd (store_rewrite demo_host demo_pipeline
                      [(KStr "s1", pending_log_record)] pending_fs) = Done)
    by (vm_compute; reflexivity).
  assert (Hk : keyed ([(KStr "s1", pending_log_record)], [])).
  { intros k item Hget. simpl in Hget.
    destruct (decide (k = KStr "s1")) as [->|]; [|discriminate].
    injection Hget as <-. reflexivity. }
  assert (Hnd : List.NoDup (List.map fst [(KStr "s1", pending_log_record)]))
    by (constructor; [intros []|constructor]).
  split; [exact Hd|].
  apply (proj1 (merged_store_reloads demo_host demo_pipeline
                  [(KStr "s1", pending_log_record)] pending_fs
                  ltac:(discriminate) Hk Hnd Hd eq_refl)).
  reflexivity.
Defined.


(** Both stages leave a file of another name alone. *)
Lemma stages_touch_only_their_files_witness :
  run_inference_multithread demo_host demo_pipeline
    (<["notes.txt" := Lines [Garbage]]> mixed_fs) !! "notes.txt" =
    Some (Lines [Garbage]) /\
  evaluate_and_save demo_host demo_pipeline
    (<["notes.txt" := Lines [Garbage]]> mixed_fs) !! "notes.txt" =
    Some (Lines [Garbage]).
Proof.
  assert (Hn : ~ In "notes.txt" (evaluation_files demo_pipeline))
    by (vm_compute; intuition discriminate).
  assert (Hi : ~ In "notes.txt" (inference_files demo_pipeline))
    by (vm_compute; intuition discriminate).
  split.
  - rewrite (proj1 (stages_touch_only_their_files demo_host demo_pipeline
                      (<["notes.txt" := Lines [Garbage]]> mixed_fs) "notes.txt") Hi).
    reflexivity.
  - rewrite (proj2 (stages_touch_only_their_files demo_host demo_pipeline
                      (<["notes.txt" := Lines [Garbage]]> mixed_fs) "notes.txt") Hn).
    reflexivity.
Defined.

(** A whole run leaves a file of another name alone. *)
Lemma run_touches_only_named_files_witness :
  run_all demo_host demo_pipeline (<["notes.txt" := Lines [Garbage]]> ∅)
    !! "notes.txt" = Some (Lines [Garbage]).
Proof.
  assert (Hn : ~ In "notes.txt"
                 (evaluation_files demo_pipeline ++ report_files demo_pipeline))
    by (vm_compute; intuition discriminate).
  rewrite (proj2 (run_touches_only_named_files demo_host demo_pipeline
                    (<["notes.txt" := Lines [Garbage]]> ∅) "notes.txt") Hn).
  reflexivity.
Defined.

Lemma rev_completes_on (f : io_faults) (l : list obj) :
  Permutation (as_completed (host_with f) l) l.
Proof. apply Permutation_sym, Permutation_rev. Qed.




(** The inference worker leaves the prompt of a record alone. *)
Lemma workers_change_only_their_fields_witness :
  dget "prompt" (_infer_worker demo_host demo_pipeline hello_record) =
    JStr "hello".
Proof.
  rewrite (proj1 (proj1 (workers_change_only_their_fields demo_host
                           demo_pipeline hello_record "prompt")
                    ltac:(discriminate) ltac:(discriminate))).
  reflexivity.
Defined.

(** The valid answer of [s2] is the response of the API. *)
Lemma workers_do_not_fabricate_results_witness :
  is_valid_answer
    (dget "answer" (_infer_worker demo_host demo_pipeline hello_record)) = true /\
  exists task_runner,
    find_runner demo_host demo_pipeline hello_record = Ok task_runner /\
    call_api task_runner (JStr "hello") (JObj []) = Ok (JStr "hi").
Proof.
  assert (Hv : is_valid_answer
                 (dget "answer" (_infer_worker demo_host demo_pipeline
                                   hello_record)) = true)
    by (vm_compute; reflexivity).
  split; [exact Hv|].
  destruct (proj1 (workers_do_not_fabricate_results demo_host demo_pipeline
                     hello_record) Hv) as (r & Hr & _ & _ & Hcall).
  exists r. split; [exact Hr|exact Hcall].
Defined.

(** A log of garbage beside an empty store: the run changes nothing. *)
Lemma unusable_log_blocks_the_run_witness :
  exists_file garbage_log_fs (log_file demo_pipeline) = true /\
  run_all demo_host demo_pipeline garbage_log_fs = garbage_log_fs.
Proof.
  assert (Hex : exists_file garbage_log_fs (log_file demo_pipeline) = true)
    by (vm_compute; reflexivity).
  assert (Hall : forall ln,
            In ln (lines_at garbage_log_fs (output_file demo_pipeline)
                   ++ lines_at garbage_log_fs (log_file demo_pipeline)) ->
            line_record ln = None).
  { intros ln Hin. vm_compute in Hin. destruct Hin as [<-|[]]. reflexivity. }
  split; [exact Hex|].
  exact (proj2 (proj2 (proj2 (proj2
           (unusable_log_blocks_the_run demo_host demo_pipeline garbage_log_fs
              Hex Hall))))).
Defined.

(** A run of the pipeline without runners leaves the empty store. *)
Lemma run_without_tasks_writes_empty_store_witness :
  run_all demo_host idle_pipeline ∅ =
    <["out.jsonl" := Lines []]> (delete "out.jsonl.tmp_rewrite" ∅).
Proof.
  assert (Hall : forall cfg, In cfg (task_configs idle_pipeline) ->
            task_runners idle_pipeline !! task_path cfg = None \/
            sample_num cfg = 0%nat).
  { intros cfg [<-|[]]. left. reflexivity. }
  assert (Hno : (∅ : fsys) !! output_file idle_pipeline = None) by reflexivity.
  assert (Hnl : (∅ : fsys) !! log_file idle_pipeline = None) by reflexivity.
  assert (Hne : (∅ : fsys) !! eval_log_file idle_pipeline = None) by reflexivity.
  apply (proj2 (run_without_tasks_writes_empty_store demo_host idle_pipeline ∅
                  Hall Hno Hnl Hne)).
  vm_compute. reflexivity.
Defined.


(** The metric [bleu] is not registered: the report of the examples has no
    cell for it under [a]. *)
Lemma unregistered_metric_is_not_reported_witness :
  timing_metric "bleu" = false /\
  ~ In "bleu"
      (List.map fst
         [("score", JObj [("average", JNum (3 # 5)); ("samples", JNum 2)])]).
Proof.
  split; [reflexivity|].
  assert (Hun : forall name ms,
            TaskFactory_tasks demo_pipeline !! name = Some ms -> ~ In "bleu" ms).
  { intros name ms Hl. simpl in Hl.
    destruct (decide (name = "a")) as [->|Hne].
    - rewrite lookup_singleton_eq in Hl. injection Hl as <-.
      intros [Hx|[]]. discriminate.
    - rewrite lookup_singleton_ne in Hl by congruence. discriminate. }
  apply (unregistered_metric_is_not_reported demo_pipeline "bleu" Hun eq_refl
           (lines_at longeval_fs "out.jsonl")
           [("a", JObj [("score", JObj [("average", JNum (3 # 5));
                                        ("samples", JNum 2)])]);
            ("a/b", JObj [("score", JObj [("average", JNum (4 # 5));
                                          ("samples", JNum 1)])]);
            ("a/c", JObj [("score", JObj [("average", JNum (2 # 5));
                                          ("samples", JNum 1)])])]
           "a").
  - vm_compute. reflexivity.
  - left. reflexivity.
Defined.

(** A name that was never registered raises [ValueError]. *)
Lemma task_factory_lookup_witness :
  registry_get "z" demo_registry = None /\
  exists msg,
    create_task demo_host demo_registry (JStr "z") [] = Raise "ValueError" msg.
Proof.
  split; [reflexivity|].
  apply (proj1 (proj2 (proj2 (task_factory_lookup demo_host demo_registry "z" [])))).
  reflexivity.
Defined.

(** The path of an unregistered task gets no runner. *)
Lemma runner_table_after_init_witness :
  task_runners
    (Pipeline_init demo_host demo_unified_call demo_registry [stray_config]
       [("model", JStr "m")] "out.jsonl" "m_metric_report.json")
    !! "z/b" = None.
Proof.
  apply (proj2 (proj2 (runner_table_after_init demo_host demo_unified_call
                         demo_registry [stray_config] [("model", JStr "m")]
                         "out.jsonl" "m_metric_report.json" "z/b"))).
  intros cfg [<-|[]] _. exists "z". split; reflexivity.
Defined.

(** The configuration prepared for [a/b]: the task's own [topic] wins. *)
Lemma prepared_config_fields_witness :
  prepare_task_config demo_host demo_tasks_config "a/b" demo_args =
    Ok demo_prepared_config /\
  dget "task_name" demo_prepared_config = JStr (main_task_name "a/b") /\
  dget "topic" demo_prepared_config = JStr "y".
Proof.
  assert (Hp : prepare_task_config demo_host demo_tasks_config "a/b" demo_args =
               Ok demo_prepared_config) by (vm_compute; reflexivity).
  assert (Hnd : List.NoDup (List.map fst demo_args))
    by (constructor; [intros []|constructor]).
  destruct (proj1 (prepared_config_fields demo_host demo_tasks_config "a/b"
                     demo_args) demo_prepared_config Hnd Hp)
    as (_ & Hname & Hargs).
  split; [exact Hp|]. split; [exact Hname|].
  rewrite (Hargs [("sample_num", JNum 2); ("topic", JStr "x")] "topic"
             eq_refl ltac:(discriminate) ltac:(discriminate)).
  reflexivity.
Defined.

(** The records generated for [a/b] reach the runner of [a/b]. *)
Lemma generated_record_reaches_runner_and_prefixes_witness :
  prepare_task_config demo_host [] "a/b" [] =
    Ok [("task_path", JStr "a/b"); ("task_name", JStr "a")] /\
  find_runner demo_host demo_pipeline
    (prompted_item demo_pipeline demo_runner
       {| config_dict := [("task_path", JStr "a/b"); ("task_name", JStr "a")];
          task_path := "a/b";
          sample_num := 2 |} 0) = Ok demo_runner.
Proof.
  assert (Hp : prepare_task_config demo_host [] "a/b" [] =
               Ok [("task_path", JStr "a/b"); ("task_name", JStr "a")])
    by (vm_compute; reflexivity).
  split; [exact Hp|].
  apply (proj1 (generated_record_reaches_runner_and_prefixes demo_host
                  demo_pipeline [] []
                  {| config_dict := [("task_path", JStr "a/b");
                                     ("task_name", JStr "a")];
                     task_path := "a/b";
                     sample_num := 2 |} demo_runner 0 Hp eq_refl)).
  discriminate.
Defined.
